(** * actions-runner-controller: scale-down reconciler, message-queue
      listener and registration-token cache

    A shallow embedding of
    - [github/github.go]: [Client.IsRunnerBusy], [Client.GetRegistrationToken],
      [Client.cleanup];
    - the [controllers] package: [RunnerReplicaSetReconciler.Reconcile];
    - the [scalesetlistener] package: [messageLoop.runAndNotify],
      [getMessage], [createRunnerScaleSetSession].

    Network and API-server calls are oracles: their answers are inputs of the
    model, the code around them is translated statement by statement. *)

From Stdlib Require Import ZArith Lia Bool Ascii String Sorted.
From stdpp Require Import gmap strings list fin_maps.

Local Open Scope Z_scope.

(* ===================================================================== *)
(** ** Go error values and [errors.As]                                    *)
(* ===================================================================== *)

Module GoErr.

(** The dynamic error types the code discriminates on.  [WrapError] is what
    [fmt.Errorf("...: %w", err)] builds, [ErrorString] what [fmt.Errorf]
    without [%w] (or [errors.New]) builds. *)
Inductive error : Type :=
| RunnerNotFound (runnerName : string)          (* *github.RunnerNotFound *)
| RunnerOffline (runnerName : string)           (* *github.RunnerOffline *)
| RateLimitError                                (* *gogithub.RateLimitError, go-github v33 *)
| RateLimitError_v39                            (* *github.RateLimitError of go-github v39 *)
| MessageQueueTokenExpiredError                 (* *github.MessageQueueTokenExpiredError *)
| StatusNotFound                                (* k8s StatusError, reason NotFound *)
| ErrorString (msg : string)
| ErrorfInt (format : string) (arg : Z)         (* fmt.Errorf(format, arg), one %d *)
| WrapError (msg : string) (inner : error).

(** [errors.As(err, &target)] walks the [Unwrap] chain and stops at the first
    error of the target's type.  One function per target type used. *)
Fixpoint As_RunnerNotFound (e : error) : bool :=
  match e with
  | RunnerNotFound _ => true
  | WrapError _ inner => As_RunnerNotFound inner
  | _ => false
  end.

Fixpoint As_RunnerOffline (e : error) : bool :=
  match e with
  | RunnerOffline _ => true
  | WrapError _ inner => As_RunnerOffline inner
  | _ => false
  end.

Fixpoint As_RateLimitError (e : error) : bool :=
  match e with
  | RateLimitError => true
  | WrapError _ inner => As_RateLimitError inner
  | _ => false
  end.

(** The type of the same name in go-github v39, the version
    [github/github.go] imports: the requests of the client of that file fail
    with this one, while [gogithub] in the controller is go-github v33.  The
    two are distinct types, so [errors.As] with a target of the one does not
    match an error of the other. *)
Fixpoint As_RateLimitError_v39 (e : error) : bool :=
  match e with
  | RateLimitError_v39 => true
  | WrapError _ inner => As_RateLimitError_v39 inner
  | _ => false
  end.

Fixpoint As_MessageQueueTokenExpiredError (e : error) : bool :=
  match e with
  | MessageQueueTokenExpiredError => true
  | WrapError _ inner => As_MessageQueueTokenExpiredError inner
  | _ => false
  end.

(** [kerrors.IsNotFound]: a type switch on the error itself (no unwrapping). *)
Definition IsNotFound (e : error) : bool :=
  match e with
  | StatusNotFound => true
  | _ => false
  end.

(** [client.IgnoreNotFound]. *)
Definition IgnoreNotFound (e : option error) : option error :=
  match e with
  | Some err => if IsNotFound err then None else Some err
  | None => None
  end.

End GoErr.

Import GoErr.

(* ===================================================================== *)
(** ** Time                                                               *)
(* ===================================================================== *)

Module GoTime.

(** Instants are nanoseconds since the Unix epoch, durations nanoseconds. *)
Definition Time := Z.
Definition Duration := Z.

Definition Second : Duration := 1000000000.
Definition Minute : Duration := 60 * Second.

Definition maxDuration : Duration := 2 ^ 63 - 1.
Definition minDuration : Duration := - 2 ^ 63.

(** [time.Time{}]: January 1, year 1, 00:00 UTC. *)
Definition zeroTime : Time := -62135596800 * Second.

Definition Add (t : Time) (d : Duration) : Time := t + d.

(** [t.Sub(u)] saturates at the ends of the [int64] range of [Duration]. *)
Definition Sub (t u : Time) : Duration :=
  if maxDuration <? t - u then maxDuration
  else if t - u <? minDuration then minDuration
  else t - u.

Definition After (t u : Time) : bool := u <? t.
Definition Before (t u : Time) : bool := t <? u.

End GoTime.

(* ===================================================================== *)
(** ** [github/github.go]                                                 *)
(* ===================================================================== *)

Module Github.

(** [github.Runner] of go-github: every field is a pointer, the getters
    return the zero value for a nil field (and for a nil receiver, which
    therefore behaves like the runner with every field unset). *)
Record Runner : Type := mkRunner {
  Name : option string;
  Status : option string;
  Busy : option bool
}.

Definition GetName (r : Runner) : string := default ""%string (Name r).
Definition GetStatus (r : Runner) : string := default ""%string (Status r).
Definition GetBusy (r : Runner) : bool := default false (Busy r).

(** The [for _, runner := range runners] loop of [IsRunnerBusy]. *)
Fixpoint IsRunnerBusy_loop (runners : list Runner) (name : string)
  : bool * option error :=
  match runners with
  | [] => (false, Some (RunnerNotFound name))
  | runner :: rest =>
      if String.eqb (GetName runner) name then
        if String.eqb (GetStatus runner) "offline" then
          (GetBusy runner, Some (RunnerOffline name))
        else (GetBusy runner, None)
      else IsRunnerBusy_loop rest name
  end.

(** [Client.IsRunnerBusy]; [listed] is what [c.ListRunners] returned, all
    pages together. *)
Definition IsRunnerBusy (listed : list Runner * option error) (name : string)
  : bool * option error :=
  match snd listed with
  | Some err => (false, Some err)
  | None => IsRunnerBusy_loop (fst listed) name
  end.

(** *** The registration-token cache *)

(** [github.RegistrationToken]; [GetExpiresAt] returns the zero [Timestamp]
    when the field is nil. *)
Record RegistrationToken : Type := mkRegistrationToken {
  Token : option string;
  ExpiresAt : option GoTime.Time
}.

Definition GetExpiresAt (rt : RegistrationToken) : GoTime.Time :=
  default GoTime.zeroTime (ExpiresAt rt).

(** [strings.Split(s, sep)] for a one-character separator. *)
Fixpoint Split (sep : ascii) (s : string) : list string :=
  match s with
  | EmptyString => [EmptyString]
  | String c rest =>
      if Ascii.eqb c sep then EmptyString :: Split sep rest
      else match Split sep rest with
           | [] => [String c EmptyString]
           | chunk :: chunks => String c chunk :: chunks
           end
  end.

Definition splitOwnerAndRepo (repo : string) : string * string * option error :=
  match Split "/"%char repo with
  | [owner; repository] => (owner, repository, None)
  | _ => (""%string, ""%string,
          Some (ErrorString ("invalid repository name: '" ++ repo ++ "'")))
  end.

Definition nonempty (s : string) : bool := negb (String.eqb s "").

(** Validates enterprise, organization and repo arguments. *)
Definition getEnterpriseOrganizationAndRepo (enterprise org repo : string)
  : string * string * string * option error :=
  if nonempty repo then
    let '(owner, repository, err) := splitOwnerAndRepo repo in
    (""%string, owner, repository, err)
  else if nonempty org then (""%string, org, ""%string, None)
  else if nonempty enterprise then (enterprise, ""%string, ""%string, None)
  else (""%string, ""%string, ""%string,
        Some (ErrorString "enterprise, organization and repository are all empty")).

Definition getRegistrationKey (org repo enterprise : string) : string :=
  "org=" ++ org ++ ",repo=" ++ repo ++ ",enterprise=" ++ enterprise.

(** What one of the three "create registration token" endpoints answers:
    an error, or a token together with the HTTP status code. *)
Inductive ApiAnswer : Type :=
| ApiError (err : error)
| ApiResponse (rt : RegistrationToken) (StatusCode : Z).

(** The go-github services the wrappers switch between. *)
Record Api : Type := mkApi {
  Actions_CreateRegistrationToken : string -> string -> ApiAnswer;
  Actions_CreateOrganizationRegistrationToken : string -> ApiAnswer;
  Enterprise_CreateRegistrationToken : string -> ApiAnswer
}.

Definition createRegistrationToken (api : Api) (enterprise org repo : string)
  : ApiAnswer :=
  if nonempty repo then Actions_CreateRegistrationToken api org repo
  else if nonempty org then Actions_CreateOrganizationRegistrationToken api org
  else Enterprise_CreateRegistrationToken api enterprise.

(** What a method does to the client, in program order: operations on the
    mutex [c.mu], accesses to the map [c.regTokens], and the goroutine it
    starts. *)
Inductive Op : Type :=
| Lock
| Unlock
| MapRead (key : string)
| MapWrite (key : string)
| MapDelete (key : string)
| GoCleanup.

(** Result of a call of [GetRegistrationToken]: the two return values, the
    map afterwards, and the events. *)
Record Got : Type := mkGot {
  got_token : option RegistrationToken;
  got_err : option error;
  got_regTokens : gmap string RegistrationToken;
  got_events : list Op
}.

Definition runnerStartupTimeout : GoTime.Duration := 30 * GoTime.Minute.

(** [Client.GetRegistrationToken].  [now] is what [time.Now()] answers.  The
    deferred [c.mu.Unlock()] is the last event of every path.  The two
    errors built with [%v] and [%d] are kept without their argument. *)
Definition GetRegistrationToken (api : Api) (now : GoTime.Time)
    (regTokens : gmap string RegistrationToken)
    (enterprise org repo name : string) : Got :=
  let key := getRegistrationKey org repo enterprise in
  let rt := regTokens !! key in
  let cached :=
    match rt with
    | Some tok =>
        GoTime.After (GetExpiresAt tok) (GoTime.Add now runnerStartupTimeout)
    | None => false
    end in
  if cached then mkGot rt None regTokens [Lock; MapRead key; Unlock]
  else
    let '(enterprise', owner, repo', err) :=
      getEnterpriseOrganizationAndRepo enterprise org repo in
    match err with
    | Some err => mkGot rt (Some err) regTokens [Lock; MapRead key; Unlock]
    | None =>
        match createRegistrationToken api enterprise' owner repo' with
        | ApiError _ =>
            mkGot None (Some (ErrorString "failed to create registration token"))
                  regTokens [Lock; MapRead key; Unlock]
        | ApiResponse fresh StatusCode =>
            if negb (StatusCode =? 201) then
              mkGot None (Some (ErrorString "unexpected status"))
                    regTokens [Lock; MapRead key; Unlock]
            else
              mkGot (Some fresh) None (<[key := fresh]> regTokens)
                    [Lock; MapRead key; MapWrite key; GoCleanup; Unlock]
        end
    end.

(** The keys [cleanup] deletes: those whose token expired before [now]. *)
Definition expired (now : GoTime.Time) (regTokens : gmap string RegistrationToken)
  : list string :=
  (map_to_list (filter (λ kv, GoTime.Before (GetExpiresAt kv.2) now = true)
                       regTokens)).*1.

(** [Client.cleanup] removes expired registration tokens. *)
Definition cleanup (now : GoTime.Time) (regTokens : gmap string RegistrationToken)
  : gmap string RegistrationToken * list Op :=
  (filter (λ kv, ¬ (GoTime.Before (GetExpiresAt kv.2) now = true)) regTokens,
   Lock :: (MapDelete <$> expired now regTokens) ++ [Unlock]).

(** A trace is one critical section: it takes the lock first, releases it
    last, and does neither in between. *)
Definition is_access (e : Op) : bool :=
  match e with
  | Lock | Unlock => false
  | _ => true
  end.

Definition critical_section (t : list Op) : Prop :=
  ∃ body, t = Lock :: body ++ [Unlock] ∧ forallb is_access body = true.

End Github.

(* ===================================================================== *)
(** ** Package [controllers]: [RunnerReplicaSetReconciler]                *)
(* ===================================================================== *)

Module Controllers.

(** Go's [int] is 64 bits wide here; subtraction wraps around. *)
Definition wrap64 (z : Z) : Z := (z + 2 ^ 63) mod 2 ^ 64 - 2 ^ 63.

(** [v1alpha1.Runner], with the fields [Reconcile] and [newRunner] touch.
    [ControllerUID] is the UID of the owner reference marked as controller. *)
Record Runner : Type := mkRunner {
  Name : string;
  GenerateName : string;
  Namespace : string;
  ControllerUID : option string;
  CreationTimestamp : GoTime.Time;
  Enterprise : string;
  Organization : string;
  Repository : string;
  Phase : string
}.

(** [v1alpha1.RunnerReplicaSet]. *)
Record RunnerReplicaSet : Type := mkRunnerReplicaSet {
  rs_Name : string;
  rs_Namespace : string;
  rs_UID : string;
  rs_DeletionTimestamp : option GoTime.Time;
  rs_Replicas : option Z;                    (* Spec.Replicas, a *int *)
  rs_Template : Runner;                      (* Spec.Template: metadata and spec *)
  rs_AvailableReplicas : Z;                  (* Status.AvailableReplicas *)
  rs_ReadyReplicas : Z                       (* Status.ReadyReplicas *)
}.

(** [metav1.Time.IsZero]: a nil pointer or the zero instant. *)
Definition IsZero (t : option GoTime.Time) : bool :=
  match t with
  | None => true
  | Some t => t =? GoTime.zeroTime
  end.

(** [metav1.IsControlledBy]. *)
Definition IsControlledBy (r : Runner) (rs : RunnerReplicaSet) : bool :=
  match ControllerUID r with
  | Some uid => String.eqb uid (rs_UID rs)
  | None => false
  end.

(** [ctrl.Result]. *)
Record Result : Type := mkResult {
  Requeue : bool;
  RequeueAfter : GoTime.Duration
}.

Definition emptyResult : Result := mkResult false 0.

(** How a call of [Reconcile] ends. *)
Inductive Outcome : Type :=
| Returned (res : Result) (err : option error)
| Panicked.                                  (* index out of range *)

(** The writes a pass performs, in program order. *)
Inductive Effect : Type :=
| Deleted (r : Runner)                       (* r.Client.Delete succeeded *)
| AlreadyGone (r : Runner)                   (* r.Client.Delete answered NotFound *)
| RecordedEvent (reason message : string)    (* r.Recorder.Event *)
| Created (r : Runner)                       (* r.Client.Create succeeded *)
| StatusUpdated (available ready : Z).       (* r.Status().Update succeeded *)

(** What the world answers during one pass.  The [nat] argument is the
    iteration of the loop the call is made in. *)
Record Env : Type := mkEnv {
  Get : RunnerReplicaSet + error;
  List : list Runner * option error;
  ListRunners : nat -> string -> string -> string
                -> list Github.Runner * option error;
  Now : nat -> GoTime.Time;
  Delete : nat -> Runner -> option error;
  SetControllerReference : RunnerReplicaSet -> Runner -> option error;
  Create : nat -> Runner -> option error;
  StatusUpdate : Z -> Z -> option error
}.

Definition PodRunning : string := "Running".

Definition registrationTimeout : GoTime.Duration := 15 * GoTime.Minute.

(** A loop body either goes on with the loop variable or returns from
    [Reconcile]. *)
Inductive Step (A : Type) : Type :=
| Continue (a : A)
| Return (res : Result) (err : option error).
Arguments Continue {A} a.
Arguments Return {A} res err.

Section Reconciler.

(** [retryDelayOnGitHubAPIRateLimitError] is a constant the package declares
    in another file; the reconciler is modelled for any value of it. *)
Variable retryDelayOnGitHubAPIRateLimitError : GoTime.Duration.
Variable env : Env.

(** [r.GitHubClient.IsRunnerBusy] for the [i]-th runner of [myRunners]. *)
Definition probe (i : nat) (runner : Runner) : bool * option error :=
  Github.IsRunnerBusy
    (ListRunners env i (Enterprise runner) (Organization runner) (Repository runner))
    (Name runner).

(** The [for _, r := range allRunners.Items] loop: [myRunners], [available]
    and [ready]. *)
Fixpoint ownedRunners (rs : RunnerReplicaSet) (items : list Runner)
    (acc : list Runner * Z * Z) : list Runner * Z * Z :=
  match items with
  | [] => acc
  | r :: rest =>
      let '(myRunners, available, ready) := acc in
      if IsControlledBy r rs then
        ownedRunners rs rest
          (myRunners ++ [r], available + 1,
           if String.eqb (Phase r) PodRunning then ready + 1 else ready)
      else ownedRunners rs rest acc
  end.

(** [desired]. *)
Definition desiredReplicas (rs : RunnerReplicaSet) : Z :=
  match rs_Replicas rs with
  | Some replicas => replicas
  | None => 1
  end.

(** [registrationDidTimeout]. *)
Definition registrationDidTimeout (currentTime : GoTime.Time) (runner : Runner)
  : bool :=
  0 <? GoTime.Sub currentTime
         (GoTime.Add (CreationTimestamp runner) registrationTimeout).

(** Body of [for _, runner := range myRunners] in the scale-down branch. *)
Definition probeRunner (i : nat) (runner : Runner) (notBusy : list Runner)
  : Step (list Runner) :=
  let '(busy, err) := probe i runner in
  match err with
  | Some err =>
      let classified : Step (bool * bool) :=
        if As_RunnerNotFound err then Continue (true, false)
        else if As_RunnerOffline err then Continue (false, true)
        else if As_RateLimitError err then
          Return (mkResult false retryDelayOnGitHubAPIRateLimitError) (Some err)
        else Return emptyResult (Some err) in
      match classified with
      | Return res err => Return res err
      | Continue (notRegistered, offline) =>
          let currentTime := Now env i in
          let notBusy :=
            if notRegistered && registrationDidTimeout currentTime runner
            then notBusy ++ [runner] else notBusy in
          let notBusy := if offline then notBusy ++ [runner] else notBusy in
          Continue notBusy
      end
  | None => if negb busy then Continue (notBusy ++ [runner]) else Continue notBusy
  end.

Fixpoint probeLoop (i : nat) (myRunners notBusy : list Runner)
  : Step (list Runner) :=
  match myRunners with
  | [] => Continue notBusy
  | runner :: rest =>
      match probeRunner i runner notBusy with
      | Continue notBusy => probeLoop (S i) rest notBusy
      | Return res err => Return res err
      end
  end.

(** What a call of [r.Client.Delete] that did not fail did to [victim]. *)
Definition deletion (err : option error) (victim : Runner) : Effect :=
  match err with
  | Some _ => AlreadyGone victim
  | None => Deleted victim
  end.

(** [for i := 0; i < n; i++] of the scale-down branch; [todo] is the number
    of iterations left.  The event names [myRunners[i]], the delete is of
    [notBusy[i]]. *)
Fixpoint deleteLoop (todo i : nat) (rs : RunnerReplicaSet)
    (myRunners notBusy : list Runner) : list Effect * option Outcome :=
  match todo with
  | O => ([], None)
  | S todo =>
      match notBusy !! i with
      | None => ([], Some Panicked)
      | Some victim =>
          let err := Delete env i victim in
          match IgnoreNotFound err with
          | Some _ => ([], Some (Returned emptyResult err))
          | None =>
              match myRunners !! i with
              | None => ([deletion err victim], Some Panicked)
              | Some named =>
                  let '(effects, out) :=
                    deleteLoop todo (S i) rs myRunners notBusy in
                  (deletion err victim
                   :: RecordedEvent "RunnerDeleted"
                        ("Deleted runner '" ++ Name named ++ "'")
                   :: effects, out)
              end
          end
      end
  end.

(** [RunnerReplicaSetReconciler.newRunner]. *)
Definition newRunner (rs : RunnerReplicaSet) : Runner * option error :=
  let objectMeta := rs_Template rs in
  let runner :=
    mkRunner (Name objectMeta) (rs_Name rs ++ "-") (rs_Namespace rs)
             (ControllerUID objectMeta) (CreationTimestamp objectMeta)
             (Enterprise objectMeta) (Organization objectMeta)
             (Repository objectMeta) (Phase objectMeta) in
  match SetControllerReference env rs runner with
  | Some err => (runner, Some err)
  | None =>
      (mkRunner (Name runner) (GenerateName runner) (Namespace runner)
                (Some (rs_UID rs)) (CreationTimestamp runner)
                (Enterprise runner) (Organization runner) (Repository runner)
                (Phase runner), None)
  end.

(** [for i := 0; i < n; i++] of the scale-up branch. *)
Fixpoint createLoop (todo i : nat) (rs : RunnerReplicaSet)
  : list Effect * option Outcome :=
  match todo with
  | O => ([], None)
  | S todo =>
      let '(runner, err) := newRunner rs in
      match err with
      | Some _ => ([], Some (Returned emptyResult err))
      | None =>
          match Create env i runner with
          | Some err => ([], Some (Returned emptyResult (Some err)))
          | None =>
              let '(effects, out) := createLoop todo (S i) rs in
              (Created runner :: effects, out)
          end
      end
  end.

(** [n := available - desired]. *)
Definition excess (available desired : Z) : Z := wrap64 (available - desired).

(** The scale-down branch, [if available > desired]. *)
Definition scaleDown (rs : RunnerReplicaSet) (myRunners : list Runner)
    (available desired : Z) : list Effect * option Outcome :=
  let n := excess available desired in
  match probeLoop 0 myRunners [] with
  | Return res err => ([], Some (Returned res err))
  | Continue notBusy =>
      let n := if Z.of_nat (length notBusy) <? n
               then Z.of_nat (length notBusy) else n in
      deleteLoop (Z.to_nat n) 0 rs myRunners notBusy
  end.

(** The scale-up branch, [else if desired > available]. *)
Definition scaleUp (rs : RunnerReplicaSet) (available desired : Z)
  : list Effect * option Outcome :=
  let n := wrap64 (desired - available) in
  createLoop (Z.to_nat n) 0 rs.

(** The tail of [Reconcile]: write the status when it changed. *)
Definition updateStatus (rs : RunnerReplicaSet) (available ready : Z)
  : list Effect * Outcome :=
  if negb (rs_AvailableReplicas rs =? available)
     || negb (rs_ReadyReplicas rs =? ready) then
    match StatusUpdate env available ready with
    | Some err => ([], Returned emptyResult (Some err))
    | None => ([StatusUpdated available ready], Returned emptyResult None)
    end
  else ([], Returned emptyResult None).

(** [RunnerReplicaSetReconciler.Reconcile]. *)
Definition Reconcile : list Effect * Outcome :=
  match Get env with
  | inr err => ([], Returned emptyResult (IgnoreNotFound (Some err)))
  | inl rs =>
      if negb (IsZero (rs_DeletionTimestamp rs)) then
        ([], Returned emptyResult None)
      else
        let '(allRunners, listErr) := List env in
        match (match listErr with
               | Some err => if IsNotFound err then None else Some err
               | None => None
               end) with
        | Some err => ([], Returned emptyResult (Some err))
        | None =>
            let '(myRunners, available, ready) :=
              ownedRunners rs allRunners ([], 0, 0) in
            let desired := desiredReplicas rs in
            let '(effects, out) :=
              if desired <? available then
                scaleDown rs myRunners available desired
              else if available <? desired then
                scaleUp rs available desired
              else ([], None) in
            match out with
            | Some out => (effects, out)
            | None =>
                let '(effects', out) := updateStatus rs available ready in
                (effects ++ effects', out)
            end
        end
  end.

(** The runners a pass deleted. *)
Definition deletedRunners (effects : list Effect) : list Runner :=
  omap (λ e, match e with
             | Deleted r | AlreadyGone r => Some r
             | _ => None
             end) effects.

(** The runners a pass created. *)
Definition createdRunners (effects : list Effect) : list Runner :=
  omap (λ e, match e with Created r => Some r | _ => None end) effects.

(** *** Vocabulary of the properties *)

(** The runners of the namespace the replica set controls, in list order. *)
Definition myRunnersOf (rs : RunnerReplicaSet) : list Runner :=
  List.filter (λ r, IsControlledBy r rs) (List env).1.

(** The three ways a probed runner counts as not busy: the probe succeeded
    and said so; the probe classified it offline; the probe classified it
    not registered and its registration timed out. *)
Definition confirmedNotBusy (i : nat) (runner : Runner) : bool :=
  match probe i runner with
  | (busy, None) => negb busy
  | _ => false
  end.

Definition classifiedOffline (i : nat) (runner : Runner) : bool :=
  match probe i runner with
  | (_, Some err) => negb (As_RunnerNotFound err) && As_RunnerOffline err
  | _ => false
  end.

Definition classifiedNotRegistered (i : nat) (runner : Runner) : bool :=
  match probe i runner with
  | (_, Some err) => As_RunnerNotFound err
  | _ => false
  end.

Definition candidate (i : nat) (runner : Runner) : bool :=
  confirmedNotBusy i runner
  || classifiedOffline i runner
  || (classifiedNotRegistered i runner
      && registrationDidTimeout (Now env i) runner).

(** The candidate set of a pass, the [i]-th probe being that of the head. *)
Fixpoint candidates (i : nat) (myRunners : list Runner) : list Runner :=
  match myRunners with
  | [] => []
  | runner :: rest =>
      if candidate i runner then runner :: candidates (S i) rest
      else candidates (S i) rest
  end.

(** The probe failed with an error that is neither "not found" nor
    "offline"; it is a rate-limit error, or some other one. *)
Definition classifiedRateLimit (i : nat) (runner : Runner) : bool :=
  match probe i runner with
  | (_, Some err) =>
      negb (As_RunnerNotFound err) && negb (As_RunnerOffline err)
      && As_RateLimitError err
  | _ => false
  end.

Definition classifiedOther (i : nat) (runner : Runner) : bool :=
  match probe i runner with
  | (_, Some err) =>
      negb (As_RunnerNotFound err) && negb (As_RunnerOffline err)
      && negb (As_RateLimitError err)
  | _ => false
  end.

(** The call ended in an error or a panic. *)
Definition failed (out : Outcome) : Prop :=
  match out with
  | Returned _ (Some _) | Panicked => True
  | Returned _ None => False
  end.

(** The pass gets as far as comparing [desired] with [available]. *)
Definition reachesScaling (rs : RunnerReplicaSet) : Prop :=
  Get env = inl rs
  ∧ IsZero (rs_DeletionTimestamp rs) = true
  ∧ match (List env).2 with
    | Some err => IsNotFound err = true
    | None => True
    end.

End Reconciler.

End Controllers.

(* ===================================================================== *)
(** ** Package [scalesetlistener]                                         *)
(* ===================================================================== *)

Module Listener.

(** The types below belong to package [github]; their declarations are not
    in the listener's file, their fields are those the listener reads and
    writes. *)

(** [github.ActionsServiceAdminConnection]: what the admin handshake
    answers. *)
Record ActionsServiceAdminConnection : Type := mkAdminConnection {
  ActionsServiceUrl : string;
  AdminToken : string
}.

(** [github.ActionsClient] (the HTTP client inside it is not modelled). *)
Record ActionsClient : Type := mkActionsClient {
  ActionsServiceURL : string;
  ActionsServiceAdminToken : string;
  UserAgent : string
}.

Record RunnerScaleSet : Type := mkRunnerScaleSet {
  Id : Z;
  ScaleSetName : string
}.

Record RunnerScaleSetSession : Type := mkSession {
  SessionId : string;
  OwnerName : string;
  SessionScaleSet : RunnerScaleSet;          (* session.RunnerScaleSet *)
  MessageQueueUrl : string;
  MessageQueueAccessToken : string
}.

Record RunnerScaleSetMessage : Type := mkMessage {
  MessageId : Z;                             (* int64 *)
  MessageType : string;
  Body : string
}.

(** The four arms of [switch message.MessageType]. *)
Inductive Handler : Type :=
| MaybeAcquireJob
| HandleJobAssignment
| NoopHandleJobCompletion
| UnknownMessageType.

Definition handlerOf (messageType : string) : Handler :=
  if String.eqb messageType "RunnerScaleSetJobAvailable" then MaybeAcquireJob
  else if String.eqb messageType "RunnerScaleSetJobAssigned" then HandleJobAssignment
  else if String.eqb messageType "RunnerScaleSetJobCompleted" then NoopHandleJobCompletion
  else UnknownMessageType.

(** The job source and the process environment.  Every call takes the state
    of the world and gives the next one back. *)
Record Service (World : Type) : Type := mkService {
  (* <-ctx.Done() is ready *)
  Done : World -> bool;
  GetActionsServiceAdminConnection :
    string -> string -> string -> World
    -> option ActionsServiceAdminConnection * option error * World;
  GetMessage :
    ActionsClient -> string -> string -> Z -> World
    -> option RunnerScaleSetMessage * option error * World;
  DeleteMessage :
    ActionsClient -> string -> string -> Z -> World -> option error * World;
  RefreshMessageSession :
    ActionsClient -> Z -> string -> World
    -> option RunnerScaleSetSession * option error * World;
  CreateMessageSession :
    ActionsClient -> Z -> string -> World
    -> option RunnerScaleSetSession * option error * World;
  (* the handlers of package scalesetclient *)
  Handle :
    Handler -> ActionsClient -> RunnerScaleSetSession -> RunnerScaleSetMessage
    -> World -> World
}.
Arguments mkService {World} _ _ _ _ _ _ _.
Arguments Done {World} _ _.
Arguments GetActionsServiceAdminConnection {World} _ _ _ _ _.
Arguments GetMessage {World} _ _ _ _ _ _.
Arguments DeleteMessage {World} _ _ _ _ _ _.
Arguments RefreshMessageSession {World} _ _ _ _ _.
Arguments CreateMessageSession {World} _ _ _ _ _.
Arguments Handle {World} _ _ _ _ _ _.

(** What a function of the package did, in program order. *)
Inductive Event : Type :=
| Polled (messageQueueUrl messageQueueToken : string) (lastMessageId : Z)
| DeletedMessage (messageId : Z)            (* DeleteMessage was called *)
| LoggedError (err : error) (msg : string)
| Handshake (enterprise org repository : string)
| SetAdminToken (token : string)
| RefreshedSession (scaleSetId : Z) (sessionId : string)
| Dispatched (h : Handler) (lastMessageId : Z) (message : RunnerScaleSetMessage)
| CreatedSession (scaleSetId : Z) (name : string)
| Slept (d : GoTime.Duration).

(** A pointer to an admin connection is its position in the store of the
    connections allocated so far. *)
Definition ptr := nat.

(** The variables [runAndNotify] reads and writes: the fields of the builder
    [ml.b], the locals declared before the loop, and the objects they point
    to.  [ml.b.actionsServiceClient] and the local [actionsServiceClient]
    point to the same client for the whole run, so it is held once. *)
Record Loop : Type := mkLoop {
  connections : list ActionsServiceAdminConnection;   (* the store *)
  b_actionsAdminConnection : option ptr;       (* ml.b.actionsAdminConnection *)
  actionsAdminConnection : ptr;                (* the local, assigned once *)
  actionsServiceClient : ActionsClient;
  b_session : RunnerScaleSetSession;           (* ml.b.session *)
  session : option RunnerScaleSetSession;      (* the local; may become nil *)
  runnerEnterprise : string;
  runnerOrg : string;
  runnerRepository : string;
  lastMessageId : Z
}.

(** How an iteration of [for { ... }] ends. *)
Inductive Iteration (World : Type) : Type :=
| Next (st : Loop) (w : World)               (* continue, or end of the body *)
| ReturnNil (st : Loop) (w : World)          (* return nil *)
| Panic.                                     (* nil pointer dereference *)
Arguments Next {World} st w.
Arguments ReturnNil {World} st w.
Arguments Panic {World}.

Section Loop.

Context {World : Type} (svc : Service World).

(** [deleteMessage]: a failure is logged, nothing else. *)
Definition deleteMessage (c : ActionsClient) (messageQueueUrl messageQueueToken : string)
    (messageId : Z) (w : World) : list Event * World :=
  let '(err, w) := DeleteMessage svc c messageQueueUrl messageQueueToken messageId w in
  (DeletedMessage messageId
   :: match err with
      | Some err => [LoggedError err "Error: Delete message failed."]
      | None => []
      end, w).

(** [getMessage]; the deferred [deleteMessage] runs before it returns. *)
Definition getMessage (c : ActionsClient) (messageQueueUrl messageQueueToken : string)
    (lastMessageId : Z) (w : World)
  : option RunnerScaleSetMessage * option error * list Event * World :=
  let '(message, err, w) :=
    GetMessage svc c messageQueueUrl messageQueueToken lastMessageId w in
  let polled := Polled messageQueueUrl messageQueueToken lastMessageId in
  match err with
  | Some err => (None, Some err, [polled], w)
  | None =>
      match message with
      | None => (None, None, [polled], w)
      | Some message =>
          let '(events, w) :=
            deleteMessage c messageQueueUrl messageQueueToken
                          (MessageId message) w in
          (Some message, None, polled :: events, w)
      end
  end.

Definition set_lastMessageId (st : Loop) (id : Z) : Loop :=
  mkLoop (connections st) (b_actionsAdminConnection st)
         (actionsAdminConnection st) (actionsServiceClient st) (b_session st)
         (session st) (runnerEnterprise st) (runnerOrg st) (runnerRepository st)
         id.

Definition set_session (st : Loop) (s : option RunnerScaleSetSession) : Loop :=
  mkLoop (connections st) (b_actionsAdminConnection st)
         (actionsAdminConnection st) (actionsServiceClient st) (b_session st)
         s (runnerEnterprise st) (runnerOrg st) (runnerRepository st)
         (lastMessageId st).

(** [actionsServiceClient.ActionsServiceAdminToken = token]. *)
Definition set_adminToken (st : Loop) (token : string) : Loop :=
  mkLoop (connections st) (b_actionsAdminConnection st)
         (actionsAdminConnection st)
         (mkActionsClient (ActionsServiceURL (actionsServiceClient st)) token
                          (UserAgent (actionsServiceClient st)))
         (b_session st) (session st) (runnerEnterprise st) (runnerOrg st)
         (runnerRepository st) (lastMessageId st).

(** [ml.b.actionsAdminConnection = conn], where [conn] is nil or points to
    the connection the handshake has just decoded: a new object, stored at
    the end of [connections]. *)
Definition set_b_actionsAdminConnection (st : Loop)
    (conn : option ActionsServiceAdminConnection) : Loop :=
  match conn with
  | Some conn =>
      mkLoop (connections st ++ [conn]) (Some (length (connections st)))
             (actionsAdminConnection st) (actionsServiceClient st) (b_session st)
             (session st) (runnerEnterprise st) (runnerOrg st)
             (runnerRepository st) (lastMessageId st)
  | None =>
      mkLoop (connections st) None
             (actionsAdminConnection st) (actionsServiceClient st) (b_session st)
             (session st) (runnerEnterprise st) (runnerOrg st)
             (runnerRepository st) (lastMessageId st)
  end.

(** The part of the body after [if err != nil { ... }]: the cursor is
    assigned, then the message is handed to its handler. *)
Definition dispatch (st : Loop) (message : option RunnerScaleSetMessage) (w : World)
  : list Event * Iteration World :=
  match message with
  | None => ([], Next st w)
  | Some message =>
      let st := set_lastMessageId st (MessageId message) in
      let h := handlerOf (MessageType message) in
      let w := Handle svc h (actionsServiceClient st) (b_session st) message w in
      ([Dispatched h (lastMessageId st) message], Next st w)
  end.

(** The token-expired arm of [if err != nil { ... }]; [current] is the
    session the local [session] points to. *)
Definition refresh (st : Loop) (current : RunnerScaleSetSession)
    (message : option RunnerScaleSetMessage) (w : World)
  : list Event * Iteration World :=
  let '(conn, err, w) :=
    GetActionsServiceAdminConnection svc
      (runnerEnterprise st) (runnerOrg st) (runnerRepository st) w in
  let st := set_b_actionsAdminConnection st conn in
  let handshake :=
    Handshake (runnerEnterprise st) (runnerOrg st) (runnerRepository st) in
  match err with
  | Some err =>
      ([handshake;
        LoggedError err
          "Error: Get Actions service admin connection failed during message session refresh."],
       Next st w)
  | None =>
      match connections st !! actionsAdminConnection st with
      | None => ([handshake], Panic)
      | Some local =>
          let st := set_adminToken st (AdminToken local) in
          let '(refreshed, err, w) :=
            RefreshMessageSession svc (actionsServiceClient st)
              (Id (SessionScaleSet current)) (SessionId current) w in
          let st := set_session st refreshed in
          let events :=
            [handshake; SetAdminToken (AdminToken local);
             RefreshedSession (Id (SessionScaleSet current)) (SessionId current)] in
          match err with
          | Some err =>
              (events ++ [LoggedError err "Error: Refresh message session failed."],
               Next st w)
          | None =>
              let '(events', it) := dispatch st message w in
              (events ++ events', it)
          end
      end
  end.

(** One iteration of the loop of [runAndNotify]. *)
Definition iteration (st : Loop) (w : World) : list Event * Iteration World :=
  if Done svc w then ([], ReturnNil st w)
  else
    match session st with
    | None => ([], Panic)
    | Some current =>
        let '(message, err, polled, w) :=
          getMessage (actionsServiceClient st) (MessageQueueUrl current)
                     (MessageQueueAccessToken current) (lastMessageId st) w in
        match err with
        | Some err =>
            if negb (As_MessageQueueTokenExpiredError err) then
              (polled ++ [LoggedError err "Error: Get message failed."], Next st w)
            else
              let '(events, it) := refresh st current message w in
              (polled ++ events, it)
        | None =>
            let '(events, it) := dispatch st message w in
            (polled ++ events, it)
        end
    end.

(** [fuel] iterations of the loop, or fewer when it returns or panics. *)
Fixpoint run (fuel : nat) (st : Loop) (w : World) : list Event * Iteration World :=
  match fuel with
  | O => ([], Next st w)
  | S fuel =>
      match iteration st w with
      | (events, Next st w) =>
          let '(events', it) := run fuel st w in (events ++ events', it)
      | stopped => stopped
      end
  end.

(** [newActionsClient]. *)
Definition newActionsClient (conn : ActionsServiceAdminConnection) : ActionsClient :=
  mkActionsClient (ActionsServiceUrl conn) (AdminToken conn)
                  "actions-runner-controller-message-queue-listener".

(** The state [runAndNotify] starts in, after the builder produced the
    connection [conn], the client [newActionsClient conn] and the session
    [s]: both [ml.b.actionsAdminConnection] and the local point to [conn],
    and [lastMessageId] is 0. *)
Definition start (enterprise org repository : string)
    (conn : ActionsServiceAdminConnection) (s : RunnerScaleSetSession) : Loop :=
  mkLoop [conn] (Some 0%nat) 0%nat (newActionsClient conn) s (Some s)
         enterprise org repository 0.

(** The [for i := 0; i < retries; i++] loop of [createRunnerScaleSetSession]
    and the [return] after it.  [None] only when [fuel] runs out. *)
Fixpoint sessionLoop (fuel : nat) (i retries : Z) (c : ActionsClient)
    (scaleSetId : Z) (name : string) (w : World)
  : option (option RunnerScaleSetSession * option error * list Event * World) :=
  match fuel with
  | O => None
  | S fuel =>
      if i <? retries then
        let '(runnerScaleSetSession, err, w) :=
          CreateMessageSession svc c scaleSetId name w in
        let attempt := CreatedSession scaleSetId name in
        match err with
        | None => Some (runnerScaleSetSession, None, [attempt], w)
        | Some err =>
            let retries := retries - 1 in
            match sessionLoop fuel (i + 1) retries c scaleSetId name w with
            | Some (s, e, events, w) =>
                Some (s, e,
                      attempt
                      :: LoggedError err
                           "Unable to create message session. Will try again in 30 seconds"
                      :: Slept (30 * GoTime.Second) :: events, w)
            | None => None
            end
        end
      else
        Some (None,
              Some (ErrorfInt "Unable to create session in %d attempts" retries),
              [], w)
  end.

(** [createRunnerScaleSetSession]: [retries := 3], [i := 0]. *)
Definition createRunnerScaleSetSession (c : ActionsClient) (scaleSetId : Z)
    (name : string) (w : World)
  : option (option RunnerScaleSetSession * option error * list Event * World) :=
  sessionLoop 4 0 3 c scaleSetId name w.

End Loop.

(** The ids of the messages handed to a handler, in order. *)
Definition dispatchedIds (events : list Event) : list Z :=
  omap (λ e, match e with
             | Dispatched _ _ message => Some (MessageId message)
             | _ => None
             end) events.

(** The number of calls of [CreateMessageSession]. *)
Definition attempts (events : list Event) : nat :=
  length (omap (λ e, match e with
                     | CreatedSession scaleSetId _ => Some scaleSetId
                     | _ => None
                     end) events).

End Listener.

(* ===================================================================== *)
(** ** Concrete scenarios                                                 *)
(* ===================================================================== *)

Module Scenario.

(** Two runners as GitHub lists them: ["alpha"] is online and idle, ["beta"]
    is offline and still flagged busy. *)
Definition gh_alpha : Github.Runner :=
  Github.mkRunner (Some "alpha"%string) (Some "online"%string) (Some false).
Definition gh_beta : Github.Runner :=
  Github.mkRunner (Some "beta"%string) (Some "offline"%string) (Some true).
Definition gh_listing : list Github.Runner := [gh_alpha; gh_beta].

(** A token cache for the organization ["acme"]: the clock reads 1000 s, the
    cached token expired at 900 s, the API hands out a token good until
    4600 s. *)
Definition clock : GoTime.Time := 1000 * GoTime.Second.
Definition tok_stale : Github.RegistrationToken :=
  Github.mkRegistrationToken (Some "stale"%string) (Some (900 * GoTime.Second)).
Definition tok_fresh : Github.RegistrationToken :=
  Github.mkRegistrationToken (Some "fresh"%string) (Some (4600 * GoTime.Second)).
Definition api : Github.Api :=
  Github.mkApi (λ _ _, Github.ApiResponse tok_fresh 201)
               (λ _, Github.ApiResponse tok_fresh 201)
               (λ _, Github.ApiResponse tok_fresh 201).
Definition acme_key : string := Github.getRegistrationKey "acme" "" "".
Definition cache_stale : gmap string Github.RegistrationToken :=
  {[ acme_key := tok_stale ]}.
Definition cache_fresh : gmap string Github.RegistrationToken :=
  {[ acme_key := tok_fresh ]}.

(** A replica set ["pool"] and the runners it controls. *)
Definition template : Controllers.Runner :=
  Controllers.mkRunner "" "" "" None 0 "" "acme" "" "".
Definition pool (replicas : option Z) : Controllers.RunnerReplicaSet :=
  Controllers.mkRunnerReplicaSet "pool" "ci" "uid-1" None replicas template 0 0.
Definition pod (name : string) (created : GoTime.Time) : Controllers.Runner :=
  Controllers.mkRunner name "pool-" "ci" (Some "uid-1"%string) created
                       "" "acme" "" "Running".
Definition listed (name status : string) (busy : bool) : Github.Runner :=
  Github.mkRunner (Some name) (Some status) (Some busy).

Definition retryDelay : GoTime.Duration := 30 * GoTime.Second.

(** Five runners: two busy, one offline, two idle.  Every call succeeds. *)
Definition fleet : list Controllers.Runner :=
  [pod "busy-1" 0; pod "idle-1" 0; pod "offline-1" 0; pod "busy-2" 0; pod "idle-2" 0].
Definition github_fleet : list Github.Runner :=
  [listed "busy-1" "online" true; listed "idle-1" "online" false;
   listed "offline-1" "offline" false; listed "busy-2" "online" true;
   listed "idle-2" "online" false].
Definition env_fleet (replicas : option Z) : Controllers.Env :=
  Controllers.mkEnv (inl (pool replicas)) (fleet, None)
    (λ _ _ _ _, (github_fleet, None)) (λ _, clock)
    (λ _ _, None) (λ _ _, None) (λ _ _, None) (λ _ _, None).

(** The same five runners, one wanted; the second call of [Delete] fails. *)
Definition env_delete_fails : Controllers.Env :=
  Controllers.mkEnv (inl (pool (Some 1))) (fleet, None)
    (λ _ _ _ _, (github_fleet, None)) (λ _, clock)
    (λ i _, if Nat.eqb i 1 then Some (ErrorString "conflict") else None)
    (λ _ _, None) (λ _ _, None) (λ _ _, None).

(** The same five runners; the third probe hits the API rate limit. *)
Definition rateLimited : error := WrapError "failed to list runners" RateLimitError.
Definition env_rate_limited : Controllers.Env :=
  Controllers.mkEnv (inl (pool (Some 3))) (fleet, None)
    (λ i _ _ _, if Nat.eqb i 2 then ([], Some rateLimited) else (github_fleet, None))
    (λ _, clock) (λ _ _, None) (λ _ _, None) (λ _ _, None) (λ _ _, None).

(** One runner, ["beta"], that GitHub lists as offline and busy; the replica
    set asks for no runner. *)
Definition env_busy_offline : Controllers.Env :=
  Controllers.mkEnv (inl (pool (Some 0))) ([pod "beta" 0], None)
    (λ _ _ _ _, (gh_listing, None)) (λ _, clock)
    (λ _ _, None) (λ _ _, None) (λ _ _, None) (λ _ _, None).

(** One runner, ["ghost"], created at 0 and unknown to GitHub; the clock
    reads [now]; the replica set asks for no runner. *)
Definition env_ghost (now : GoTime.Time) : Controllers.Env :=
  Controllers.mkEnv (inl (pool (Some 0))) ([pod "ghost" 0], None)
    (λ _ _ _ _, (github_fleet, None)) (λ _, now)
    (λ _ _, None) (λ _ _, None) (λ _ _, None) (λ _ _, None).

(** No runner at all, and no replica count. *)
Definition env_empty : Controllers.Env :=
  Controllers.mkEnv (inl (pool None)) ([], None)
    (λ _ _ _ _, ([], None)) (λ _, clock)
    (λ _ _, None) (λ _ _, None) (λ _ _, None) (λ _ _, None).

(** A listener for scale set 7.  The builder obtained the admin token
    ["admin-token-1"]; a handshake made later answers ["admin-token-2"]. *)
Definition conn1 : Listener.ActionsServiceAdminConnection :=
  Listener.mkAdminConnection "https://pipelines.example" "admin-token-1".
Definition conn2 : Listener.ActionsServiceAdminConnection :=
  Listener.mkAdminConnection "https://pipelines.example" "admin-token-2".
Definition session1 : Listener.RunnerScaleSetSession :=
  Listener.mkSession "session-a" "host-1" (Listener.mkRunnerScaleSet 7 "pool")
                     "https://queue.example" "queue-token-1".
Definition session2 : Listener.RunnerScaleSetSession :=
  Listener.mkSession "session-a" "host-1" (Listener.mkRunnerScaleSet 7 "pool")
                     "https://queue.example" "queue-token-2".
Definition loop1 : Listener.Loop := Listener.start "" "acme" "" conn1 session1.

(** The world is the number of calls of [GetMessage] and
    [CreateMessageSession] made so far.  The poll numbered 1 finds the queue
    token expired, the poll numbered 3 finds the queue empty and the poll
    numbered 4 fails otherwise; every other poll delivers the message
    following the cursor.  The context is cancelled after six polls.
    Creating a session fails twice and succeeds from then on. *)
Definition job (id : Z) : Listener.RunnerScaleSetMessage :=
  Listener.mkMessage id "RunnerScaleSetJobAvailable" "".
Definition svc : Listener.Service nat :=
  Listener.mkService
    (λ w, Nat.leb 6 w)
    (λ _ _ _ w, (Some conn2, None, w))
    (λ _ _ _ cursor w,
       if Nat.eqb w 1 then (None, Some MessageQueueTokenExpiredError, S w)
       else if Nat.eqb w 3 then (None, None, S w)
       else if Nat.eqb w 4 then (None, Some (ErrorString "connection reset"), S w)
       else (Some (job (cursor + 1)), None, S w))
    (λ _ _ _ _ w, (None, w))
    (λ _ _ _ w, (Some session2, None, w))
    (λ _ _ _ w,
       if Nat.ltb w 2 then (None, Some (ErrorString "service unavailable"), S w)
       else (Some session1, None, S w))
    (λ _ _ _ _ w, w).

End Scenario.

(* ===================================================================== *)
(** ** [github/github.go]: the paged listings                             *)
(* ===================================================================== *)

Module GithubLists.

(** The number of times a character occurs in a string. *)
Fixpoint occurrences (c : ascii) (s : string) : nat :=
  match s with
  | EmptyString => 0
  | String c' rest =>
      if Ascii.eqb c' c then S (occurrences c rest) else occurrences c rest
  end.

(** What the API answers to the request for one page: an error, or the
    items of the page and [res.NextPage], 0 after the last page. *)
Inductive PageAnswer (A : Type) : Type :=
| PageError (err : error)
| PageOk (items : list A) (NextPage : Z).
Arguments PageError {A} err.
Arguments PageOk {A} items NextPage.

(** The loop every listing of the file is written as:
    [for { list, res, err := fetch(&opts); if err != nil { return onError };
           items = append(items, list...);
           if res.NextPage == 0 { break }; opts.Page = res.NextPage }].
    [fetch k page] answers the [k]-th request of the call, made for
    [opts.Page = page]; [onError] builds what the listing returns when a
    request fails.  [None] only when [fuel] runs out: the loop itself has no
    bound. *)
Fixpoint paginate {A : Type} (fuel : nat) (fetch : nat -> Z -> PageAnswer A)
    (onError : list A -> error -> list A * option error)
    (k : nat) (page : Z) (items : list A) : option (list A * option error) :=
  match fuel with
  | O => None
  | S fuel =>
      match fetch k page with
      | PageError err => Some (onError items err)
      | PageOk list NextPage =>
          let items := items ++ list in
          if NextPage =? 0 then Some (items, None)
          else paginate fuel fetch onError (S k) NextPage items
      end
  end.

(** The three endpoints [c.listRunners] switches between. *)
Record RunnersApi : Type := mkRunnersApi {
  Actions_ListRunners : string -> string -> nat -> Z -> PageAnswer Github.Runner;
  Actions_ListOrganizationRunners : string -> nat -> Z -> PageAnswer Github.Runner;
  Enterprise_ListRunners : string -> nat -> Z -> PageAnswer Github.Runner
}.

(** [Client.listRunners]. *)
Definition listRunners (api : RunnersApi) (enterprise org repo : string)
  : nat -> Z -> PageAnswer Github.Runner :=
  if Github.nonempty repo then Actions_ListRunners api org repo
  else if Github.nonempty org then Actions_ListOrganizationRunners api org
  else Enterprise_ListRunners api enterprise.

(** [Client.ListRunners]: on a failed request it returns the runners listed
    so far and the error wrapped with [%w]. *)
Definition ListRunners (fuel : nat) (api : RunnersApi) (enterprise org repo : string)
  : option (list Github.Runner * option error) :=
  let '(enterprise, owner, repo, err) :=
    Github.getEnterpriseOrganizationAndRepo enterprise org repo in
  match err with
  | Some err => Some ([], Some err)
  | None =>
      paginate fuel (listRunners api enterprise owner repo)
        (λ runners err, (runners, Some (WrapError "failed to list runners: " err)))
        0 0 []
  end.

(** [Client.listRepositoryWorkflowRuns]: the error is formatted with [%v],
    which keeps its text and not the error itself.  Workflow runs are named
    by their id. *)
Definition listRepositoryWorkflowRuns (fuel : nat)
    (Actions_ListRepositoryWorkflowRuns : string -> string -> string -> nat -> Z -> PageAnswer Z)
    (user repoName status : string) : option (list Z * option error) :=
  paginate fuel (Actions_ListRepositoryWorkflowRuns user repoName status)
    (λ workflowRuns _, (workflowRuns, Some (ErrorString "failed to list workflow runs")))
    0 0 [].

(** [Client.ListRepositoryWorkflowRuns]: the queued runs, then the runs in
    progress. *)
Definition ListRepositoryWorkflowRuns (fuel : nat)
    (Actions_ListRepositoryWorkflowRuns : string -> string -> string -> nat -> Z -> PageAnswer Z)
    (user repoName : string) : option (list Z * option error) :=
  match listRepositoryWorkflowRuns fuel Actions_ListRepositoryWorkflowRuns
          user repoName "queued" with
  | None => None
  | Some (_, Some err) => Some ([], Some (WrapError "listing queued workflow runs: " err))
  | Some (queued, None) =>
      match listRepositoryWorkflowRuns fuel Actions_ListRepositoryWorkflowRuns
              user repoName "in_progress" with
      | None => None
      | Some (_, Some err) =>
          Some ([], Some (WrapError "listing in_progress workflow runs: " err))
      | Some (inProgress, None) => Some (queued ++ inProgress, None)
      end
  end.

(** The requests of a call are answered by the pages [pages], in this order,
    the last one alone announcing no next page. *)
Fixpoint served {A : Type} (fetch : nat -> Z -> PageAnswer A) (k : nat) (page : Z)
    (pages : list (list A)) : Prop :=
  match pages with
  | [] => False
  | items :: rest =>
      match rest with
      | [] => fetch k page = PageOk items 0
      | _ :: _ =>
          ∃ NextPage, NextPage ≠ 0
                      ∧ fetch k page = PageOk items NextPage
                      ∧ served fetch (S k) NextPage rest
      end
  end.

End GithubLists.

(* ===================================================================== *)
(** ** Package [scalesetlistener]: validation, set-up and tear-down       *)
(* ===================================================================== *)

Module ListenerSetup.

(** The fields of [github.Config] the listener reads. *)
Record Config : Type := mkConfig {
  RunnerEnterprise : string;
  RunnerOrg : string;
  RunnerRepository : string;
  RunnerScaleSetName : string;
  Token : string;
  AppID : Z;
  AppInstallationID : Z;
  AppPrivateKey : string;
  BasicauthUsername : string;
  BasicauthPassword : string
}.

(** The loop of [anyEmpty]. *)
Fixpoint anyEmpty_loop (values : list string) : bool :=
  match values with
  | [] => false
  | v :: values => if (String.length v =? 0)%nat then true else anyEmpty_loop values
  end.

(** [anyEmpty]: [values := append(others, first)]. *)
Definition anyEmpty (first : string) (others : list string) : bool :=
  anyEmpty_loop (others ++ [first]).

(** The errors of the package are built by [fmt.Errorf] without [%w]; an
    [ErrorString] holds the constant part of the message, the formatted
    arguments are left out. *)
Definition notProvided : error := ErrorString "GitHub config is not provided".
Definition cannotInitialize : error :=
  ErrorString "GitHub client cannot initialize. Must provide any of token or private key or basic auth creds.".

(** [Listener.Validate]. *)
Definition Validate (c : Config) : option error :=
  if anyEmpty (RunnerRepository c) [RunnerOrg c; Token c; RunnerScaleSetName c] then
    Some notProvided
  else
    let hasToken := (0 <? String.length (Token c))%nat in
    let hasPrivateKeyConfig :=
      (0 <? AppID c) && (0 <? AppInstallationID c)
      && negb (String.eqb (AppPrivateKey c) "") in
    let hasBasicAuth :=
      (0 <? String.length (BasicauthUsername c))%nat
      && (0 <? String.length (BasicauthPassword c))%nat in
    if negb hasToken && negb hasPrivateKeyConfig && negb hasBasicAuth then
      Some cannotInitialize
    else None.

(** The fields of [github.RunnerScaleSet] that [newRunnerScaleSet] sets. *)
Record Settings : Type := mkSettings {
  Name : string;
  RunnerGroupId : Z;
  Labels : list (string * string);             (* Name, Type *)
  Ephemeral : bool;                            (* RunnerSetting.Ephemeral *)
  DisableUpdate : bool                         (* RunnerSetting.DisableUpdate *)
}.

(** [newRunnerScaleSet]. *)
Definition newRunnerScaleSet (scaleSetName : string) : Settings :=
  mkSettings scaleSetName 1 [(scaleSetName, "User"%string)] true true.

(** The calls of the set-up that the message loop does not make. *)
Record Service (World : Type) : Type := mkService {
  base : Listener.Service World;
  NewClient : World -> option error * World;            (* l.ghConfig.NewClient *)
  Hostname : World -> string * option error * World;    (* os.Hostname *)
  GetRunnerScaleSet :
    Listener.ActionsClient -> string -> World
    -> option Listener.RunnerScaleSet * option error * World;
  ReplaceRunnerScaleSet :
    Listener.ActionsClient -> Z -> Settings -> World
    -> option Listener.RunnerScaleSet * option error * World;
  CreateRunnerScaleSet :
    Listener.ActionsClient -> Settings -> World
    -> option Listener.RunnerScaleSet * option error * World
}.
Arguments mkService {World} _ _ _ _ _ _.
Arguments base {World} _.
Arguments NewClient {World} _ _.
Arguments Hostname {World} _ _.
Arguments GetRunnerScaleSet {World} _ _ _ _.
Arguments ReplaceRunnerScaleSet {World} _ _ _ _ _.
Arguments CreateRunnerScaleSet {World} _ _ _ _.

(** What [Run] did, in program order. *)
Inductive Call : Type :=
| InLoop (e : Listener.Event)                 (* an event of the functions above *)
| CalledNewClient
| GotRunnerScaleSet (name : string)
| ReplacedRunnerScaleSet (runnerScaleSetId : Z) (settings : Settings)
| CreatedRunnerScaleSet (settings : Settings)
| GotHostname
| DeletedMessageSession (scaleSetId : Z) (sessionId : string).

(** The fields the builder builds; all nil at first. *)
Record builder : Type := mkBuilder {
  actionsAdminConnection : option Listener.ActionsServiceAdminConnection;
  actionsServiceClient : option Listener.ActionsClient;
  runnerScaleSet : option Listener.RunnerScaleSet;
  session : option Listener.RunnerScaleSetSession;
  err : option error
}.

(** How [Run] ends; [StillLooping] when the message loop has not returned
    within the iterations allowed. *)
Inductive Ended : Type :=
| Returned (err : option error)
| Panicked
| StillLooping.

Section Setup.

Context {World : Type} (svc : Service World).

(** The function [createRunnerScaleSet]. *)
Definition createRunnerScaleSet (c : Listener.ActionsClient) (name : string) (w : World)
  : option Listener.RunnerScaleSet * option error * list Call * World :=
  let '(runnerScaleSet, err, w) := GetRunnerScaleSet svc c name w in
  match err with
  | Some _ =>
      (None, Some (ErrorString "Can not found runner scale set"),
       [GotRunnerScaleSet name], w)
  | None =>
      match runnerScaleSet with
      | Some found =>
          let replaceRunnerScaleSet := newRunnerScaleSet name in
          let '(runnerScaleSet, err, w) :=
            ReplaceRunnerScaleSet svc c (Listener.Id found) replaceRunnerScaleSet w in
          let calls :=
            [GotRunnerScaleSet name;
             ReplacedRunnerScaleSet (Listener.Id found) replaceRunnerScaleSet] in
          match err with
          | Some _ => (None, Some (ErrorString "Create runner scale set failed"), calls, w)
          | None => (runnerScaleSet, None, calls, w)
          end
      | None =>
          let '(runnerScaleSet, err, w) :=
            CreateRunnerScaleSet svc c (newRunnerScaleSet name) w in
          let calls :=
            [GotRunnerScaleSet name; CreatedRunnerScaleSet (newRunnerScaleSet name)] in
          match err with
          | Some _ => (None, Some (ErrorString "Create runner scale set failed"), calls, w)
          | None => (runnerScaleSet, None, calls, w)
          end
      end
  end.

(** A step of the builder gives the builder back, or panics on a nil
    pointer. *)
Inductive Built : Type :=
| Built_ok (b : builder) (calls : list Call) (w : World)
| Built_panic (calls : list Call).

(** [builder.createAdminConn]. *)
Definition createAdminConn (c : Config) (b : builder) (w : World) : Built :=
  let '(conn, failure, w) :=
    Listener.GetActionsServiceAdminConnection (base svc)
      (RunnerEnterprise c) (RunnerOrg c) (RunnerRepository c) w in
  Built_ok
    (mkBuilder conn (actionsServiceClient b) (runnerScaleSet b) (session b)
       match failure with
       | Some _ =>
           Some (ErrorString "Could not create an Actions Service admin connection")
       | None => err b
       end)
    [InLoop (Listener.Handshake (RunnerEnterprise c) (RunnerOrg c) (RunnerRepository c))]
    w.

(** [builder.createServiceClient]; [newActionsClient] reads through the
    connection pointer. *)
Definition createServiceClient (b : builder) (w : World) : Built :=
  match err b with
  | Some _ => Built_ok b [] w
  | None =>
      match actionsAdminConnection b with
      | None => Built_panic []
      | Some conn =>
          Built_ok (mkBuilder (actionsAdminConnection b)
                              (Some (Listener.newActionsClient conn))
                              (runnerScaleSet b) (session b) (err b)) [] w
      end
  end.

(** The method [builder.createRunnerScaleSet]. *)
Definition builder_createRunnerScaleSet (c : Config) (b : builder) (w : World) : Built :=
  match err b with
  | Some _ => Built_ok b [] w
  | None =>
      match actionsServiceClient b with
      | None => Built_panic []
      | Some client =>
          let '(scaleSet, failure, calls, w) :=
            createRunnerScaleSet client (RunnerScaleSetName c) w in
          Built_ok (mkBuilder (actionsAdminConnection b) (actionsServiceClient b)
                              scaleSet (session b) failure) calls w
      end
  end.

(** [builder.createSession].  The error of [os.Hostname] is assigned to
    [b.err], which the next statement assigns again. *)
Definition createSession (b : builder) (w : World) : Built :=
  match err b with
  | Some _ => Built_ok b [] w
  | None =>
      let '(hostName, _, w) := Hostname svc w in
      match actionsServiceClient b, runnerScaleSet b with
      | Some client, Some scaleSet =>
          match Listener.createRunnerScaleSetSession (base svc) client
                  (Listener.Id scaleSet) hostName w with
          | Some (created, failure, events, w) =>
              Built_ok (mkBuilder (actionsAdminConnection b) (actionsServiceClient b)
                                  (runnerScaleSet b) created failure)
                       (GotHostname :: (InLoop <$> events)) w
          | None => Built_panic [GotHostname]     (* never: the function always returns *)
          end
      | _, _ => Built_panic [GotHostname]
      end
  end.

(** [createAdminConn().createServiceClient().createRunnerScaleSet().createSession()]. *)
Definition build (c : Config) (w : World) : Built :=
  match createAdminConn c (mkBuilder None None None None None) w with
  | Built_panic calls => Built_panic calls
  | Built_ok b calls1 w =>
      match createServiceClient b w with
      | Built_panic calls => Built_panic (calls1 ++ calls)
      | Built_ok b calls2 w =>
          match builder_createRunnerScaleSet c b w with
          | Built_panic calls => Built_panic (calls1 ++ calls2 ++ calls)
          | Built_ok b calls3 w =>
              match createSession b w with
              | Built_panic calls => Built_panic (calls1 ++ calls2 ++ calls3 ++ calls)
              | Built_ok b calls4 w => Built_ok b (calls1 ++ calls2 ++ calls3 ++ calls4) w
              end
          end
      end
  end.

(** [Listener.Run], the message loop being given [fuel] iterations.  The
    deferred [builder.destroy()] runs when the loop returns and when it
    panics; what [DeleteMessageSession] answers is discarded. *)
Definition Run (fuel : nat) (c : Config) (w : World) : list Call * Ended :=
  let '(failure, w) := NewClient svc w in
  match failure with
  | Some _ => ([CalledNewClient], Returned (Some (ErrorString "Client creation failed")))
  | None =>
      match build c w with
      | Built_panic calls => (CalledNewClient :: calls, Panicked)
      | Built_ok b calls w =>
          match err b with
          | Some failure => (CalledNewClient :: calls, Returned (Some failure))
          | None =>
              match actionsAdminConnection b, session b with
              | Some conn, Some s =>
                  let destroy :=
                    DeletedMessageSession (Listener.Id (Listener.SessionScaleSet s))
                                          (Listener.SessionId s) in
                  match Listener.run (base svc) fuel
                          (Listener.start (RunnerEnterprise c) (RunnerOrg c)
                                          (RunnerRepository c) conn s) w with
                  | (events, Listener.ReturnNil _ _) =>
                      (CalledNewClient :: calls ++ (InLoop <$> events) ++ [destroy],
                       Returned None)
                  | (events, Listener.Panic) =>
                      (CalledNewClient :: calls ++ (InLoop <$> events) ++ [destroy],
                       Panicked)
                  | (events, Listener.Next _ _) =>
                      (CalledNewClient :: calls ++ (InLoop <$> events), StillLooping)
                  end
              | _, _ => (CalledNewClient :: calls, Panicked)
              end
          end
      end
  end.

End Setup.

(** The calls of [Run] that reach the job source after the handshake. *)
Definition afterHandshake (call : Call) : bool :=
  match call with
  | GotRunnerScaleSet _ | ReplacedRunnerScaleSet _ _ | CreatedRunnerScaleSet _
  | GotHostname | DeletedMessageSession _ _
  | InLoop (Listener.CreatedSession _ _) | InLoop (Listener.Polled _ _ _) => true
  | _ => false
  end.


End ListenerSetup.

(* ===================================================================== *)
(** ** Package [main]: the repeatable flags                                *)
(* ===================================================================== *)

Module Main.

(** [stringSlice.Set]. *)
Definition stringSlice_Set (i : list string) (value : string)
  : list string * option error :=
  (i ++ [value], None).

(** The loop of [commaSeparatedStringSlice.Set]. *)
Fixpoint appendNonEmpty (values : list string) (s : list string) : list string :=
  match values with
  | [] => s
  | v :: values =>
      if String.eqb v "" then appendNonEmpty values s
      else appendNonEmpty values (s ++ [v])
  end.

(** [commaSeparatedStringSlice.Set]. *)
Definition commaSeparatedStringSlice_Set (s : list string) (value : string)
  : list string * option error :=
  (appendNonEmpty (Github.Split ","%char value) s, None).

End Main.

(* ===================================================================== *)
(** ** Further vocabulary for the reconciler                              *)
(* ===================================================================== *)

Module Pass.

(** The runners of the replica set whose phase is [Running]. *)
Definition readyRunnersOf (env : Controllers.Env) (rs : Controllers.RunnerReplicaSet)
  : list Controllers.Runner :=
  List.filter (λ r, String.eqb (Controllers.Phase r) Controllers.PodRunning)
              (Controllers.myRunnersOf env rs).

(** The messages of the events a pass recorded. *)
Definition recordedMessages (effects : list Controllers.Effect) : list string :=
  omap (λ e, match e with
             | Controllers.RecordedEvent _ message => Some message
             | _ => None
             end) effects.

(** The status a pass wrote. *)
Definition statusWritten (effects : list Controllers.Effect) : list (Z * Z) :=
  omap (λ e, match e with
             | Controllers.StatusUpdated available ready => Some (available, ready)
             | _ => None
             end) effects.

(** Every call of the API server made for the runners of a pass succeeds. *)
Definition writesSucceed (env : Controllers.Env) : Prop :=
  (∀ i r, Controllers.Delete env i r = None)
  ∧ (∀ rs r, Controllers.SetControllerReference env rs r = None)
  ∧ (∀ i r, Controllers.Create env i r = None).

End Pass.

(* ===================================================================== *)
(** ** More concrete scenarios                                            *)
(* ===================================================================== *)

Module Trace.

(** The ids [DeleteMessage] was called with, in order.  [deleteMessage]
    logs the message as deleted whether the call succeeded or not: these
    are the deletions asked for, not those the queue carried out. *)
Definition deleteCalls (events : list Listener.Event) : list Z :=
  omap (λ e, match e with
             | Listener.DeletedMessage messageId => Some messageId
             | _ => None
             end) events.

(** The durations slept, in order. *)
Definition sleeps (events : list Listener.Event) : list GoTime.Duration :=
  omap (λ e, match e with
             | Listener.Slept d => Some d
             | _ => None
             end) events.

(** Every poll in [events] asks for the messages after [cursor], the id of
    the message dispatched last before it. *)
Fixpoint cursorsFollow (cursor : Z) (events : list Listener.Event) : Prop :=
  match events with
  | [] => True
  | Listener.Polled _ _ lastMessageId :: events =>
      lastMessageId = cursor ∧ cursorsFollow cursor events
  | Listener.Dispatched _ _ message :: events =>
      cursorsFollow (Listener.MessageId message) events
  | _ :: events => cursorsFollow cursor events
  end.

(** At every moment the messages dispatched so far are among those whose
    deletion was asked for so far, in the same order. *)
Definition deleteCallsFirst (events : list Listener.Event) : Prop :=
  ∀ n : nat,
    Listener.dispatchedIds (take n events) `prefix_of` deleteCalls (take n events).

(** The calls of [Run] made for the scale set: at most one of the two
    writes, after the read. *)
Definition isWrite (call : ListenerSetup.Call) : bool :=
  match call with
  | ListenerSetup.ReplacedRunnerScaleSet _ _ | ListenerSetup.CreatedRunnerScaleSet _ => true
  | _ => false
  end.

End Trace.

Module Cases.

(** The runners of the organization ["acme"] come on two pages, numbered 0
    and 2. *)
Definition twoPages : nat -> Z -> GithubLists.PageAnswer Github.Runner :=
  λ _ page,
    if page =? 0 then GithubLists.PageOk [Scenario.gh_alpha] 2
    else GithubLists.PageOk [Scenario.gh_beta] 0.
Definition runners_api : GithubLists.RunnersApi :=
  GithubLists.mkRunnersApi (λ _ _, twoPages) (λ _, twoPages) (λ _, twoPages).

(** The same listing, the request for the second page being rate limited. *)
Definition limitedPages : nat -> Z -> GithubLists.PageAnswer Github.Runner :=
  λ _ page,
    if page =? 0 then GithubLists.PageOk [Scenario.gh_alpha] 2
    else GithubLists.PageError RateLimitError_v39.
Definition limited_api : GithubLists.RunnersApi :=
  GithubLists.mkRunnersApi (λ _ _, limitedPages) (λ _, limitedPages) (λ _, limitedPages).

(** The five runners of [Scenario.fleet], three wanted; every probe fails as
    the listing above does, on the rate limit of the client's go-github. *)
Definition limitedListing : error :=
  WrapError "failed to list runners: " RateLimitError_v39.
Definition env_limited_listing : Controllers.Env :=
  Controllers.mkEnv (inl (Scenario.pool (Some 3))) (Scenario.fleet, None)
    (λ _ _ _ _, ([Scenario.gh_alpha], Some limitedListing)) (λ _, Scenario.clock)
    (λ _ _, None) (λ _ _, None) (λ _ _, None) (λ _ _, None).

(** Three idle runners and no replica count.  Every call succeeds. *)
Definition idle_fleet : list Controllers.Runner :=
  [Scenario.pod "idle-1" 0; Scenario.pod "idle-2" 0; Scenario.pod "idle-3" 0].
Definition env_idle : Controllers.Env :=
  Controllers.mkEnv (inl (Scenario.pool None)) (idle_fleet, None)
    (λ _ _ _ _, ([Scenario.listed "idle-1" "online" false;
                  Scenario.listed "idle-2" "online" false;
                  Scenario.listed "idle-3" "online" false], None))
    (λ _, Scenario.clock)
    (λ _ _, None) (λ _ _, None) (λ _ _, None) (λ _ _, None).

(** Workflow runs 11 and 12 are queued, 21 is in progress. *)
Definition workflowRuns : string -> string -> string -> nat -> Z -> GithubLists.PageAnswer Z :=
  λ _ _ status _ page,
    if String.eqb status "queued" then
      if page =? 0 then GithubLists.PageOk [11] 3 else GithubLists.PageOk [12] 0
    else GithubLists.PageOk [21] 0.

(** Listing the workflow runs is rate limited. *)
Definition limitedWorkflowRuns
  : string -> string -> string -> nat -> Z -> GithubLists.PageAnswer Z :=
  λ _ _ _ _ _, GithubLists.PageError RateLimitError_v39.

(** A job source on which the set-up succeeds: the scale set ["pool"] exists
    with id 7 and is replaced; the rest is as in [Scenario.svc]. *)
Definition pool7 : Listener.RunnerScaleSet := Listener.mkRunnerScaleSet 7 "pool".
Definition setup : ListenerSetup.Service nat :=
  ListenerSetup.mkService Scenario.svc
    (λ w, (None, w))
    (λ w, ("host-1"%string, None, w))
    (λ _ _ w, (Some pool7, None, w))
    (λ _ _ _ w, (Some pool7, None, w))
    (λ _ _ w, (Some pool7, None, w)).
Definition config : ListenerSetup.Config :=
  ListenerSetup.mkConfig "" "acme" "acme/widgets" "pool" "token" 0 0 "" "" "".

(** The same job source, refusing the admin handshake. *)
Definition svc_unauthorized : Listener.Service nat :=
  Listener.mkService
    (Listener.Done Scenario.svc)
    (λ _ _ _ w, (None, Some (ErrorString "unauthorized"), w))
    (Listener.GetMessage Scenario.svc)
    (Listener.DeleteMessage Scenario.svc)
    (Listener.RefreshMessageSession Scenario.svc)
    (Listener.CreateMessageSession Scenario.svc)
    (Listener.Handle Scenario.svc).
Definition setup_unauthorized : ListenerSetup.Service nat :=
  ListenerSetup.mkService svc_unauthorized
    (ListenerSetup.NewClient setup) (ListenerSetup.Hostname setup)
    (ListenerSetup.GetRunnerScaleSet setup) (ListenerSetup.ReplaceRunnerScaleSet setup)
    (ListenerSetup.CreateRunnerScaleSet setup).

(** The same job source, with a host whose name cannot be read. *)
Definition setup_nameless : ListenerSetup.Service nat :=
  ListenerSetup.mkService Scenario.svc
    (ListenerSetup.NewClient setup)
    (λ w, (""%string, Some (ErrorString "hostname unavailable"), w))
    (ListenerSetup.GetRunnerScaleSet setup) (ListenerSetup.ReplaceRunnerScaleSet setup)
    (ListenerSetup.CreateRunnerScaleSet setup).

(** The same job source, its queue refusing every deletion. *)
Definition svc_undeletable : Listener.Service nat :=
  Listener.mkService
    (Listener.Done Scenario.svc)
    (Listener.GetActionsServiceAdminConnection Scenario.svc)
    (Listener.GetMessage Scenario.svc)
    (λ _ _ _ _ w, (Some (ErrorString "message is locked"), w))
    (Listener.RefreshMessageSession Scenario.svc)
    (Listener.CreateMessageSession Scenario.svc)
    (Listener.Handle Scenario.svc).

(** A job source whose queue token has expired and cannot be renewed: the
    handshake succeeds, [RefreshMessageSession] fails and returns nil. *)
Definition svc_stuck : Listener.Service nat :=
  Listener.mkService
    (λ _, false)
    (λ _ _ _ w, (Some Scenario.conn2, None, w))
    (λ _ _ _ _ w, (None, Some MessageQueueTokenExpiredError, S w))
    (λ _ _ _ _ w, (None, w))
    (λ _ _ _ w, (None, Some (ErrorString "session not found"), w))
    (Listener.CreateMessageSession Scenario.svc)
    (λ _ _ _ _ w, w).

End Cases.

(* ===================================================================== *)
(** * Properties                                                          *)
(* ===================================================================== *)

(** ** Time *)

Lemma Sub_pos (t u : GoTime.Time) : 0 < GoTime.Sub t u <-> u < t.
Proof.
  unfold GoTime.Sub, GoTime.maxDuration, GoTime.minDuration.
  destruct (Z.ltb_spec (2 ^ 63 - 1) (t - u)); [lia|].
  destruct (Z.ltb_spec (t - u) (- 2 ^ 63)); lia.
Qed.

(** ** [IsRunnerBusy] *)

Section IsRunnerBusyFacts.

Import Github.

Lemma IsRunnerBusy_loop_skip (before rest : list Runner) (name : string) :
  (∀ r, r ∈ before → GetName r ≠ name) →
  IsRunnerBusy_loop (before ++ rest) name = IsRunnerBusy_loop rest name.
Proof.
  induction before as [|r before IH]; intros Hne; simpl; [done|].
  destruct (String.eqb_spec (GetName r) name) as [Heq|_].
  - exfalso. apply (Hne r); [left | exact Heq].
  - apply IH. intros r' Hin. apply Hne. by right.
Qed.

(** C9.  On a runner list the source returned: no runner of that name gives
    [(false, RunnerNotFound)]; when the first listed runner of that name has
    status "offline" the answer is its busy flag together with
    [RunnerOffline]; otherwise it is its busy flag and a nil error. *)
Theorem IsRunnerBusy_classifies (runners : list Runner) (name : string) :
  ((∀ r, r ∈ runners → GetName r ≠ name) →
   IsRunnerBusy (runners, None) name = (false, Some (RunnerNotFound name)))
  ∧ (∀ before r after,
       runners = before ++ r :: after →
       (∀ r', r' ∈ before → GetName r' ≠ name) →
       GetName r = name →
       (GetStatus r = "offline"%string →
        IsRunnerBusy (runners, None) name = (GetBusy r, Some (RunnerOffline name)))
       ∧ (GetStatus r ≠ "offline"%string →
          IsRunnerBusy (runners, None) name = (GetBusy r, None))).
Proof.
  split.
  - intros Hne. unfold IsRunnerBusy; simpl.
    rewrite <- (app_nil_r runners).
    by rewrite IsRunnerBusy_loop_skip.
  - intros before r after -> Hne Hname. unfold IsRunnerBusy; simpl.
    rewrite IsRunnerBusy_loop_skip by exact Hne. simpl.
    rewrite Hname, String.eqb_refl.
    split; intros Hst.
    + by rewrite Hst.
    + by destruct (String.eqb_spec (GetStatus r) "offline").
Qed.

Lemma IsRunnerBusy_classifies_witness :
  IsRunnerBusy (Scenario.gh_listing, None) "gamma" = (false, Some (RunnerNotFound "gamma"))
  ∧ IsRunnerBusy (Scenario.gh_listing, None) "beta" = (true, Some (RunnerOffline "beta"))
  ∧ IsRunnerBusy (Scenario.gh_listing, None) "alpha" = (false, None).
Proof.
  split; [|split].
  - apply (proj1 (IsRunnerBusy_classifies Scenario.gh_listing "gamma")).
    intros r Hin.
    repeat (apply elem_of_cons in Hin as [-> | Hin]; [discriminate|]).
    by apply elem_of_nil in Hin.
  - apply (proj2 (IsRunnerBusy_classifies Scenario.gh_listing "beta")
             [Scenario.gh_alpha] Scenario.gh_beta []); try reflexivity.
    intros r Hin.
    apply elem_of_cons in Hin as [-> | Hin]; [discriminate|].
    by apply elem_of_nil in Hin.
  - apply (proj2 (IsRunnerBusy_classifies Scenario.gh_listing "alpha")
             [] Scenario.gh_alpha [Scenario.gh_beta]); try reflexivity.
    + intros r Hin. by apply elem_of_nil in Hin.
    + discriminate.
Defined.

End IsRunnerBusyFacts.

(** ** The registration-token cache *)

Section CacheFacts.

Import Github.

Variable api : Api.
Variable now : GoTime.Time.
Variable regTokens : gmap string RegistrationToken.
Variables enterprise org repo name : string.

Local Abbreviation key := (getRegistrationKey org repo enterprise).
Local Abbreviation got :=
  (GetRegistrationToken api now regTokens enterprise org repo name).

Lemma runnerStartupTimeout_pos : 0 < runnerStartupTimeout.
Proof. reflexivity. Qed.

Lemma GetRegistrationToken_hit (tok : RegistrationToken) :
  regTokens !! key = Some tok →
  now + runnerStartupTimeout < GetExpiresAt tok →
  got = mkGot (Some tok) None regTokens [Lock; MapRead key; Unlock].
Proof.
  intros Hlook Hexp. unfold GetRegistrationToken.
  rewrite Hlook. unfold GoTime.After, GoTime.Add.
  by destruct (Z.ltb_spec (now + runnerStartupTimeout) (GetExpiresAt tok)); [|lia].
Qed.

(** A call that finds no token to serve, whatever it goes on to do. *)
Lemma GetRegistrationToken_not_served :
  (∀ tok, regTokens !! key = Some tok →
          GetExpiresAt tok ≤ now + runnerStartupTimeout) →
  (∀ invalid, (getEnterpriseOrganizationAndRepo enterprise org repo).2 = Some invalid →
     got = mkGot (regTokens !! key) (Some invalid) regTokens
             [Lock; MapRead key; Unlock])
  ∧ (∀ e o r, getEnterpriseOrganizationAndRepo enterprise org repo = (e, o, r, None) →
       match createRegistrationToken api e o r with
       | ApiError _ =>
           got = mkGot None (Some (ErrorString "failed to create registration token"))
                   regTokens [Lock; MapRead key; Unlock]
       | ApiResponse fresh StatusCode =>
           if StatusCode =? 201 then
             got = mkGot (Some fresh) None (<[key := fresh]> regTokens)
                     [Lock; MapRead key; MapWrite key; GoCleanup; Unlock]
           else
             got = mkGot None (Some (ErrorString "unexpected status")) regTokens
                     [Lock; MapRead key; Unlock]
       end).
Proof.
  intros Hold. unfold GetRegistrationToken.
  assert (match regTokens !! key with
          | Some tok =>
              GoTime.After (GetExpiresAt tok) (GoTime.Add now runnerStartupTimeout)
          | None => false
          end = false) as ->.
  { destruct (regTokens !! key) as [tok|] eqn:Hlook; [|done].
    specialize (Hold tok eq_refl). unfold GoTime.After, GoTime.Add.
    destruct (Z.ltb_spec (now + runnerStartupTimeout) (GetExpiresAt tok)); [lia|done]. }
  destruct (getEnterpriseOrganizationAndRepo enterprise org repo)
    as [[[e o] r] [err|]]; simpl.
  - split; [by intros invalid [= <-] | by intros ???]. 
  - split; [done|]. intros e' o' r' [= <- <- <-].
    destruct (createRegistrationToken api e o r) as [err|fresh code]; [done|].
    by destruct (code =? 201).
Qed.

(** An entry that is not served against no entry at all: the two calls end
    alike, except that a call whose arguments do not validate returns the
    entry it looked up. *)
Lemma GetRegistrationToken_stale_entry (tok : RegistrationToken) :
  regTokens !! key = Some tok →
  GetExpiresAt tok ≤ now + runnerStartupTimeout →
  let got' :=
    GetRegistrationToken api now (delete key regTokens) enterprise org repo name in
  got_err got = got_err got'
  ∧ got_events got = got_events got'
  ∧ ((getEnterpriseOrganizationAndRepo enterprise org repo).2 = None →
     got_token got = got_token got'
     ∧ (got_err got = None → got_regTokens got = got_regTokens got'))
  ∧ (∀ invalid,
       (getEnterpriseOrganizationAndRepo enterprise org repo).2 = Some invalid →
       got_token got = Some tok ∧ got_token got' = None
       ∧ got_err got = Some invalid ∧ got_regTokens got = regTokens).
Proof.
  intros Hlook Hexp. unfold GetRegistrationToken.
  rewrite Hlook, lookup_delete_eq. unfold GoTime.After, GoTime.Add.
  destruct (Z.ltb_spec (now + runnerStartupTimeout) (GetExpiresAt tok)); [lia|].
  destruct (getEnterpriseOrganizationAndRepo enterprise org repo)
    as [[[e o] r] [err|]]; simpl.
  { split; [done|]. split; [done|]. split; [done|]. by intros invalid [= <-]. }
  destruct (createRegistrationToken api e o r) as [err|fresh code];
    simpl; [by repeat split|].
  destruct (Z.eqb_spec code 201) as [->|_]; simpl; [|by repeat split].
  repeat split; try done. by rewrite insert_delete_eq.
Qed.

Lemma GetRegistrationToken_critical_section :
  critical_section (got_events got)
  ∧ (MapWrite key ∈ got_events got ↔ GoCleanup ∈ got_events got)
  ∧ (got_regTokens got ≠ regTokens → MapWrite key ∈ got_events got).
Proof.
  unfold GetRegistrationToken.
  assert (∀ t : list Op, critical_section [Lock; MapRead key; Unlock]
               ∧ (MapWrite key ∈ [Lock; MapRead key; Unlock]
                  ↔ GoCleanup ∈ [Lock; MapRead key; Unlock])
               ∧ (regTokens ≠ regTokens → MapWrite key ∈ t)) as Hread.
  { intros t. split; [by exists [MapRead key]|]. split; [|done].
    split; intros Hin;
      repeat (apply elem_of_cons in Hin as [Heq | Hin]; [discriminate|]);
      by apply elem_of_nil in Hin. }
  destruct (match regTokens !! key with Some _ => _ | None => _ end);
    simpl; [apply Hread|].
  destruct (getEnterpriseOrganizationAndRepo enterprise org repo)
    as [[[e o] r] [err|]]; simpl; [apply Hread|].
  destruct (createRegistrationToken api e o r) as [err|fresh code];
    simpl; [apply Hread|].
  destruct (negb (code =? 201)); simpl; [apply Hread|].
  split; [by exists [MapRead key; MapWrite key; GoCleanup]|].
  split; [split; intros _|intros _];
    repeat (first [apply list_elem_of_here | apply list_elem_of_further]).
Qed.

Lemma cleanup_lookup (now' : GoTime.Time) (k : string) (tok : RegistrationToken) :
  (cleanup now' regTokens).1 !! k = Some tok
  ↔ regTokens !! k = Some tok ∧ now' ≤ GetExpiresAt tok.
Proof.
  unfold cleanup; simpl. rewrite map_lookup_filter_Some; simpl.
  unfold GoTime.Before.
  destruct (Z.ltb_spec (GetExpiresAt tok) now'); intuition (try lia; try done).
Qed.

Lemma cleanup_critical_section (now' : GoTime.Time) :
  critical_section (cleanup now' regTokens).2.
Proof.
  unfold cleanup; simpl. exists (MapDelete <$> expired now' regTokens).
  split; [done|]. apply forallb_forall. intros e Hin.
  apply in_map_iff in Hin as (k & <- & _). done.
Qed.

End CacheFacts.

(** C8 (as amended).  Reading the registration-token cache: the cached
    token is returned with a nil error exactly when it expires more than
    [runnerStartupTimeout] (30 minutes) after now.  Otherwise, when the
    arguments validate, a fresh token is requested; on status 201 it is
    stored under the same key and returned and [cleanup] is started, on a
    failed request or another status nil is returned with an error and the
    map is left alone; in all this an entry that is not served counts as an
    absent one.  When the arguments do not validate, the call returns the
    validation error next to whatever entry it looked up, expired or not.
    [cleanup] keeps exactly the entries not expired, and every path of both
    methods is one critical section of the client's mutex. *)
Theorem GetRegistrationToken_cache (api : Github.Api) (now : GoTime.Time)
    (regTokens : gmap string Github.RegistrationToken)
    (enterprise org repo name : string) :
  let key := Github.getRegistrationKey org repo enterprise in
  let got := Github.GetRegistrationToken api now regTokens enterprise org repo name in
  let validated := Github.getEnterpriseOrganizationAndRepo enterprise org repo in
  Github.runnerStartupTimeout = 30 * 60 * 1000000000
  ∧ (∀ tok, regTokens !! key = Some tok →
            now + Github.runnerStartupTimeout < Github.GetExpiresAt tok →
            got = Github.mkGot (Some tok) None regTokens
                    [Github.Lock; Github.MapRead key; Github.Unlock])
  ∧ ((∀ tok, regTokens !! key = Some tok →
             Github.GetExpiresAt tok ≤ now + Github.runnerStartupTimeout) →
     (∀ invalid, validated.2 = Some invalid →
        got = Github.mkGot (regTokens !! key) (Some invalid) regTokens
                [Github.Lock; Github.MapRead key; Github.Unlock])
     ∧ (∀ e o r, validated = (e, o, r, None) →
          match Github.createRegistrationToken api e o r with
          | Github.ApiError _ =>
              got = Github.mkGot None
                      (Some (ErrorString "failed to create registration token"))
                      regTokens [Github.Lock; Github.MapRead key; Github.Unlock]
          | Github.ApiResponse fresh StatusCode =>
              if StatusCode =? 201 then
                got = Github.mkGot (Some fresh) None (<[key := fresh]> regTokens)
                        [Github.Lock; Github.MapRead key; Github.MapWrite key;
                         Github.GoCleanup; Github.Unlock]
              else
                got = Github.mkGot None (Some (ErrorString "unexpected status"))
                        regTokens [Github.Lock; Github.MapRead key; Github.Unlock]
          end))
  ∧ (∀ tok, regTokens !! key = Some tok →
            Github.GetExpiresAt tok ≤ now + Github.runnerStartupTimeout →
            let got' := Github.GetRegistrationToken api now (delete key regTokens)
                          enterprise org repo name in
            Github.got_err got = Github.got_err got'
            ∧ Github.got_events got = Github.got_events got'
            ∧ (validated.2 = None →
               Github.got_token got = Github.got_token got'
               ∧ (Github.got_err got = None →
                  Github.got_regTokens got = Github.got_regTokens got'))
            ∧ (∀ invalid, validated.2 = Some invalid →
                 Github.got_token got = Some tok ∧ Github.got_token got' = None
                 ∧ Github.got_err got = Some invalid
                 ∧ Github.got_regTokens got = regTokens))
  ∧ (Github.critical_section (Github.got_events got)
     ∧ (Github.MapWrite key ∈ Github.got_events got
        ↔ Github.GoCleanup ∈ Github.got_events got)
     ∧ (Github.got_regTokens got ≠ regTokens →
        Github.MapWrite key ∈ Github.got_events got))
  ∧ (∀ later k tok,
       (Github.cleanup later regTokens).1 !! k = Some tok
       ↔ regTokens !! k = Some tok ∧ later ≤ Github.GetExpiresAt tok)
  ∧ (∀ later, Github.critical_section (Github.cleanup later regTokens).2).
Proof.
  intros key got validated. split; [reflexivity|].
  split; [apply GetRegistrationToken_hit|].
  split; [apply GetRegistrationToken_not_served|].
  split; [apply GetRegistrationToken_stale_entry|].
  split; [apply GetRegistrationToken_critical_section|].
  split; [intros; apply cleanup_lookup | apply cleanup_critical_section].
Qed.

(** C8, the claim as stated fails.  A token is stored for the enterprise
    ["e,enterprise=z"]; the repository [",enterprise=e"] of the enterprise
    ["z"] has the same key and is not a valid name.  Asked for it after the
    token has expired, the call returns the expired token next to the
    validation error; with no entry it returns nil. *)
Lemma expired_token_is_returned :
  let stored :=
    Github.got_regTokens
      (Github.GetRegistrationToken Scenario.api Scenario.clock ∅
         "e,enterprise=z" "" "" "runner-1") in
  let later := 5000 * GoTime.Second in
  let got :=
    Github.GetRegistrationToken Scenario.api later stored
      "z" "" ",enterprise=e" "runner-2" in
  Github.getRegistrationKey "" "" "e,enterprise=z"
  = Github.getRegistrationKey "" ",enterprise=e" "z"
  ∧ stored !! Github.getRegistrationKey "" ",enterprise=e" "z" = Some Scenario.tok_fresh
  ∧ Github.GetExpiresAt Scenario.tok_fresh < later
  ∧ Github.got_token got = Some Scenario.tok_fresh
  ∧ Github.got_err got
    = Some (ErrorString "invalid repository name: ',enterprise=e'")
  ∧ Github.got_token
      (Github.GetRegistrationToken Scenario.api later
         (delete (Github.getRegistrationKey "" ",enterprise=e" "z") stored)
         "z" "" ",enterprise=e" "runner-2")
    = None.
Proof. by vm_compute. Qed.

Lemma GetRegistrationToken_cache_witness :
  Github.GetRegistrationToken Scenario.api Scenario.clock Scenario.cache_fresh
      "" "acme" "" "runner-1"
  = Github.mkGot (Some Scenario.tok_fresh) None Scenario.cache_fresh
      [Github.Lock; Github.MapRead Scenario.acme_key; Github.Unlock]
  ∧ Github.GetRegistrationToken Scenario.api Scenario.clock Scenario.cache_stale
        "" "acme" "" "runner-1"
    = Github.mkGot (Some Scenario.tok_fresh) None
        (<[Scenario.acme_key := Scenario.tok_fresh]> Scenario.cache_stale)
        [Github.Lock; Github.MapRead Scenario.acme_key;
         Github.MapWrite Scenario.acme_key; Github.GoCleanup; Github.Unlock]
  ∧ Github.got_token
      (Github.GetRegistrationToken Scenario.api Scenario.clock Scenario.cache_stale
         "" "acme" "" "runner-1")
    = Github.got_token
        (Github.GetRegistrationToken Scenario.api Scenario.clock
           (delete Scenario.acme_key Scenario.cache_stale) "" "acme" "" "runner-1").
Proof.
  split; [|split].
  - destruct (GetRegistrationToken_cache Scenario.api Scenario.clock
                Scenario.cache_fresh "" "acme" "" "runner-1") as (_ & Hhit & _).
    apply (Hhit Scenario.tok_fresh); reflexivity.
  - destruct (GetRegistrationToken_cache Scenario.api Scenario.clock
                Scenario.cache_stale "" "acme" "" "runner-1") as (_ & _ & Hmiss & _).
    destruct Hmiss as [_ Hvalid].
    + intros tok Hlook. vm_compute in Hlook.
      injection Hlook as <-. vm_compute. discriminate.
    + exact (Hvalid "" "acme" "" eq_refl).
  - destruct (GetRegistrationToken_cache Scenario.api Scenario.clock
                Scenario.cache_stale "" "acme" "" "runner-1")
      as (_ & _ & _ & Habsent & _).
    destruct (Habsent Scenario.tok_stale) as (_ & _ & Hsame & _);
      [reflexivity | vm_compute; discriminate |].
    by apply Hsame.
Defined.

(** ** The reconciler: the loops of the scale-down branch *)

Section ReconcilerFacts.

Import Controllers.

Variable delay : GoTime.Duration.
Variable env : Env.

Lemma wrap64_small (z : Z) : - 2 ^ 63 ≤ z < 2 ^ 63 → wrap64 z = z.
Proof.
  intros Hz. unfold wrap64.
  rewrite Z.mod_small; lia.
Qed.

Lemma registrationDidTimeout_spec (currentTime : GoTime.Time) (runner : Runner) :
  registrationDidTimeout currentTime runner = true
  ↔ 15 * 60 * 1000000000 < currentTime - CreationTimestamp runner.
Proof.
  unfold registrationDidTimeout. rewrite Z.ltb_lt, Sub_pos.
  unfold GoTime.Add, registrationTimeout, GoTime.Minute, GoTime.Second. lia.
Qed.

(** An iteration that goes on appends the runner exactly when it is a
    candidate. *)
Lemma probeRunner_Continue (i : nat) (runner : Runner) (notBusy notBusy' : list Runner) :
  probeRunner delay env i runner notBusy = Continue notBusy' →
  notBusy' = notBusy ++ (if candidate env i runner then [runner] else []).
Proof.
  unfold probeRunner, candidate, confirmedNotBusy, classifiedOffline,
    classifiedNotRegistered.
  destruct (probe env i runner) as [busy [err|]].
  - destruct (As_RunnerNotFound err); simpl.
    + destruct (registrationDidTimeout _ _); intros [= <-]; by rewrite ?app_nil_r.
    + destruct (As_RunnerOffline err); simpl.
      * by intros [= <-].
      * by destruct (As_RateLimitError err).
  - destruct busy; simpl; intros [= <-]; by rewrite ?app_nil_r.
Qed.

(** An iteration that returns does so on a rate-limit error, asking for the
    retry delay, or on another error; either way it returns the error. *)
Lemma probeRunner_Return (i : nat) (runner : Runner) (notBusy : list Runner)
    (res : Result) (err : option error) :
  probeRunner delay env i runner notBusy = Return res err →
  (∃ e, err = Some e ∧ (probe env i runner).2 = Some e)
  ∧ ((classifiedRateLimit env i runner = true ∧ res = mkResult false delay)
     ∨ (classifiedOther env i runner = true ∧ res = emptyResult)).
Proof.
  unfold probeRunner, classifiedRateLimit, classifiedOther.
  destruct (probe env i runner) as [busy [e|]].
  - destruct (As_RunnerNotFound e); simpl.
    + by destruct (registrationDidTimeout _ _).
    + destruct (As_RunnerOffline e); simpl; [done|].
      destruct (As_RateLimitError e); intros [= <- <-];
        (split; [by exists e|]); [left|right]; by simpl.
  - by destruct busy.
Qed.

Lemma probeLoop_Continue (myRunners : list Runner) :
  ∀ (i : nat) (notBusy notBusy' : list Runner),
    probeLoop delay env i myRunners notBusy = Continue notBusy' →
    notBusy' = notBusy ++ candidates env i myRunners.
Proof.
  induction myRunners as [|runner rest IH]; intros i notBusy notBusy'; simpl.
  - intros [= <-]. by rewrite app_nil_r.
  - destruct (probeRunner delay env i runner notBusy) as [nb|res err] eqn:Hstep;
      [|done].
    intros Hloop. apply IH in Hloop as ->.
    apply probeRunner_Continue in Hstep as ->.
    destruct (candidate env i runner); by rewrite <- app_assoc.
Qed.

(** The loop returns at the first runner whose probe fails with an error
    that is neither "not found" nor "offline". *)
Lemma probeLoop_Return_at (before : list Runner) (runner : Runner) (after : list Runner) :
  ∀ (i : nat) (notBusy : list Runner),
    (∀ j r, before !! j = Some r →
            classifiedRateLimit env (i + j) r = false
            ∧ classifiedOther env (i + j) r = false) →
    ∀ res err,
      probeRunner delay env (i + length before) runner
        (notBusy ++ candidates env i before) = Return res err →
      probeLoop delay env i (before ++ runner :: after) notBusy = Return res err.
Proof.
  induction before as [|r before IH]; intros i notBusy Hquiet res err; simpl.
  - rewrite Nat.add_0_r, app_nil_r. by intros ->.
  - destruct (probeRunner delay env i r notBusy) as [nb|res' err'] eqn:Hstep.
    + apply probeRunner_Continue in Hstep as ->.
      intros Hret. apply IH.
      * intros j r' Hj. replace (S i + j)%nat with (i + S j)%nat by lia.
        by apply Hquiet.
      * replace (S i + length before)%nat with (i + S (length before))%nat by lia.
        destruct (candidate env i r); simpl in *; by rewrite <- ?app_assoc.
    + apply probeRunner_Return in Hstep as (_ & [[Hrl _]|[Hother _]]).
      * destruct (Hquiet 0%nat r eq_refl) as [Hq _].
        rewrite Nat.add_0_r in Hq. congruence.
      * destruct (Hquiet 0%nat r eq_refl) as [_ Hq].
        rewrite Nat.add_0_r in Hq. congruence.
Qed.

Lemma deletedRunners_deletion (err : option error) (victim : Runner) (effects : list Effect) :
  deletedRunners (deletion err victim :: effects) = victim :: deletedRunners effects.
Proof. by destruct err. Qed.

Lemma createdRunners_deletion (err : option error) (victim : Runner) (effects : list Effect) :
  createdRunners (deletion err victim :: effects) = createdRunners effects.
Proof. by destruct err. Qed.

(** The delete loop deletes a prefix of what is left of [notBusy], all
    [todo] of them when it runs to its end, and creates nothing. *)
Lemma deleteLoop_deleted (rs : RunnerReplicaSet) (myRunners notBusy : list Runner) :
  ∀ (todo i : nat) (effects : list Effect) (out : option Outcome),
    deleteLoop env todo i rs myRunners notBusy = (effects, out) →
    createdRunners effects = []
    ∧ (∃ k, (k ≤ todo)%nat ∧ deletedRunners effects = take k (drop i notBusy))
    ∧ (out = None →
       deletedRunners effects = take todo (drop i notBusy)
       ∧ length (deletedRunners effects) = todo).
Proof.
  induction todo as [|todo IH]; intros i effects out; simpl.
  - intros [= <- <-]. split; [done|]. split; [exists 0%nat; split; [lia|done] | done].
  - destruct (notBusy !! i) as [victim|] eqn:Hvictim.
    2:{ intros [= <- <-]. split; [done|]. split; [exists 0%nat; split; [lia|done] | done]. }
    destruct (IgnoreNotFound (Delete env i victim)).
    { intros [= <- <-]. split; [done|]. split; [exists 0%nat; split; [lia|done] | done]. }
    rewrite (drop_S _ _ _ Hvictim).
    destruct (myRunners !! i) as [named|].
    2:{ intros [= <- <-]. rewrite deletedRunners_deletion, createdRunners_deletion.
        split; [done|]. split; [|done]. exists 1%nat. split; [lia|done]. }
    destruct (deleteLoop env todo (S i) rs myRunners notBusy) as [effects' out'] eqn:Hrec.
    intros [= <- <-].
    destruct (IH _ _ _ Hrec) as (Hcreated & (k & Hk & Hdel) & Hdone).
    rewrite deletedRunners_deletion, createdRunners_deletion. simpl.
    split; [done|]. split.
    + exists (S k). split; [lia|]. by rewrite Hdel.
    + intros Hout. destruct (Hdone Hout) as [-> Hlen].
      split; [done|]. simpl. by rewrite Hlen.
Qed.

Lemma probeLoop_Return_err (myRunners : list Runner) :
  ∀ (i : nat) (notBusy : list Runner) res err,
    probeLoop delay env i myRunners notBusy = Return res err → is_Some err.
Proof.
  induction myRunners as [|runner rest IH]; intros i notBusy res err; simpl; [done|].
  destruct (probeRunner delay env i runner notBusy) as [nb|res' err'] eqn:Hstep.
  - apply IH.
  - intros [= <- <-]. apply probeRunner_Return in Hstep as ((e & -> & _) & _). eauto.
Qed.

Lemma deleteLoop_failed (rs : RunnerReplicaSet) (myRunners notBusy : list Runner) :
  ∀ (todo i : nat) (effects : list Effect) (out : Outcome),
    deleteLoop env todo i rs myRunners notBusy = (effects, Some out) → failed out.
Proof.
  induction todo as [|todo IH]; intros i effects out; simpl; [done|].
  destruct (notBusy !! i) as [victim|]; [|by intros [= <- <-]].
  unfold IgnoreNotFound.
  destruct (Delete env i victim) as [err|].
  - destruct (IsNotFound err).
    + destruct (myRunners !! i); [|by intros [= <- <-]].
      destruct (deleteLoop env todo (S i) rs myRunners notBusy) as [effects' out'] eqn:Hrec.
      intros [= <- ->]. by eapply IH.
    + by intros [= <- <-].
  - destruct (myRunners !! i); [|by intros [= <- <-]].
    destruct (deleteLoop env todo (S i) rs myRunners notBusy) as [effects' out'] eqn:Hrec.
    intros [= <- ->]. by eapply IH.
Qed.

(** The scale-down branch deletes the first candidates, at most [n] of
    them, and all of the first [n] when it runs to its end. *)
Lemma scaleDown_deleted (rs : RunnerReplicaSet) (myRunners : list Runner)
    (available desired : Z) (effects : list Effect) (out : option Outcome) :
  scaleDown delay env rs myRunners available desired = (effects, out) →
  createdRunners effects = []
  ∧ (∃ k, (k ≤ Z.to_nat (excess available desired))%nat
          ∧ deletedRunners effects = take k (candidates env 0 myRunners))
  ∧ (out = None →
     deletedRunners effects
     = take (Z.to_nat (excess available desired)) (candidates env 0 myRunners))
  ∧ (∀ o, out = Some o → failed o).
Proof.
  unfold scaleDown.
  destruct (probeLoop delay env 0 myRunners []) as [notBusy|res err] eqn:Hprobe.
  - apply probeLoop_Continue in Hprobe. simpl in Hprobe. subst notBusy.
    set (cands := candidates env 0 myRunners).
    set (n := excess available desired).
    intros Hdel.
    destruct (deleteLoop_deleted _ _ _ _ _ _ _ Hdel) as (Hcr & (k & Hk & Hpre) & Hdone).
    rewrite drop_0 in Hpre, Hdone.
    split; [done|]. split; [|split].
    + exists k. split; [|done].
      destruct (Z.ltb_spec (Z.of_nat (length cands)) n); lia.
    + intros Hout. destruct (Hdone Hout) as [-> _].
      destruct (Z.ltb_spec (Z.of_nat (length cands)) n); [|done].
      rewrite Nat2Z.id, !take_ge; [done|lia..].
    + intros o ->. by eapply deleteLoop_failed.
  - intros [= <- <-]. split; [done|]. split; [exists 0%nat; split; [lia|done]|].
    split; [done|]. intros o [= <-].
    apply probeLoop_Return_err in Hprobe as [e ->]. done.
Qed.

Lemma createLoop_created (rs : RunnerReplicaSet) :
  ∀ (todo i : nat) (effects : list Effect) (out : option Outcome),
    createLoop env todo i rs = (effects, out) →
    deletedRunners effects = []
    ∧ (length (createdRunners effects) ≤ todo)%nat
    ∧ (out = None → length (createdRunners effects) = todo)
    ∧ (∀ o, out = Some o → failed o).
Proof.
  induction todo as [|todo IH]; intros i effects out; simpl.
  - by intros [= <- <-].
  - destruct (newRunner env rs) as [runner [err|]].
    { intros [= <- <-]. split; [done|]. split; [simpl; lia|].
      split; [done|]. by intros o [= <-]. }
    destruct (Create env i runner) as [err|].
    { intros [= <- <-]. split; [done|]. split; [simpl; lia|].
      split; [done|]. by intros o [= <-]. }
    destruct (createLoop env todo (S i) rs) as [effects' out'] eqn:Hrec.
    intros [= <- <-]. destruct (IH _ _ _ Hrec) as (Hdel & Hle & Hdone & Hfail).
    change (createdRunners (Created runner :: effects'))
      with (runner :: createdRunners effects').
    change (deletedRunners (Created runner :: effects'))
      with (deletedRunners effects').
    simpl length.
    split; [done|]. split; [lia|]. split; [|done].
    intros Hout. by rewrite Hdone.
Qed.

Lemma ownedRunners_spec (rs : RunnerReplicaSet) (items : list Runner) :
  ∀ (myRunners : list Runner) (available ready : Z),
    ∃ ready',
      ownedRunners rs items (myRunners, available, ready)
      = (myRunners ++ List.filter (λ r, IsControlledBy r rs) items,
         available + Z.of_nat (length (List.filter (λ r, IsControlledBy r rs) items)),
         ready').
Proof.
  induction items as [|r rest IH]; intros myRunners available ready; simpl.
  - exists ready. by rewrite app_nil_r, Z.add_0_r.
  - destruct (IsControlledBy r rs); [|apply IH].
    destruct (IH (myRunners ++ [r]) (available + 1)
                 (if String.eqb (Phase r) PodRunning then ready + 1 else ready))
      as [ready' ->].
    exists ready'. rewrite <- app_assoc. simpl length.
    do 2 f_equal. lia.
Qed.

Lemma wrap64_le (z : Z) : 0 ≤ z → wrap64 z ≤ z.
Proof.
  intros Hz. unfold wrap64.
  pose proof (Z.mod_le (z + 2 ^ 63) (2 ^ 64)). lia.
Qed.

Lemma updateStatus_quiet (rs : RunnerReplicaSet) (available ready : Z) :
  deletedRunners (updateStatus env rs available ready).1 = []
  ∧ createdRunners (updateStatus env rs available ready).1 = [].
Proof.
  unfold updateStatus.
  destruct (_ || _); [|done]. by destruct (StatusUpdate env available ready).
Qed.

(** Past the early returns, [Reconcile] is one of the two scaling branches
    followed by the status update. *)
Lemma Reconcile_scaling (rs : RunnerReplicaSet) :
  reachesScaling env rs →
  let myRunners := myRunnersOf env rs in
  let available := Z.of_nat (length myRunners) in
  let desired := desiredReplicas rs in
  ∃ ready,
    Reconcile delay env
    = let '(effects, out) :=
        if desired <? available then
          scaleDown delay env rs myRunners available desired
        else if available <? desired then scaleUp env rs available desired
        else ([], None) in
      match out with
      | Some out => (effects, out)
      | None =>
          let '(effects', out) := updateStatus env rs available ready in
          (effects ++ effects', out)
      end.
Proof.
  intros (Hget & Hzero & Hlist). unfold Reconcile, myRunnersOf.
  rewrite Hget, Hzero. simpl.
  destruct (List env) as [items listErr]. simpl in *.
  destruct (ownedRunners_spec rs items [] 0 0) as [ready Hown].
  exists ready. rewrite Hown. simpl.
  destruct listErr as [err|]; [by rewrite Hlist|done].
Qed.

(** In a pass that scales down, the deletions are those of the scale-down
    branch, and the pass ends without error only if the branch ran to its
    end. *)
Lemma Reconcile_scaleDown (rs : RunnerReplicaSet) (effects : list Effect) (out : Outcome) :
  reachesScaling env rs →
  let myRunners := myRunnersOf env rs in
  let available := Z.of_nat (length myRunners) in
  let desired := desiredReplicas rs in
  desired < available →
  Reconcile delay env = (effects, out) →
  ∃ effects_sd out_sd,
    scaleDown delay env rs myRunners available desired = (effects_sd, out_sd)
    ∧ deletedRunners effects = deletedRunners effects_sd
    ∧ createdRunners effects = []
    ∧ (¬ failed out → out_sd = None).
Proof.
  intros Hreach myRunners available desired Hlt.
  destruct (Reconcile_scaling rs Hreach) as [ready ->].
  fold myRunners available desired.
  destruct (Z.ltb_spec desired available); [|lia].
  destruct (scaleDown delay env rs myRunners available desired)
    as [effects_sd out_sd] eqn:Hsd.
  destruct (scaleDown_deleted _ _ _ _ _ _ Hsd) as (Hcr & _ & _ & Hfail).
  intros Hrec. exists effects_sd, out_sd. split; [done|].
  destruct out_sd as [o|].
  - injection Hrec as <- <-. repeat split; [done|].
    intros Hok. destruct Hok. by apply Hfail.
  - destruct (updateStatus env rs available ready) as [effects' out'] eqn:Hst.
    injection Hrec as <- <-.
    pose proof (updateStatus_quiet rs available ready) as [Hd Hc].
    rewrite Hst in Hd, Hc. simpl in Hd, Hc.
    unfold deletedRunners, createdRunners in *.
    rewrite !omap_app, Hd, Hc, Hcr, !app_nil_r. done.
Qed.

Lemma candidates_elem (runner : Runner) (myRunners : list Runner) :
  ∀ i, runner ∈ candidates env i myRunners
       ↔ ∃ j, myRunners !! j = Some runner ∧ candidate env (i + j) runner = true.
Proof.
  induction myRunners as [|r rest IH]; intros i; simpl.
  - split; [by intros ?%elem_of_nil | by intros (j & ? & _)].
  - assert (runner ∈ candidates env (S i) rest
            ↔ ∃ j, (r :: rest) !! S j = Some runner
                   ∧ candidate env (i + S j) runner = true) as Hrest.
    { rewrite IH. by setoid_rewrite <- Nat.add_succ_comm. }
    destruct (candidate env i r) eqn:Hc.
    + rewrite elem_of_cons, Hrest. split.
      * intros [-> | (j & Hj)]; [|by exists (S j)].
        exists 0%nat. by rewrite Nat.add_0_r.
      * intros ([|j] & Hj & Hcj); [left | right; by exists j].
        by injection Hj.
    + rewrite Hrest. split; [intros (j & Hj); by exists (S j)|].
      intros ([|j] & Hj & Hcj); [|by exists j].
      injection Hj as ->. rewrite Nat.add_0_r in Hcj. congruence.
Qed.

Lemma candidates_length (myRunners : list Runner) :
  ∀ i, (length (candidates env i myRunners) ≤ length myRunners)%nat.
Proof.
  induction myRunners as [|r rest IH]; intros i; simpl; [done|].
  specialize (IH (S i)). destruct (candidate env i r); simpl; lia.
Qed.

(** When no probe fails with an error other than "not found" and "offline",
    the probe loop runs to its end. *)
Lemma probeLoop_completes (myRunners : list Runner) :
  ∀ (i : nat) (notBusy : list Runner),
    (∀ j r, myRunners !! j = Some r →
            classifiedRateLimit env (i + j) r = false
            ∧ classifiedOther env (i + j) r = false) →
    probeLoop delay env i myRunners notBusy
    = Continue (notBusy ++ candidates env i myRunners).
Proof.
  induction myRunners as [|r rest IH]; intros i notBusy Hquiet; simpl.
  - by rewrite app_nil_r.
  - destruct (probeRunner delay env i r notBusy) as [nb|res err] eqn:Hstep.
    + apply probeRunner_Continue in Hstep as ->. rewrite IH.
      * destruct (candidate env i r); by rewrite <- app_assoc.
      * intros j r' Hj. replace (S i + j)%nat with (i + S j)%nat by lia.
        by apply Hquiet.
    + destruct (Hquiet 0%nat r eq_refl) as [Hrl Hother].
      rewrite Nat.add_0_r in Hrl, Hother.
      apply probeRunner_Return in Hstep as (_ & [[? _]|[? _]]); congruence.
Qed.

(** When no call of [Delete] fails, the delete loop runs to its end. *)
Lemma deleteLoop_completes (rs : RunnerReplicaSet) (myRunners notBusy : list Runner) :
  (∀ i r, IgnoreNotFound (Delete env i r) = None) →
  (length notBusy ≤ length myRunners)%nat →
  ∀ (todo i : nat),
    (i + todo ≤ length notBusy)%nat →
    (deleteLoop env todo i rs myRunners notBusy).2 = None.
Proof.
  intros Hdelete Hlen. induction todo as [|todo IH]; intros i Hi; simpl; [done|].
  destruct (lookup_lt_is_Some_2 notBusy i) as [victim ->]; [lia|].
  rewrite Hdelete.
  destruct (lookup_lt_is_Some_2 myRunners i) as [named ->]; [lia|].
  specialize (IH (S i)).
  destruct (deleteLoop env todo (S i) rs myRunners notBusy) as [effects out].
  simpl in *. apply IH. lia.
Qed.

(** C1 (as amended).  In a pass in which available exceeds desired, every
    runner deleted is a candidate: its probe succeeded with busy=false, or
    classified it offline (whatever the busy flag says), or classified it
    not registered after the registration timeout.  A runner whose probe
    succeeded with busy=true is never deleted.  No more than the excess is
    deleted, and when no probe ends the pass, no call of [Delete] fails and
    the candidates are fewer than the excess, exactly the candidates are
    deleted. *)
Theorem scale_down_deletes_candidates (rs : RunnerReplicaSet)
    (effects : list Effect) (out : Outcome) :
  reachesScaling env rs →
  let myRunners := myRunnersOf env rs in
  let available := Z.of_nat (length myRunners) in
  let desired := desiredReplicas rs in
  desired < available →
  Reconcile delay env = (effects, out) →
  (∀ r, r ∈ deletedRunners effects →
        ∃ i, myRunners !! i = Some r
             ∧ (confirmedNotBusy env i r = true
                ∨ classifiedOffline env i r = true
                ∨ (classifiedNotRegistered env i r = true
                   ∧ registrationDidTimeout (Now env i) r = true)))
  ∧ (NoDup myRunners →
     ∀ i r, myRunners !! i = Some r → probe env i r = (true, None) →
            r ∉ deletedRunners effects)
  ∧ Z.of_nat (length (deletedRunners effects)) ≤ Z.max 0 (excess available desired)
  ∧ ((∀ i r, myRunners !! i = Some r →
             classifiedRateLimit env i r = false ∧ classifiedOther env i r = false) →
     (∀ i r, IgnoreNotFound (Delete env i r) = None) →
     Z.of_nat (length (candidates env 0 myRunners)) < excess available desired →
     deletedRunners effects = candidates env 0 myRunners).
Proof.
  intros Hreach myRunners available desired Hlt Hrec.
  destruct (Reconcile_scaleDown rs effects out Hreach Hlt Hrec)
    as (effects_sd & out_sd & Hsd & -> & _ & _).
  destruct (scaleDown_deleted _ _ _ _ _ _ Hsd) as (_ & (k & Hk & Hpre) & Hdone & _).
  fold myRunners available desired in Hk, Hpre, Hdone, Hsd.
  assert (∀ r, r ∈ deletedRunners effects_sd →
               ∃ i, myRunners !! i = Some r ∧ candidate env i r = true) as Hcand.
  { intros r Hin. rewrite Hpre in Hin. apply subseteq_take in Hin.
    by apply candidates_elem in Hin. }
  split; [|split; [|split]].
  - intros r Hin. destruct (Hcand r Hin) as (i & Hi & Hc). exists i. split; [done|].
    unfold candidate in Hc.
    apply orb_true_iff in Hc as [Hc|Hc]; [apply orb_true_iff in Hc as [Hc|Hc]|];
      [by left | by right; left | right; right].
    by apply andb_true_iff in Hc.
  - intros Hnodup i r Hi Hprobe Hin.
    destruct (Hcand r Hin) as (j & Hj & Hc).
    assert (i = j) as <- by (eapply NoDup_lookup; eauto).
    unfold candidate, confirmedNotBusy, classifiedOffline, classifiedNotRegistered in Hc.
    by rewrite Hprobe in Hc.
  - rewrite Hpre, length_take. lia.
  - intros Hquiet Hdelete Hfew. rewrite Hdone; [apply take_ge; lia|].
    unfold scaleDown in Hsd.
    rewrite (probeLoop_completes myRunners 0 [] Hquiet) in Hsd. simpl in Hsd.
    pose proof (candidates_length myRunners 0) as Hlen.
    pose proof (deleteLoop_completes rs myRunners (candidates env 0 myRunners)
                  Hdelete Hlen) as Hcomplete.
    destruct (Z.ltb_spec (Z.of_nat (length (candidates env 0 myRunners)))
                (excess available desired)); [|lia].
    specialize (Hcomplete (Z.to_nat (Z.of_nat (length (candidates env 0 myRunners))))
                  0%nat).
    rewrite Hsd in Hcomplete. apply Hcomplete. lia.
Qed.

(** C3 (as amended).  When the probe of a runner fails with a rate-limit
    error (and no earlier probe of the pass ended it), the pass is over at
    once: nothing was deleted, created or updated, the result asks for one
    requeue after [retryDelayOnGitHubAPIRateLimitError], and the rate-limit
    error is returned to the caller together with it. *)
Theorem rate_limit_aborts_pass (rs : RunnerReplicaSet)
    (before : list Runner) (runner : Runner) (after : list Runner) :
  reachesScaling env rs →
  myRunnersOf env rs = before ++ runner :: after →
  desiredReplicas rs < Z.of_nat (length (myRunnersOf env rs)) →
  (∀ j r, before !! j = Some r →
          classifiedRateLimit env j r = false ∧ classifiedOther env j r = false) →
  classifiedRateLimit env (length before) runner = true →
  ∃ err,
    (probe env (length before) runner).2 = Some err
    ∧ As_RateLimitError err = true
    ∧ Reconcile delay env = ([], Returned (mkResult false delay) (Some err)).
Proof.
  intros Hreach Hmy Hlt Hquiet Hrl.
  destruct (Reconcile_scaling rs Hreach) as [ready ->].
  destruct (Z.ltb_spec (desiredReplicas rs) (Z.of_nat (length (myRunnersOf env rs))));
    [|lia].
  unfold classifiedRateLimit in Hrl.
  destruct (probe env (length before) runner) as [busy [err|]] eqn:Hprobe; [|done].
  apply andb_true_iff in Hrl as [Hrl Hrate].
  apply andb_true_iff in Hrl as [Hnf Hoff].
  apply negb_true_iff in Hnf, Hoff.
  exists err. split; [done|]. split; [done|].
  unfold scaleDown. rewrite Hmy.
  rewrite (probeLoop_Return_at before runner after 0 [] Hquiet
             (mkResult false delay) (Some err)); [done|].
  unfold probeRunner. simpl. by rewrite Hprobe, Hnf, Hoff, Hrate.
Qed.

Lemma candidate_notRegistered (i : nat) (runner : Runner) :
  classifiedNotRegistered env i runner = true →
  candidate env i runner = registrationDidTimeout (Now env i) runner.
Proof.
  unfold candidate, confirmedNotBusy, classifiedOffline, classifiedNotRegistered.
  destruct (probe env i runner) as [busy [err|]]; [|done].
  by intros ->.
Qed.

(** C4.  A runner whose probe error classifies as "not found" is appended to
    [notBusy] exactly when its age, the current time minus its creation
    timestamp, exceeds 15 minutes; a younger one is not deleted by the pass,
    an older one is a candidate. *)
Theorem registration_grace (rs : RunnerReplicaSet) (effects : list Effect)
    (out : Outcome) (i : nat) (runner : Runner) :
  reachesScaling env rs →
  let myRunners := myRunnersOf env rs in
  desiredReplicas rs < Z.of_nat (length myRunners) →
  Reconcile delay env = (effects, out) →
  NoDup myRunners →
  myRunners !! i = Some runner →
  classifiedNotRegistered env i runner = true →
  let age := Now env i - CreationTimestamp runner in
  (∀ notBusy,
     probeRunner delay env i runner notBusy
     = Continue (if 15 * 60 * 1000000000 <? age
                 then notBusy ++ [runner] else notBusy))
  ∧ (∀ notBusy, probeLoop delay env 0 myRunners [] = Continue notBusy →
                (runner ∈ notBusy ↔ 15 * 60 * 1000000000 < age))
  ∧ (age ≤ 15 * 60 * 1000000000 → runner ∉ deletedRunners effects)
  ∧ (15 * 60 * 1000000000 < age → runner ∈ candidates env 0 myRunners).
Proof.
  intros Hreach myRunners Hlt Hrec Hnodup Hi Hnr age.
  pose proof (candidate_notRegistered i runner Hnr) as Hcand.
  pose proof (registrationDidTimeout_spec (Now env i) runner) as Hspec.
  fold age in Hspec.
  assert (runner ∈ candidates env 0 myRunners ↔ 15 * 60 * 1000000000 < age) as Hin.
  { rewrite candidates_elem, <- Hspec, <- Hcand. split.
    - intros (j & Hj & Hc). by rewrite (NoDup_lookup _ _ _ _ Hnodup Hi Hj).
    - intros Hc. by exists i. }
  split; [|split; [|split]].
  - intros notBusy. unfold probeRunner.
    unfold classifiedNotRegistered in Hnr.
    destruct (probe env i runner) as [busy [err|]]; [|done].
    rewrite Hnr. simpl.
    destruct (registrationDidTimeout (Now env i) runner) eqn:Hto.
    + destruct (Z.ltb_spec (15 * 60 * 1000000000) age) as [_|Hge]; [done|].
      apply proj1 in Hspec. specialize (Hspec eq_refl). lia.
    + destruct (Z.ltb_spec (15 * 60 * 1000000000) age) as [Hage|_]; [|done].
      apply Hspec in Hage. congruence.
  - intros notBusy Hloop. apply probeLoop_Continue in Hloop as ->. by simpl.
  - intros Hyoung Hdel.
    destruct (Reconcile_scaleDown rs effects out Hreach Hlt Hrec)
      as (effects_sd & out_sd & Hsd & Heq & _).
    destruct (scaleDown_deleted _ _ _ _ _ _ Hsd) as (_ & (k & _ & Hpre) & _).
    rewrite Heq, Hpre in Hdel. apply subseteq_take in Hdel.
    apply Hin in Hdel. lia.
  - apply Hin.
Qed.

(** C10.  When [Spec.Replicas] is nil the desired count is 1.  A pass that
    finds no runner creates at most one, and exactly the runner of
    [newRunner] when its calls succeed; a pass that finds one neither
    creates nor deletes; a pass that finds more creates none and, when no
    probe ends it and no call of [Delete] fails, deletes the first
    [available - 1] candidates: every runner but one when that many are
    candidates, every candidate otherwise. *)
Theorem unset_replicas_means_one (rs : RunnerReplicaSet)
    (effects : list Effect) (out : Outcome) :
  reachesScaling env rs →
  rs_Replicas rs = None →
  Reconcile delay env = (effects, out) →
  let myRunners := myRunnersOf env rs in
  let available := Z.of_nat (length myRunners) in
  desiredReplicas rs = 1
  ∧ (available = 0 →
     deletedRunners effects = []
     ∧ (length (createdRunners effects) ≤ 1)%nat
     ∧ (¬ failed out → length (createdRunners effects) = 1%nat)
     ∧ ((newRunner env rs).2 = None →
        (∀ i r, Create env i r = None) →
        createdRunners effects = [(newRunner env rs).1]))
  ∧ (available = 1 → deletedRunners effects = [] ∧ createdRunners effects = [])
  ∧ (1 < available →
     createdRunners effects = []
     ∧ Z.of_nat (length (deletedRunners effects)) ≤ available - 1
     ∧ (available < 2 ^ 63 →
        (∀ i r, myRunners !! i = Some r →
                classifiedRateLimit env i r = false ∧ classifiedOther env i r = false) →
        (∀ i r, IgnoreNotFound (Delete env i r) = None) →
        deletedRunners effects
        = take (Z.to_nat (available - 1)) (candidates env 0 myRunners)
        ∧ (available - 1 ≤ Z.of_nat (length (candidates env 0 myRunners)) →
           available - Z.of_nat (length (deletedRunners effects)) = 1))).
Proof.
  intros Hreach Hnil Hrec myRunners available.
  assert (desiredReplicas rs = 1) as Hone by (unfold desiredReplicas; by rewrite Hnil).
  split; [done|]. split; [|split].
  - intros Hzero.
    destruct (Reconcile_scaling rs Hreach) as [ready Heq].
    rewrite Heq in Hrec. fold myRunners available in Hrec. rewrite Hone, Hzero in Hrec.
    simpl in Hrec. unfold scaleUp, excess in Hrec.
    change (Z.to_nat (wrap64 (1 - 0))) with 1%nat in Hrec.
    destruct (createLoop env 1 0 rs) as [effects_up out_up] eqn:Hup.
    destruct (createLoop_created _ _ _ _ _ Hup) as (Hdel & Hle & Hdone & Hfail).
    assert ((newRunner env rs).2 = None → (∀ i r, Create env i r = None) →
            createdRunners effects_up = [(newRunner env rs).1] ∧ out_up = None)
      as Hexact.
    { intros Hnew Hcreate. simpl in Hup.
      destruct (newRunner env rs) as [runner err]. simpl in Hnew. subst err.
      rewrite Hcreate in Hup. by injection Hup as <- <-. }
    destruct out_up as [o|].
    + injection Hrec as <- <-. repeat split; [done..| |].
      * intros Hok. destruct Hok. by apply Hfail.
      * intros Hnew Hcreate. by destruct (Hexact Hnew Hcreate) as [_ [=]].
    + destruct (updateStatus env rs 0 ready) as [effects' out'] eqn:Hst.
      injection Hrec as <- <-.
      pose proof (updateStatus_quiet rs 0 ready) as [Hd Hc].
      rewrite Hst in Hd, Hc. simpl in Hd, Hc.
      unfold deletedRunners, createdRunners in *.
      rewrite !omap_app, Hd, Hc, Hdel, !app_nil_r.
      repeat split; [done| |].
      * intros _. by apply Hdone.
      * intros Hnew Hcreate. by destruct (Hexact Hnew Hcreate) as [-> _].
  - intros Hsame.
    destruct (Reconcile_scaling rs Hreach) as [ready Heq].
    rewrite Heq in Hrec. fold myRunners available in Hrec. rewrite Hone, Hsame in Hrec.
    simpl in Hrec.
    destruct (updateStatus env rs 1 ready) as [effects' out'] eqn:Hst.
    injection Hrec as <- <-.
    pose proof (updateStatus_quiet rs 1 ready) as [Hd Hc].
    by rewrite Hst in Hd, Hc.
  - intros Hmore.
    assert (desiredReplicas rs < Z.of_nat (length (myRunnersOf env rs))) as Hlt
      by (fold myRunners available; lia).
    destruct (Reconcile_scaleDown rs effects out Hreach Hlt Hrec)
      as (effects_sd & out_sd & Hsd & Heq & Hcr & _).
    destruct (scaleDown_deleted _ _ _ _ _ _ Hsd) as (_ & (k & Hk & Hpre) & Hdone & _).
    fold myRunners available in Hk, Hpre, Hdone, Hsd. rewrite Hone in Hk, Hdone, Hsd.
    split; [done|]. split.
    { rewrite Heq, Hpre, length_take. unfold excess in Hk.
      pose proof (wrap64_le (available - 1)). lia. }
    intros Hint Hquiet Hdelete.
    assert (excess available 1 = available - 1) as Hexcess.
    { unfold excess. apply wrap64_small. lia. }
    rewrite Hexcess in Hdone.
    assert (out_sd = None) as Hend.
    { unfold scaleDown in Hsd. rewrite Hexcess in Hsd.
      rewrite (probeLoop_completes myRunners 0 [] Hquiet) in Hsd.
      cbn [app] in Hsd.
      pose proof (candidates_length myRunners 0) as Hlen.
      pose proof (deleteLoop_completes rs myRunners (candidates env 0 myRunners)
                    Hdelete Hlen) as Hcomplete.
      match type of Hsd with
      | deleteLoop _ ?todo _ _ _ _ = _ => specialize (Hcomplete todo 0%nat)
      end.
      rewrite Hsd in Hcomplete. apply Hcomplete.
      destruct (Z.ltb_spec (Z.of_nat (length (candidates env 0 myRunners)))
                  (available - 1)); lia. }
    rewrite Heq, (Hdone Hend). split; [done|].
    intros Hmany. rewrite length_take. lia.
Qed.

End ReconcilerFacts.

(** *** The reconciler on concrete passes *)

(** Membership in, and absence of duplicates from, a list written out. *)
Ltac not_listed H :=
  repeat (apply elem_of_cons in H as [H|H]; [discriminate H|]);
  by apply elem_of_nil in H.

Ltac all_distinct :=
  repeat (apply NoDup_cons; split; [let H := fresh in intros H; not_listed H|]);
  apply NoDup_nil_2.

Ltac reaches_scaling := split; [reflexivity | split; [reflexivity | exact I]].

(** C1, the claim as stated fails: the runner ["beta"] is offline, its probe
    reports busy=true, and the pass deletes it.  And in a pass with three
    candidates and an excess of four, the second call of [Delete] fails and
    the pass stops with one candidate deleted. *)
Lemma busy_offline_runner_is_deleted :
  (Controllers.probe Scenario.env_busy_offline 0 (Scenario.pod "beta" 0)
   = (true, Some (RunnerOffline "beta"))
   ∧ Scenario.pod "beta" 0
     ∈ Controllers.deletedRunners
         (Controllers.Reconcile Scenario.retryDelay Scenario.env_busy_offline).1)
  ∧ (Controllers.candidates Scenario.env_delete_fails 0 Scenario.fleet
     = [Scenario.pod "idle-1" 0; Scenario.pod "offline-1" 0; Scenario.pod "idle-2" 0]
     ∧ Controllers.excess 5 1 = 4
     ∧ Controllers.deletedRunners
         (Controllers.Reconcile Scenario.retryDelay Scenario.env_delete_fails).1
       = [Scenario.pod "idle-1" 0]).
Proof.
  split; [split; [reflexivity|] | by repeat split].
  change (Controllers.deletedRunners
            (Controllers.Reconcile Scenario.retryDelay Scenario.env_busy_offline).1)
    with [Scenario.pod "beta" 0].
  apply list_elem_of_here.
Qed.

Lemma scale_down_deletes_candidates_witness :
  (Scenario.pod "busy-1" 0
   ∉ Controllers.deletedRunners
       (Controllers.Reconcile Scenario.retryDelay (Scenario.env_fleet (Some 3))).1)
  ∧ Controllers.deletedRunners
      (Controllers.Reconcile Scenario.retryDelay (Scenario.env_fleet (Some 1))).1
    = [Scenario.pod "idle-1" 0; Scenario.pod "offline-1" 0; Scenario.pod "idle-2" 0].
Proof.
  split.
  - destruct (scale_down_deletes_candidates Scenario.retryDelay
                (Scenario.env_fleet (Some 3)) (Scenario.pool (Some 3))
                (Controllers.Reconcile Scenario.retryDelay (Scenario.env_fleet (Some 3))).1
                (Controllers.Reconcile Scenario.retryDelay (Scenario.env_fleet (Some 3))).2)
      as (_ & Hbusy & _); [reaches_scaling | reflexivity | reflexivity |].
    apply (Hbusy ltac:(all_distinct) 0%nat); reflexivity.
  - destruct (scale_down_deletes_candidates Scenario.retryDelay
                (Scenario.env_fleet (Some 1)) (Scenario.pool (Some 1))
                (Controllers.Reconcile Scenario.retryDelay (Scenario.env_fleet (Some 1))).1
                (Controllers.Reconcile Scenario.retryDelay (Scenario.env_fleet (Some 1))).2)
      as (_ & _ & _ & Hall); [reaches_scaling | reflexivity | reflexivity |].
    rewrite Hall; [reflexivity | | by intros | reflexivity].
    intros [|[|[|[|[|i]]]]] r Hi; [by injection Hi as <-.. | discriminate Hi].
Defined.

(** C3, the claim as stated fails: the third probe of the pass hits the rate
    limit, and the pass returns that error to its caller. *)
Lemma rate_limit_error_is_returned :
  Controllers.classifiedRateLimit Scenario.env_rate_limited 2
    (Scenario.pod "offline-1" 0) = true
  ∧ Controllers.Reconcile Scenario.retryDelay Scenario.env_rate_limited
    = ([], Controllers.Returned (Controllers.mkResult false Scenario.retryDelay)
             (Some Scenario.rateLimited))
  ∧ Controllers.failed
      (Controllers.Reconcile Scenario.retryDelay Scenario.env_rate_limited).2.
Proof. split; [reflexivity|]. split; [reflexivity | exact I]. Qed.

Lemma rate_limit_aborts_pass_witness :
  ∃ err,
    As_RateLimitError err = true
    ∧ Controllers.Reconcile Scenario.retryDelay Scenario.env_rate_limited
      = ([], Controllers.Returned (Controllers.mkResult false Scenario.retryDelay)
               (Some err)).
Proof.
  destruct (rate_limit_aborts_pass Scenario.retryDelay Scenario.env_rate_limited
              (Scenario.pool (Some 3))
              [Scenario.pod "busy-1" 0; Scenario.pod "idle-1" 0]
              (Scenario.pod "offline-1" 0)
              [Scenario.pod "busy-2" 0; Scenario.pod "idle-2" 0])
    as (err & _ & Hrate & Hpass);
    [reaches_scaling | reflexivity | reflexivity | | reflexivity | by exists err].
  intros [|[|j]] r Hj; [by injection Hj as <-.. | discriminate Hj].
Defined.

Lemma registration_grace_witness :
  (Scenario.pod "ghost" 0
   ∉ Controllers.deletedRunners
       (Controllers.Reconcile Scenario.retryDelay
          (Scenario.env_ghost (15 * GoTime.Minute))).1)
  ∧ Scenario.pod "ghost" 0
    ∈ Controllers.candidates (Scenario.env_ghost (15 * GoTime.Minute + 1)) 0
        [Scenario.pod "ghost" 0].
Proof.
  split.
  - destruct (registration_grace Scenario.retryDelay
                (Scenario.env_ghost (15 * GoTime.Minute)) (Scenario.pool (Some 0))
                (Controllers.Reconcile Scenario.retryDelay
                   (Scenario.env_ghost (15 * GoTime.Minute))).1
                (Controllers.Reconcile Scenario.retryDelay
                   (Scenario.env_ghost (15 * GoTime.Minute))).2
                0%nat (Scenario.pod "ghost" 0))
      as (_ & _ & Hyoung & _);
      [reaches_scaling | reflexivity | reflexivity | all_distinct
      | reflexivity | reflexivity |].
    apply Hyoung. by vm_compute.
  - destruct (registration_grace Scenario.retryDelay
                (Scenario.env_ghost (15 * GoTime.Minute + 1)) (Scenario.pool (Some 0))
                (Controllers.Reconcile Scenario.retryDelay
                   (Scenario.env_ghost (15 * GoTime.Minute + 1))).1
                (Controllers.Reconcile Scenario.retryDelay
                   (Scenario.env_ghost (15 * GoTime.Minute + 1))).2
                0%nat (Scenario.pod "ghost" 0))
      as (_ & _ & _ & Hold);
      [reaches_scaling | reflexivity | reflexivity | all_distinct
      | reflexivity | reflexivity |].
    apply Hold. reflexivity.
Defined.

Lemma unset_replicas_means_one_witness :
  Controllers.desiredReplicas (Scenario.pool None) = 1
  ∧ Controllers.createdRunners
      (Controllers.Reconcile Scenario.retryDelay Scenario.env_empty).1
    = [Controllers.mkRunner "" "pool-" "ci" (Some "uid-1"%string) 0 "" "acme" "" ""]
  ∧ Controllers.deletedRunners
      (Controllers.Reconcile Scenario.retryDelay (Scenario.env_fleet None)).1
    = [Scenario.pod "idle-1" 0; Scenario.pod "offline-1" 0; Scenario.pod "idle-2" 0]
  ∧ Controllers.deletedRunners
      (Controllers.Reconcile Scenario.retryDelay Cases.env_idle).1
    = [Scenario.pod "idle-1" 0; Scenario.pod "idle-2" 0].
Proof.
  split; [|split; [|split]].
  - apply (unset_replicas_means_one Scenario.retryDelay Scenario.env_empty
             (Scenario.pool None)
             (Controllers.Reconcile Scenario.retryDelay Scenario.env_empty).1
             (Controllers.Reconcile Scenario.retryDelay Scenario.env_empty).2);
      [reaches_scaling | reflexivity | reflexivity].
  - destruct (unset_replicas_means_one Scenario.retryDelay Scenario.env_empty
                (Scenario.pool None)
                (Controllers.Reconcile Scenario.retryDelay Scenario.env_empty).1
                (Controllers.Reconcile Scenario.retryDelay Scenario.env_empty).2)
      as (_ & Hnone & _); [reaches_scaling | reflexivity | reflexivity |].
    destruct Hnone as (_ & _ & _ & Hexact); [reflexivity|].
    rewrite Hexact; [reflexivity | reflexivity | by intros].
  - destruct (unset_replicas_means_one Scenario.retryDelay (Scenario.env_fleet None)
                (Scenario.pool None)
                (Controllers.Reconcile Scenario.retryDelay (Scenario.env_fleet None)).1
                (Controllers.Reconcile Scenario.retryDelay (Scenario.env_fleet None)).2)
      as (_ & _ & _ & Hmore); [reaches_scaling | reflexivity | reflexivity |].
    destruct Hmore as (_ & _ & Hexact); [reflexivity|].
    destruct Hexact as [-> _]; [reflexivity | | by intros | reflexivity].
    intros [|[|[|[|[|i]]]]] r Hi; [by injection Hi as <-.. | discriminate Hi].
  - destruct (unset_replicas_means_one Scenario.retryDelay Cases.env_idle
                (Scenario.pool None)
                (Controllers.Reconcile Scenario.retryDelay Cases.env_idle).1
                (Controllers.Reconcile Scenario.retryDelay Cases.env_idle).2)
      as (_ & _ & _ & Hmore); [reaches_scaling | reflexivity | reflexivity |].
    destruct Hmore as (_ & _ & Hexact); [reflexivity|].
    destruct Hexact as [-> _]; [reflexivity | | by intros | reflexivity].
    intros [|[|[|i]]] r Hi; [by injection Hi as <-.. | discriminate Hi].
Defined.

(** ** The message loop *)

Section LoopFacts.

Import Listener.

Context {World : Type} (svc : Service World).

(** [getMessage] hands a message over only when the poll delivered it
    without error, and dispatches nothing itself. *)
Lemma getMessage_answer (c : ActionsClient) (url token : string) (cursor : Z)
    (w : World) message err polled w' :
  getMessage svc c url token cursor w = (message, err, polled, w') →
  dispatchedIds polled = []
  ∧ (∀ h cur m, Dispatched h cur m ∉ polled)
  ∧ (∀ e o r, Handshake e o r ∉ polled)
  ∧ (∀ id sid, RefreshedSession id sid ∉ polled)
  ∧ match message with
    | Some m => err = None ∧ ∃ w'', GetMessage svc c url token cursor w = (Some m, None, w'')
    | None => True
    end.
Proof.
  unfold getMessage, deleteMessage.
  destruct (GetMessage svc c url token cursor w) as [[gm gerr] w1].
  destruct gerr as [e|].
  { intros [= <- <- <- <-]. repeat split; intros; intros Hin; not_listed Hin. }
  destruct gm as [m|].
  2:{ intros [= <- <- <- <-]. repeat split; intros; intros Hin; not_listed Hin. }
  destruct (DeleteMessage svc c url token (MessageId m) w1) as [derr w2].
  intros [= <- <- <- <-].
  split; [by destruct derr|].
  repeat split; try (intros; intros Hin; destruct derr; not_listed Hin).
  by exists w1.
Qed.

Lemma getMessage_error (c : ActionsClient) (url token : string) (cursor : Z)
    (w : World) message err w1 :
  GetMessage svc c url token cursor w = (message, Some err, w1) →
  getMessage svc c url token cursor w
  = (None, Some err, [Polled url token cursor], w1).
Proof. unfold getMessage. by intros ->. Qed.

(** What [refresh] does when nothing is left to dispatch: the handshake is
    always made, the cursor never moves. *)
Lemma refresh_events (st : Loop) (current : RunnerScaleSetSession) (w : World) :
  let events := (refresh svc st current None w).1 in
  let it := (refresh svc st current None w).2 in
  Handshake (runnerEnterprise st) (runnerOrg st) (runnerRepository st) ∈ events
  ∧ dispatchedIds events = []
  ∧ (∀ h cur m, Dispatched h cur m ∉ events)
  ∧ (∀ st' w', it = Next st' w' ∨ it = ReturnNil st' w' →
               lastMessageId st' = lastMessageId st).
Proof.
  unfold refresh.
  destruct (GetActionsServiceAdminConnection svc _ _ _ w) as [[conn herr] w1].
  assert (∀ c, runnerEnterprise (set_b_actionsAdminConnection st c) = runnerEnterprise st
               ∧ runnerOrg (set_b_actionsAdminConnection st c) = runnerOrg st
               ∧ runnerRepository (set_b_actionsAdminConnection st c) = runnerRepository st
               ∧ lastMessageId (set_b_actionsAdminConnection st c) = lastMessageId st)
    as Hsame by (by intros [c|]).
  destruct (Hsame conn) as (-> & -> & -> & Hcursor).
  destruct herr as [e|]; simpl.
  { split; [apply list_elem_of_here|]. split; [done|].
    split; [intros ??? Hin; not_listed Hin|].
    intros st' w' [[= <- <-]|[=]]. done. }
  destruct (connections _ !! actionsAdminConnection _) as [local|]; simpl.
  2:{ split; [apply list_elem_of_here|]. split; [done|].
      split; [intros ??? Hin; not_listed Hin|]. by intros st' w' [[=]|[=]]. }
  destruct (RefreshMessageSession svc _ _ _ w1) as [[refreshed rerr] w2].
  destruct rerr as [e|]; simpl.
  - split; [apply list_elem_of_here|]. split; [done|].
    split; [intros ??? Hin; not_listed Hin|].
    intros st' w' [[= <- <-]|[=]]. done.
  - split; [apply list_elem_of_here|]. split; [done|].
    split; [intros ??? Hin; not_listed Hin|].
    intros st' w' [[= <- <-]|[=]]. done.
Qed.

(** C5 (as amended).  When the poll returns an error, the admin handshake
    is made if and only if the error is the token-expired error, and
    [RefreshMessageSession] is called if and only if, moreover, the
    handshake succeeds.  It is then called for the scale set and the session
    id of the current session, and the local [session] becomes what it
    returned, also when it failed.  When the handshake fails, that error is
    logged and the session is not refreshed.  Any other poll error is logged
    and the loop goes on to the next iteration with every variable, the
    cursor and the session among them, unchanged.  In no case is anything
    dispatched or the cursor moved. *)
Theorem poll_error_session_refresh (st : Loop) (w : World)
    (current : RunnerScaleSetSession) (local : ActionsServiceAdminConnection)
    (message : option RunnerScaleSetMessage) (err : error) (w1 : World) :
  Done svc w = false →
  session st = Some current →
  connections st !! actionsAdminConnection st = Some local →
  GetMessage svc (actionsServiceClient st) (MessageQueueUrl current)
    (MessageQueueAccessToken current) (lastMessageId st) w = (message, Some err, w1) →
  let events := (iteration svc st w).1 in
  let it := (iteration svc st w).2 in
  let polled :=
    Polled (MessageQueueUrl current) (MessageQueueAccessToken current)
           (lastMessageId st) in
  let handshake :=
    GetActionsServiceAdminConnection svc (runnerEnterprise st) (runnerOrg st)
      (runnerRepository st) w1 in
  let renewal :=
    RefreshMessageSession svc
      (mkActionsClient (ActionsServiceURL (actionsServiceClient st)) (AdminToken local)
                       (UserAgent (actionsServiceClient st)))
      (Id (SessionScaleSet current)) (SessionId current) handshake.2 in
  ((∃ e o r, Handshake e o r ∈ events) ↔ As_MessageQueueTokenExpiredError err = true)
  ∧ ((∃ id sid, RefreshedSession id sid ∈ events)
     ↔ As_MessageQueueTokenExpiredError err = true ∧ handshake.1.2 = None)
  ∧ (As_MessageQueueTokenExpiredError err = true → handshake.1.2 = None →
     events
     = [polled;
        Handshake (runnerEnterprise st) (runnerOrg st) (runnerRepository st);
        SetAdminToken (AdminToken local);
        RefreshedSession (Id (SessionScaleSet current)) (SessionId current)]
       ++ match renewal.1.2 with
          | Some failure => [LoggedError failure "Error: Refresh message session failed."]
          | None => []
          end
     ∧ ∃ st', it = Next st' renewal.2
              ∧ session st' = renewal.1.1
              ∧ lastMessageId st' = lastMessageId st)
  ∧ (As_MessageQueueTokenExpiredError err = true →
     ∀ failure, handshake.1.2 = Some failure →
       events
       = [polled;
          Handshake (runnerEnterprise st) (runnerOrg st) (runnerRepository st);
          LoggedError failure
            "Error: Get Actions service admin connection failed during message session refresh."]
       ∧ ∃ st', it = Next st' handshake.2
                ∧ session st' = Some current
                ∧ lastMessageId st' = lastMessageId st)
  ∧ (As_MessageQueueTokenExpiredError err = false →
     events = [polled; LoggedError err "Error: Get message failed."]
     ∧ it = Next st w1)
  ∧ dispatchedIds events = [].
Proof.
  intros Hdone Hsession Hlocal Hpoll. unfold iteration.
  rewrite Hdone, Hsession, (getMessage_error _ _ _ _ _ _ _ _ Hpoll).
  destruct (As_MessageQueueTokenExpiredError err) eqn:Hexpired; simpl.
  2:{ split; [split; [|done]; intros (e & o & r & Hin); not_listed Hin|].
      split; [split; [|by intros [[=] _]]; intros (id & sid & Hin); not_listed Hin|].
      by repeat split. }
  unfold refresh.
  destruct (GetActionsServiceAdminConnection svc _ _ _ w1) as [[conn herr] w2].
  assert (runnerEnterprise (set_b_actionsAdminConnection st conn) = runnerEnterprise st
          ∧ runnerOrg (set_b_actionsAdminConnection st conn) = runnerOrg st
          ∧ runnerRepository (set_b_actionsAdminConnection st conn) = runnerRepository st
          ∧ actionsAdminConnection (set_b_actionsAdminConnection st conn)
            = actionsAdminConnection st
          ∧ connections (set_b_actionsAdminConnection st conn) !! actionsAdminConnection st
            = Some local)
    as (-> & -> & -> & -> & Hstill).
  { destruct conn; simpl; repeat split; try done. by apply lookup_app_l_Some. }
  destruct herr as [failure|].
  { simpl.
    split; [split; [done|]; intros _; eexists _, _, _; by right; left|].
    split; [split; [|by intros [_ [=]]]; intros (id & sid & Hin); not_listed Hin|].
    split; [done|]. split; [|by split].
    intros _ ? [= <-]. split; [done|]. eexists. split; [done|]. by destruct conn. }
  cbn [fst snd]. cbv beta iota zeta. rewrite Hstill.
  replace (actionsServiceClient
             (set_adminToken (set_b_actionsAdminConnection st conn) (AdminToken local)))
    with (mkActionsClient (ActionsServiceURL (actionsServiceClient st)) (AdminToken local)
                          (UserAgent (actionsServiceClient st))) by (by destruct conn).
  destruct (RefreshMessageSession svc _ _ _ w2) as [[refreshed [failure|]] w3]; simpl.
  - split; [split; [done|]; intros _; eexists _, _, _; by right; left|].
    split; [split; [done|]; intros _; eexists _, _; by do 3 right; left|].
    split; [|by repeat split]. intros _ _. split; [done|].
    eexists. split; [done|]. by destruct conn.
  - split; [split; [done|]; intros _; eexists _, _, _; by right; left|].
    split; [split; [done|]; intros _; eexists _, _; by do 3 right; left|].
    split; [|by repeat split]. intros _ _. split; [done|].
    eexists. split; [done|]. by destruct conn.
Qed.

Lemma dispatchedIds_app (events events' : list Event) :
  dispatchedIds (events ++ events') = dispatchedIds events ++ dispatchedIds events'.
Proof. apply omap_app. Qed.

Section Ordering.

(** Every message the source delivers for a cursor has a greater id. *)
Hypothesis GetMessage_after_cursor :
  ∀ c url token cursor w m w',
    GetMessage svc c url token cursor w = (Some m, None, w') → cursor < MessageId m.

(** An iteration dispatches nothing and leaves the cursor, or dispatches one
    message with an id beyond the cursor and moves the cursor to that id. *)
Lemma iteration_cursor (st : Loop) (w : World) events it :
  iteration svc st w = (events, it) →
  (∀ h cur m, Dispatched h cur m ∈ events → cur = MessageId m)
  ∧ ((dispatchedIds events = []
      ∧ ∀ st' w', it = Next st' w' → lastMessageId st' = lastMessageId st)
     ∨ (∃ id st' w',
          dispatchedIds events = [id] ∧ lastMessageId st < id
          ∧ it = Next st' w' ∧ lastMessageId st' = id)).
Proof.
  unfold iteration.
  destruct (Done svc w).
  { intros [= <- <-]. split; [intros ??? Hin; not_listed Hin|]. by left. }
  destruct (session st) as [current|].
  2:{ intros [= <- <-]. split; [intros ??? Hin; not_listed Hin|]. by left. }
  destruct (getMessage svc _ _ _ _ w) as [[[message err] polled] w1] eqn:Hget.
  apply getMessage_answer in Hget as (Hids & Hnone & _ & _ & Hmsg).
  destruct err as [e|].
  - assert (message = None) as -> by (destruct message; [by destruct Hmsg|done]).
    destruct (negb (As_MessageQueueTokenExpiredError e)).
    + intros [= <- <-]. split.
      * intros h cur m [Hin|Hin]%elem_of_app; [by apply Hnone in Hin|not_listed Hin].
      * left. rewrite dispatchedIds_app, Hids. split; [done|].
        by intros st' w' [= <- <-].
    + pose proof (refresh_events st current w1) as (_ & Hids' & Hnone' & Hcursor).
      destruct (refresh svc st current None w1) as [events' it']. simpl in *.
      intros [= <- <-]. split.
      * intros h cur m [Hin|Hin]%elem_of_app; [by apply Hnone in Hin|by apply Hnone' in Hin].
      * left. rewrite dispatchedIds_app, Hids, Hids'. split; [done|].
        intros st' w' ->. apply (Hcursor st' w'). by left.
  - unfold dispatch. destruct message as [m|].
    + destruct Hmsg as (_ & w'' & Hpoll).
      apply GetMessage_after_cursor in Hpoll.
      intros [= <- <-]. split.
      * intros h cur m' [Hin|Hin]%elem_of_app; [by apply Hnone in Hin|].
        apply list_elem_of_singleton in Hin. by injection Hin as -> -> ->.
      * right. eexists _, _, _. rewrite dispatchedIds_app, Hids. by simpl.
    + intros [= <- <-]. split.
      * intros h cur m [Hin|Hin]%elem_of_app; [by apply Hnone in Hin|not_listed Hin].
      * left. rewrite dispatchedIds_app, Hids. split; [done|].
        by intros st' w' [= <- <-].
Qed.

Lemma run_ordered (fuel : nat) :
  ∀ (st : Loop) (w : World) events it,
    run svc fuel st w = (events, it) →
    (∀ h cur m, Dispatched h cur m ∈ events → cur = MessageId m)
    ∧ StronglySorted Z.lt (dispatchedIds events)
    ∧ Forall (λ id, lastMessageId st < id) (dispatchedIds events).
Proof.
  induction fuel as [|fuel IH]; intros st w events it; simpl.
  { intros [= <- <-]. split; [intros ??? Hin; not_listed Hin|].
    split; constructor. }
  destruct (iteration svc st w) as [events1 it1] eqn:Hit.
  apply iteration_cursor in Hit as (Hcur1 & Hstep).
  assert (StronglySorted Z.lt (dispatchedIds events1)
          ∧ Forall (λ id, lastMessageId st < id) (dispatchedIds events1)) as [Hs1 Hf1].
  { destruct Hstep as [[-> _]|(id & st' & w' & -> & Hlt & _)].
    - split; constructor.
    - split; repeat constructor. done. }
  destruct it1 as [st1 w1| |]; [|by intros [= <- <-]..].
  destruct (run svc fuel st1 w1) as [events2 it2] eqn:Hrun.
  intros [= <- <-].
  destruct (IH _ _ _ _ Hrun) as (Hcur2 & Hs2 & Hf2).
  split.
  { intros h cur m [Hin|Hin]%elem_of_app; [by eapply Hcur1 | by eapply Hcur2]. }
  rewrite dispatchedIds_app.
  destruct Hstep as [[-> Hsame]|(id & st' & w' & -> & Hlt & [= <- <-] & Hid)].
  - rewrite (Hsame st1 w1 eq_refl) in Hf2. by split.
  - simpl. rewrite Hid in Hf2. split.
    + by constructor.
    + constructor; [done|]. eapply Forall_impl; [exact Hf2|]. simpl. lia.
Qed.

End Ordering.

(** C6.  The cursor is assigned the id of a message before the message is
    handed to its handler; hence, when every message the source delivers
    for a cursor has a greater id, the ids dispatched by any number of
    iterations, token refreshes among them, are strictly increasing (and
    beyond the cursor the run started from). *)
Theorem dispatch_in_increasing_order :
  (∀ c url token cursor w m w',
     GetMessage svc c url token cursor w = (Some m, None, w') →
     cursor < MessageId m) →
  ∀ (fuel : nat) (st : Loop) (w : World),
    let events := (run svc fuel st w).1 in
    (∀ h cur m, Dispatched h cur m ∈ events → cur = MessageId m)
    ∧ StronglySorted Z.lt (dispatchedIds events)
    ∧ Forall (λ id, lastMessageId st < id) (dispatchedIds events).
Proof.
  intros Hmono fuel st w.
  apply (run_ordered Hmono fuel st w _ (run svc fuel st w).2).
  by destruct (run svc fuel st w).
Qed.

(** *** The admin token of the service client *)

Lemma set_b_actionsAdminConnection_local (st : Loop)
    (c : option ActionsServiceAdminConnection) (conn : ActionsServiceAdminConnection) :
  connections st !! actionsAdminConnection st = Some conn →
  connections (set_b_actionsAdminConnection st c)
    !! actionsAdminConnection (set_b_actionsAdminConnection st c) = Some conn
  ∧ actionsServiceClient (set_b_actionsAdminConnection st c) = actionsServiceClient st.
Proof.
  intros Hlocal. destruct c as [c|]; simpl; [|done].
  split; [|done]. by apply lookup_app_l_Some.
Qed.

(** The local [actionsAdminConnection] goes on pointing to the connection it
    was initialised with, and that is where the refresh takes the admin
    token from: an iteration never changes the token of the client. *)
Lemma iteration_admin_token (conn : ActionsServiceAdminConnection)
    (st : Loop) (w : World) (st' : Loop) (w' : World) :
  connections st !! actionsAdminConnection st = Some conn →
  ActionsServiceAdminToken (actionsServiceClient st) = AdminToken conn →
  (iteration svc st w).2 = Next st' w' ∨ (iteration svc st w).2 = ReturnNil st' w' →
  connections st' !! actionsAdminConnection st' = Some conn
  ∧ ActionsServiceAdminToken (actionsServiceClient st') = AdminToken conn.
Proof.
  intros Hlocal Htoken. unfold iteration.
  destruct (Done svc w); simpl; [by intros [[=]|[= <- <-]]|].
  destruct (session st) as [current|]; simpl; [|by intros [[=]|[=]]].
  destruct (getMessage svc _ _ _ _ w) as [[[message err] polled] w1].
  assert (∀ st0 message w0,
            connections st0 !! actionsAdminConnection st0 = Some conn →
            ActionsServiceAdminToken (actionsServiceClient st0) = AdminToken conn →
            (dispatch svc st0 message w0).2 = Next st' w'
            ∨ (dispatch svc st0 message w0).2 = ReturnNil st' w' →
            connections st' !! actionsAdminConnection st' = Some conn
            ∧ ActionsServiceAdminToken (actionsServiceClient st') = AdminToken conn)
    as Hdispatch.
  { intros st0 [m|] w0 Hl Ht; simpl; by intros [[= <- <-]|[=]]. }
  destruct err as [e|].
  - destruct (negb (As_MessageQueueTokenExpiredError e)); simpl;
      [by intros [[= <- <-]|[=]]|].
    unfold refresh.
    destruct (GetActionsServiceAdminConnection svc _ _ _ w1) as [[c herr] w2].
    destruct (set_b_actionsAdminConnection_local st c conn Hlocal) as [Hlocal' Hclient].
    destruct herr as [e'|]; simpl.
    { intros [[= <- <-]|[=]]. by rewrite Hclient. }
    rewrite Hlocal'.
    destruct (RefreshMessageSession svc _ _ _ w2) as [[refreshed rerr] w3].
    destruct rerr as [e'|]; simpl.
    { by intros [[= <- <-]|[=]]. }
    pose proof (Hdispatch
                  (set_session (set_adminToken (set_b_actionsAdminConnection st c)
                                               (AdminToken conn)) refreshed)
                  message w3 Hlocal' eq_refl) as Hd.
    destruct (dispatch svc _ message w3) as [events it]. exact Hd.
  - pose proof (Hdispatch st message w1 Hlocal Htoken) as Hd.
    destruct (dispatch svc st message w1) as [events it]. exact Hd.
Qed.

(** However often the session is refreshed, the client keeps the admin
    token the builder gave it. *)
Lemma run_admin_token_unchanged (conn : ActionsServiceAdminConnection) (fuel : nat) :
  ∀ (st : Loop) (w : World) (st' : Loop) (w' : World),
    connections st !! actionsAdminConnection st = Some conn →
    ActionsServiceAdminToken (actionsServiceClient st) = AdminToken conn →
    (run svc fuel st w).2 = Next st' w' ∨ (run svc fuel st w).2 = ReturnNil st' w' →
    ActionsServiceAdminToken (actionsServiceClient st') = AdminToken conn.
Proof.
  induction fuel as [|fuel IH]; intros st w st' w' Hlocal Htoken; simpl.
  { by intros [[= <- <-]|[=]]. }
  pose proof (iteration_admin_token conn st w) as Hstep.
  destruct (iteration svc st w) as [events [st1 w1| st1 w1 |]]; simpl in *.
  - destruct (Hstep st1 w1 Hlocal Htoken) as [Hlocal1 Htoken1]; [by left|].
    pose proof (IH st1 w1 st' w' Hlocal1 Htoken1) as Hrest.
    destruct (run svc fuel st1 w1) as [events' it]. exact Hrest.
  - intros [[=]|[= <- <-]]. apply (Hstep st1 w1 Hlocal Htoken). by right.
  - by intros [[=]|[=]].
Qed.

(** *** Creating the session *)

(** [createRunnerScaleSetSession] always returns, after at most two calls
    of [CreateMessageSession]; when it gives up it has made exactly two and
    reports one. *)
Lemma createRunnerScaleSetSession_attempts (c : ActionsClient) (scaleSetId : Z)
    (name : string) (w : World) :
  ∃ s e events w',
    createRunnerScaleSetSession svc c scaleSetId name w = Some (s, e, events, w')
    ∧ (attempts events ≤ 2)%nat
    ∧ (is_Some e →
       s = None ∧ attempts events = 2%nat
       ∧ e = Some (ErrorfInt "Unable to create session in %d attempts" 1)).
Proof.
  unfold createRunnerScaleSetSession. simpl.
  destruct (CreateMessageSession svc c scaleSetId name w) as [[s1 [e1|]] w1]; simpl.
  2:{ eexists _, _, _, _. split; [done|]. split; [unfold attempts; simpl; lia|]. by intros [? [=]]. }
  destruct (CreateMessageSession svc c scaleSetId name w1) as [[s2 [e2|]] w2]; simpl.
  2:{ eexists _, _, _, _. split; [done|]. split; [unfold attempts; simpl; lia|]. by intros [? [=]]. }
  eexists _, _, _, _. split; [done|]. split; [unfold attempts; simpl; lia|]. done.
Qed.

End LoopFacts.

(** *** The listener on a concrete job source *)

(** C2, where the code departs from the claim.  The poll finds the queue
    token expired; the handshake is made again and answers the admin token
    ["admin-token-2"], which [ml.b.actionsAdminConnection] now points to;
    the lease is renewed for scale set 7 and session ["session-a"]; the
    cursor stays at 0.  But the client is given the token of the connection
    the local [actionsAdminConnection] still points to: ["admin-token-1"]. *)
Lemma refresh_keeps_the_old_admin_token :
  (Listener.iteration Scenario.svc Scenario.loop1 1%nat).1
  = [Listener.Polled "https://queue.example" "queue-token-1" 0;
     Listener.Handshake "" "acme" "";
     Listener.SetAdminToken "admin-token-1";
     Listener.RefreshedSession 7 "session-a"]
  ∧ ∃ st,
      (Listener.iteration Scenario.svc Scenario.loop1 1%nat).2 = Listener.Next st 2%nat
      ∧ Listener.b_actionsAdminConnection st = Some 1%nat
      ∧ Listener.connections st !! 1%nat = Some Scenario.conn2
      ∧ Listener.AdminToken Scenario.conn2 = "admin-token-2"%string
      ∧ Listener.ActionsServiceAdminToken (Listener.actionsServiceClient st)
        = "admin-token-1"%string
      ∧ Listener.session st = Some Scenario.session2
      ∧ Listener.lastMessageId st = 0.
Proof.
  split; [reflexivity|].
  eexists. split; [reflexivity|]. by repeat split.
Qed.

(** C7, where the code departs from the claim.  [CreateMessageSession]
    fails twice and would succeed the third time; the loop gives up after
    the second failure, having slept after each, and reports one attempt. *)
Lemma session_creation_gives_up_after_two_attempts :
  ∃ events,
    Listener.createRunnerScaleSetSession Scenario.svc
      (Listener.newActionsClient Scenario.conn1) 7 "host-1" 0%nat
    = Some (None,
            Some (ErrorfInt "Unable to create session in %d attempts" 1),
            events, 2%nat)
    ∧ Listener.attempts events = 2%nat
    ∧ Listener.CreateMessageSession Scenario.svc
        (Listener.newActionsClient Scenario.conn1) 7 "host-1" 2%nat
      = (Some Scenario.session1, None, 3%nat).
Proof. eexists. split; [reflexivity|]. by split. Qed.

(** C5, the claim as stated fails: the poll finds the queue token expired,
    the admin handshake is refused, and the iteration ends there; the
    session is not refreshed and the next poll will use the same one. *)
Lemma token_expired_without_refresh :
  Listener.GetMessage Cases.svc_unauthorized
    (Listener.actionsServiceClient Scenario.loop1) "https://queue.example"
    "queue-token-1" 0 1%nat
  = (None, Some MessageQueueTokenExpiredError, 2%nat)
  ∧ (Listener.iteration Cases.svc_unauthorized Scenario.loop1 1%nat).1
    = [Listener.Polled "https://queue.example" "queue-token-1" 0;
       Listener.Handshake "" "acme" "";
       Listener.LoggedError (ErrorString "unauthorized")
         "Error: Get Actions service admin connection failed during message session refresh."]
  ∧ ∃ st,
      (Listener.iteration Cases.svc_unauthorized Scenario.loop1 1%nat).2
      = Listener.Next st 2%nat
      ∧ Listener.session st = Some Scenario.session1.
Proof.
  split; [reflexivity|]. split; [reflexivity|].
  eexists. split; reflexivity.
Qed.

Lemma poll_error_session_refresh_witness :
  (Listener.iteration Scenario.svc Scenario.loop1 4%nat)
  = ([Listener.Polled "https://queue.example" "queue-token-1" 0;
      Listener.LoggedError (ErrorString "connection reset") "Error: Get message failed."],
     Listener.Next Scenario.loop1 5%nat)
  ∧ (Listener.iteration Scenario.svc Scenario.loop1 1%nat).1
    = [Listener.Polled "https://queue.example" "queue-token-1" 0;
       Listener.Handshake "" "acme" "";
       Listener.SetAdminToken "admin-token-1";
       Listener.RefreshedSession 7 "session-a"]
  ∧ ∃ st,
      (Listener.iteration Scenario.svc Scenario.loop1 1%nat).2 = Listener.Next st 2%nat
      ∧ Listener.session st = Some Scenario.session2.
Proof.
  split.
  - destruct (poll_error_session_refresh Scenario.svc Scenario.loop1
                4%nat Scenario.session1 Scenario.conn1 None
                (ErrorString "connection reset") 5%nat)
      as (_ & _ & _ & _ & Hother & _); [reflexivity..|].
    destruct (Hother eq_refl) as [Hevents Hnext].
    rewrite (surjective_pairing (Listener.iteration Scenario.svc Scenario.loop1 4%nat)).
    by rewrite Hevents, Hnext.
  - destruct (poll_error_session_refresh Scenario.svc Scenario.loop1
                1%nat Scenario.session1 Scenario.conn1 None
                MessageQueueTokenExpiredError 2%nat)
      as (_ & _ & Hrefresh & _); [reflexivity..|].
    destruct (Hrefresh eq_refl eq_refl) as (Hevents & st & Hnext & Hsession & _).
    split; [exact Hevents|]. exists st. by split.
Defined.

Lemma dispatch_in_increasing_order_witness :
  StronglySorted Z.lt
    (Listener.dispatchedIds (Listener.run Scenario.svc 10 Scenario.loop1 0%nat).1)
  ∧ Listener.dispatchedIds (Listener.run Scenario.svc 10 Scenario.loop1 0%nat).1
    = [1; 2; 3].
Proof.
  split; [|reflexivity].
  apply (dispatch_in_increasing_order Scenario.svc).
  intros c url token cursor w m w'. unfold Scenario.svc; simpl.
  destruct (Nat.eqb w 1); [discriminate|].
  destruct (Nat.eqb w 3); [discriminate|].
  destruct (Nat.eqb w 4); [discriminate|].
  intros [= <- _]. simpl. lia.
Defined.


(* ===================================================================== *)
(** * Further properties                                                  *)
(* ===================================================================== *)

(** ** Splitting and validating the arguments *)

Section SplitFacts.

Import Github GithubLists.

Lemma Split_not_nil (sep : ascii) (s : string) : Split sep s ≠ [].
Proof.
  destruct s as [|c rest]; simpl; [done|].
  destruct (Ascii.eqb c sep); [done|]. by destruct (Split sep rest).
Qed.

Lemma Split_length (sep : ascii) (s : string) :
  length (Split sep s) = S (occurrences sep s).
Proof.
  induction s as [|c rest IH]; simpl; [done|].
  destruct (Ascii.eqb c sep); simpl; [by rewrite IH|].
  destruct (Split sep rest) as [|chunk chunks]; [done|]. exact IH.
Qed.

Lemma Split_join (sep : ascii) (s : string) :
  String.concat (String sep "") (Split sep s) = s.
Proof.
  induction s as [|c rest IH]; simpl; [done|].
  destruct (Ascii.eqb_spec c sep) as [->|Hne].
  - pose proof (Split_not_nil sep rest).
    destruct (Split sep rest) as [|chunk chunks] eqn:Hsplit; [done|].
    simpl in *. by rewrite IH.
  - destruct (Split sep rest) as [|chunk chunks] eqn:Hsplit.
    + by destruct (Split_not_nil sep rest).
    + simpl in *. destruct chunks; simpl in *; by rewrite <- IH.
Qed.

Lemma Split_chunks (sep : ascii) (s : string) :
  Forall (λ chunk, occurrences sep chunk = 0%nat) (Split sep s).
Proof.
  induction s as [|c rest IH]; simpl; [by repeat constructor|].
  destruct (Ascii.eqb_spec c sep) as [->|Hne]; [by constructor|].
  destruct (Split sep rest) as [|chunk chunks]; simpl.
  - repeat constructor. simpl. by destruct (Ascii.eqb_spec c sep).
  - inversion_clear IH as [|?? Hchunk Hchunks]. constructor; [|done].
    simpl. by destruct (Ascii.eqb_spec c sep).
Qed.

(** X1.  [splitOwnerAndRepo] succeeds exactly on the names with one slash;
    the owner and the repository it returns contain no slash and give the
    name back when joined by a slash; on failure both are empty. *)
Theorem splitOwnerAndRepo_round_trip (repo : string) :
  let '(owner, repository, err) := splitOwnerAndRepo repo in
  (err = None ↔ occurrences "/" repo = 1%nat)
  ∧ (err = None →
     (owner ++ "/" ++ repository)%string = repo
     ∧ occurrences "/" owner = 0%nat ∧ occurrences "/" repository = 0%nat)
  ∧ (err ≠ None → owner = ""%string ∧ repository = ""%string).
Proof.
  unfold splitOwnerAndRepo.
  pose proof (Split_length "/" repo) as Hlen.
  pose proof (Split_join "/" repo) as Hjoin.
  pose proof (Split_chunks "/" repo) as Hchunks.
  destruct (Split "/" repo) as [|owner [|repository [|third rest]]];
    simpl in Hlen.
  - done.
  - split; [split; [done|lia]|]. by split.
  - split; [split; [lia|done]|]. split; [|done]. intros _.
    inversion_clear Hchunks as [|?? Howner Hrest].
    inversion_clear Hrest as [|?? Hrepository _]. by simpl in Hjoin.
  - split; [split; [done|lia]|]. by split.
Qed.

Lemma splitOwnerAndRepo_round_trip_witness :
  let '(owner, repository, err) := splitOwnerAndRepo "acme/widgets" in
  err = None ∧ (owner ++ "/" ++ repository)%string = "acme/widgets"%string.
Proof.
  pose proof (splitOwnerAndRepo_round_trip "acme/widgets") as Hsplit.
  destruct (splitOwnerAndRepo "acme/widgets") as [[owner repository] err].
  destruct Hsplit as ([_ Hone] & Hjoin & _).
  specialize (Hone eq_refl). split; [exact Hone|]. by apply Hjoin.
Defined.

(** X2.  [getEnterpriseOrganizationAndRepo] accepts a non-empty repository
    with exactly one slash, or else an empty repository with a non-empty
    organization or enterprise, and nothing else.  The repository comes
    first, then the organization, then the enterprise: what it returns names
    one scope only, and an ill-formed repository is an error whatever the
    other two arguments are. *)
Theorem getEnterpriseOrganizationAndRepo_scope (enterprise org repo : string) :
  let '(enterprise', owner, repository, err) :=
    getEnterpriseOrganizationAndRepo enterprise org repo in
  (err = None
   ↔ (repo ≠ ""%string ∧ occurrences "/" repo = 1%nat)
     ∨ (repo = ""%string ∧ (org ≠ ""%string ∨ enterprise ≠ ""%string)))
  ∧ (err = None → repo ≠ ""%string →
     enterprise' = ""%string ∧ (owner ++ "/" ++ repository)%string = repo)
  ∧ (err = None → repo = ""%string → org ≠ ""%string →
     (enterprise', owner, repository) = (""%string, org, ""%string))
  ∧ (err = None → repo = ""%string → org = ""%string →
     (enterprise', owner, repository) = (enterprise, ""%string, ""%string)).
Proof.
  unfold getEnterpriseOrganizationAndRepo, nonempty.
  destruct (String.eqb_spec repo "") as [->|Hrepo]; simpl.
  - destruct (String.eqb_spec org "") as [->|Horg]; simpl.
    + destruct (String.eqb_spec enterprise "") as [->|Hent]; simpl.
      * split; [|done]. split; [done|]. intros [[? _]|[_ [?|?]]]; done.
      * split; [|done]. split; [|done]. intros _. right. split; [done|by right].
    + split; [|done]. split; [|done]. intros _. right. split; [done|by left].
  - pose proof (splitOwnerAndRepo_round_trip repo) as Hsplit.
    destruct (splitOwnerAndRepo repo) as [[owner repository] err].
    destruct Hsplit as (Hone & Hjoin & _).
    split; [|split; [|done]].
    + rewrite Hone. split; [by left|]. by intros [[_ ?]|[? _]].
    + intros Hok _. split; [done|]. by apply Hjoin.
Qed.

Lemma getEnterpriseOrganizationAndRepo_scope_witness :
  getEnterpriseOrganizationAndRepo "corp" "acme" "acme/widgets"
  = (""%string, "acme"%string, "widgets"%string, None)
  ∧ getEnterpriseOrganizationAndRepo "corp" "acme" ""
    = (""%string, "acme"%string, ""%string, None)
  ∧ (getEnterpriseOrganizationAndRepo "corp" "acme" "widgets").2 ≠ None.
Proof.
  split; [|split].
  - reflexivity.
  - pose proof (getEnterpriseOrganizationAndRepo_scope "corp" "acme" "") as Hscope.
    destruct (getEnterpriseOrganizationAndRepo "corp" "acme" "")
      as [[[enterprise' owner] repository] err].
    destruct Hscope as ([_ Hok] & _ & Horg & _).
    assert (err = None) as -> by (apply Hok; right; split; [done|by left]).
    by injection (Horg eq_refl eq_refl ltac:(discriminate)) as -> -> ->.
  - pose proof (getEnterpriseOrganizationAndRepo_scope "corp" "acme" "widgets") as Hscope.
    destruct (getEnterpriseOrganizationAndRepo "corp" "acme" "widgets")
      as [[[enterprise' owner] repository] err].
    destruct Hscope as ([Hok _] & _). simpl. intros Herr.
    destruct (Hok Herr) as [[_ Hone]|[Hrepo _]]; discriminate.
Defined.

(** X3.  A repository name that validation accepts may still have an empty
    part.  With an empty name after the slash the token request and the
    runner listing go to the organization endpoints for the owner; with an
    empty owner they go to the repository endpoints with an empty owner. *)
Theorem repository_with_an_empty_part (api : Api) (runners : RunnersApi)
    (enterprise org part : string) :
  part ≠ ""%string →
  occurrences "/" part = 0%nat →
  (getEnterpriseOrganizationAndRepo enterprise org (part ++ "/")
   = (""%string, part, ""%string, None)
   ∧ createRegistrationToken api "" part ""
     = Actions_CreateOrganizationRegistrationToken api part
   ∧ listRunners runners "" part "" = Actions_ListOrganizationRunners runners part)
  ∧ (getEnterpriseOrganizationAndRepo enterprise org ("/" ++ part)
     = (""%string, ""%string, part, None)
     ∧ createRegistrationToken api "" "" part
       = Actions_CreateRegistrationToken api "" part
     ∧ listRunners runners "" "" part = Actions_ListRunners runners "" part).
Proof.
  intros Hpart Hslash.
  assert (nonempty part = true) as Hne.
  { unfold nonempty. by destruct (String.eqb_spec part ""). }
  assert (Split "/" (part ++ "/") = [part; ""%string]) as Hright.
  { clear Hpart Hne. induction part as [|c part IH]; simpl in *; [done|].
    destruct (Ascii.eqb_spec c "/") as [|Hc]; [done|]. by rewrite IH. }
  assert (Split "/" part = [part]) as Hleft.
  { clear Hpart Hne Hright. induction part as [|c part IH]; simpl in *; [done|].
    destruct (Ascii.eqb_spec c "/") as [|Hc]; [done|]. by rewrite IH. }
  split.
  - unfold getEnterpriseOrganizationAndRepo, splitOwnerAndRepo,
      createRegistrationToken, listRunners.
    rewrite Hright. simpl. rewrite Hne.
    destruct part; [done|]. by simpl.
  - unfold getEnterpriseOrganizationAndRepo, splitOwnerAndRepo,
      createRegistrationToken, listRunners.
    change (Split "/" ("/" ++ part)) with (""%string :: Split "/" part).
    rewrite Hleft. simpl. by rewrite Hne.
Qed.

Lemma repository_with_an_empty_part_witness :
  getEnterpriseOrganizationAndRepo "" "" "acme/" = (""%string, "acme"%string, ""%string, None)
  ∧ createRegistrationToken Scenario.api "" "acme" ""
    = Actions_CreateOrganizationRegistrationToken Scenario.api "acme".
Proof.
  destruct (repository_with_an_empty_part Scenario.api
              (mkRunnersApi (λ _ _ _ _, PageOk [] 0) (λ _ _ _, PageOk [] 0)
                            (λ _ _ _, PageOk [] 0))
              "" "" "acme") as [(Hvalid & Htoken & _) _]; [discriminate|reflexivity|].
  by split.
Defined.

End SplitFacts.

(** ** The registration-token cache, continued *)

Section CacheMore.

Import Github GithubLists.

Lemma append_first_separator (c : ascii) (a1 a2 r1 r2 : string) :
  occurrences c a1 = 0%nat → occurrences c a2 = 0%nat →
  (a1 ++ String c r1)%string = (a2 ++ String c r2)%string →
  a1 = a2 ∧ r1 = r2.
Proof.
  revert a2. induction a1 as [|x a1 IH]; intros [|y a2]; simpl.
  - by intros _ _ [= ->].
  - destruct (Ascii.eqb_spec y c) as [->|Hy]; [done|]. intros _ _ [= Heq _]. congruence.
  - destruct (Ascii.eqb_spec x c) as [->|Hx]; [done|]. intros _ _ [= Heq _]. congruence.
  - destruct (Ascii.eqb_spec x c); [done|]. destruct (Ascii.eqb_spec y c); [done|].
    intros H1 H2 [= -> Heq]. destruct (IH a2 H1 H2 Heq) as [-> ->]. done.
Qed.

(** X4.  Two argument triples whose organizations and repositories contain
    no comma get the same cache key only when they are the same triple. *)
Theorem getRegistrationKey_injective (org1 repo1 enterprise1 org2 repo2 enterprise2 : string) :
  occurrences "," org1 = 0%nat → occurrences "," org2 = 0%nat →
  occurrences "," repo1 = 0%nat → occurrences "," repo2 = 0%nat →
  getRegistrationKey org1 repo1 enterprise1 = getRegistrationKey org2 repo2 enterprise2 →
  org1 = org2 ∧ repo1 = repo2 ∧ enterprise1 = enterprise2.
Proof.
  intros Ho1 Ho2 Hr1 Hr2. unfold getRegistrationKey. simpl.
  intros [= Heq].
  apply (append_first_separator "," org1 org2) in Heq as [-> Heq]; [|done..].
  injection Heq as Heq.
  apply (append_first_separator "," repo1 repo2) in Heq as [-> Heq]; [|done..].
  by injection Heq as ->.
Qed.

Lemma getRegistrationKey_injective_witness :
  getRegistrationKey "acme" "" "" ≠ getRegistrationKey "" "acme/widgets" "".
Proof.
  intros Heq.
  destruct (getRegistrationKey_injective "acme" "" "" "" "acme/widgets" "")
    as (Horg & _); [reflexivity..|exact Heq|discriminate Horg].
Defined.

Variable api : Api.
Variable now : GoTime.Time.
Variable regTokens : gmap string RegistrationToken.
Variables enterprise org repo name : string.

Local Abbreviation key := (getRegistrationKey org repo enterprise).
Local Abbreviation got :=
  (GetRegistrationToken api now regTokens enterprise org repo name).

(** After a call that succeeds, the token returned is the one in the map. *)
Lemma GetRegistrationToken_stored (tok : RegistrationToken) :
  got_err got = None → got_token got = Some tok →
  got_regTokens got !! key = Some tok.
Proof.
  unfold GetRegistrationToken.
  destruct (regTokens !! key) as [cachedTok|] eqn:Hlook; simpl.
  - destruct (GoTime.After _ _); simpl; [by intros _ [= <-]|].
    destruct (getEnterpriseOrganizationAndRepo enterprise org repo)
      as [[[e o] r] [err|]]; simpl; [done|].
    destruct (createRegistrationToken api e o r) as [err|fresh code]; simpl; [done|].
    destruct (negb (code =? 201)); simpl; [done|].
    intros _ [= <-]. apply lookup_insert_eq.
  - destruct (getEnterpriseOrganizationAndRepo enterprise org repo)
      as [[[e o] r] [err|]]; simpl; [done|].
    destruct (createRegistrationToken api e o r) as [err|fresh code]; simpl; [done|].
    destruct (negb (code =? 201)); simpl; [done|].
    intros _ [= <-]. apply lookup_insert_eq.
Qed.

(** X5.  After a call that succeeded, a call for the same arguments made
    while the token returned still has more than 30 minutes to live is
    served from the map: it returns the same token, asks no endpoint (so the
    answer does not depend on the API), and leaves the map alone. *)
Theorem GetRegistrationToken_then_cached (tok : RegistrationToken)
    (api' : Api) (later : GoTime.Time) (name' : string) :
  got_err got = None → got_token got = Some tok →
  later + runnerStartupTimeout < GetExpiresAt tok →
  GetRegistrationToken api' later (got_regTokens got) enterprise org repo name'
  = mkGot (Some tok) None (got_regTokens got) [Lock; MapRead key; Unlock].
Proof.
  intros Hok Htok Hlive.
  apply GetRegistrationToken_hit; [|exact Hlive].
  by apply GetRegistrationToken_stored.
Qed.

(** X6.  A call changes no entry but that of its own key, and changes
    nothing at all when it returns an error. *)
Theorem GetRegistrationToken_other_keys :
  (∀ k, k ≠ getRegistrationKey org repo enterprise →
        got_regTokens (GetRegistrationToken api now regTokens enterprise org repo name) !! k
        = regTokens !! k)
  ∧ (got_err (GetRegistrationToken api now regTokens enterprise org repo name) ≠ None →
     got_regTokens (GetRegistrationToken api now regTokens enterprise org repo name)
     = regTokens).
Proof.
  unfold GetRegistrationToken.
  destruct (match regTokens !! key with Some _ => _ | None => _ end); simpl; [done|].
  destruct (getEnterpriseOrganizationAndRepo enterprise org repo)
    as [[[e o] r] [err|]]; simpl; [done|].
  destruct (createRegistrationToken api e o r) as [err|fresh code]; simpl; [done|].
  destruct (negb (code =? 201)); simpl; [done|].
  split; [|done]. intros k Hk. by apply lookup_insert_ne.
Qed.

(** X7.  [cleanup] never removes a token that [GetRegistrationToken] would
    still serve: when the cache holds a token with more than 30 minutes to
    live at [now], the call returns it after a [cleanup] run at any time up
    to [now] plus 30 minutes, just as before. *)
Theorem cleanup_keeps_served_tokens (tok : RegistrationToken) (swept : GoTime.Time) :
  regTokens !! key = Some tok →
  now + runnerStartupTimeout < GetExpiresAt tok →
  swept ≤ now + runnerStartupTimeout →
  let got' := GetRegistrationToken api now (cleanup swept regTokens).1
                enterprise org repo name in
  got_token got' = Some tok ∧ got_err got' = None
  ∧ got_events got' = got_events got
  ∧ got_regTokens got' = (cleanup swept regTokens).1.
Proof.
  intros Hlook Hlive Hswept got'.
  assert ((cleanup swept regTokens).1 !! key = Some tok) as Hkept.
  { apply cleanup_lookup. split; [done|lia]. }
  unfold got'.
  rewrite (GetRegistrationToken_hit api now _ enterprise org repo name tok Hkept Hlive).
  rewrite (GetRegistrationToken_hit api now _ enterprise org repo name tok Hlook Hlive).
  done.
Qed.

(** X8.  [cleanup] only removes entries; run again at the same time it
    finds nothing to delete, and a later run makes an earlier one
    redundant. *)
Theorem cleanup_composes (swept later : GoTime.Time) :
  (cleanup swept regTokens).1 ⊆ regTokens
  ∧ cleanup swept (cleanup swept regTokens).1
    = ((cleanup swept regTokens).1, [Lock; Unlock])
  ∧ (swept ≤ later →
     (cleanup later (cleanup swept regTokens).1).1 = (cleanup later regTokens).1).
Proof.
  split; [apply map_filter_subseteq|]. split.
  - unfold cleanup, expired; simpl. f_equal.
    + apply map_eq. intros k. apply option_eq. intros tok.
      rewrite !map_lookup_filter_Some. tauto.
    + assert (filter (λ kv : string * RegistrationToken,
                        GoTime.Before (GetExpiresAt kv.2) swept = true)
                (filter (λ kv : string * RegistrationToken,
                           ¬ GoTime.Before (GetExpiresAt kv.2) swept = true) regTokens)
              = ∅) as ->.
      { apply map_empty. intros k. apply map_lookup_filter_None. right.
        intros tok [_ Hkeep]%map_lookup_filter_Some. done. }
      by rewrite map_to_list_empty.
  - intros Hle. unfold cleanup; simpl.
    apply map_eq. intros k. apply option_eq. intros tok.
    rewrite !map_lookup_filter_Some. simpl. unfold GoTime.Before.
    split; [tauto|]. intros [Hlook Hkeep]. repeat split; [done| |done].
    destruct (Z.ltb_spec (GetExpiresAt tok) later); [done|].
    destruct (Z.ltb_spec (GetExpiresAt tok) swept); [lia|done].
Qed.

End CacheMore.

Lemma GetRegistrationToken_then_cached_witness :
  Github.GetRegistrationToken Scenario.api (Scenario.clock + 60)
      (Github.got_regTokens
         (Github.GetRegistrationToken Scenario.api Scenario.clock Scenario.cache_stale
            "" "acme" "" "runner-1"))
      "" "acme" "" "runner-2"
  = Github.mkGot (Some Scenario.tok_fresh) None
      (<[Scenario.acme_key := Scenario.tok_fresh]> Scenario.cache_stale)
      [Github.Lock; Github.MapRead Scenario.acme_key; Github.Unlock].
Proof.
  apply (GetRegistrationToken_then_cached Scenario.api Scenario.clock Scenario.cache_stale
           "" "acme" "" "runner-1" Scenario.tok_fresh Scenario.api
           (Scenario.clock + 60) "runner-2"); reflexivity.
Defined.

Lemma GetRegistrationToken_other_keys_witness :
  Github.got_regTokens
    (Github.GetRegistrationToken Scenario.api Scenario.clock Scenario.cache_stale
       "" "globex" "" "runner-1") !! Scenario.acme_key
  = Some Scenario.tok_stale.
Proof.
  destruct (GetRegistrationToken_other_keys Scenario.api Scenario.clock
              Scenario.cache_stale "" "globex" "" "runner-1") as [Hother _].
  rewrite Hother; [reflexivity|discriminate].
Defined.

Lemma cleanup_keeps_served_tokens_witness :
  Github.got_token
    (Github.GetRegistrationToken Scenario.api Scenario.clock
       (Github.cleanup (Scenario.clock + 60) Scenario.cache_fresh).1
       "" "acme" "" "runner-1")
  = Some Scenario.tok_fresh.
Proof.
  apply (cleanup_keeps_served_tokens Scenario.api Scenario.clock Scenario.cache_fresh
           "" "acme" "" "runner-1" Scenario.tok_fresh (Scenario.clock + 60));
    [reflexivity | reflexivity | by vm_compute].
Defined.

Lemma cleanup_composes_witness :
  (Github.cleanup (Scenario.clock + 60)
     (Github.cleanup Scenario.clock Scenario.cache_stale).1).1
  = (Github.cleanup (Scenario.clock + 60) Scenario.cache_stale).1.
Proof.
  apply (cleanup_composes Scenario.cache_stale Scenario.clock (Scenario.clock + 60)).
  by vm_compute.
Defined.

(** ** The paged listings *)

Section ListingFacts.

Import Github GithubLists.

(** A listing whose requests are answered by [pages] returns their items in
    order, after what it had already. *)
Lemma paginate_served {A : Type} (fetch : nat -> Z -> PageAnswer A)
    (onError : list A -> error -> list A * option error) (pages : list (list A)) :
  ∀ (fuel k : nat) (page : Z) (items : list A),
    served fetch k page pages →
    (length pages ≤ fuel)%nat →
    paginate fuel fetch onError k page items = Some (items ++ concat pages, None).
Proof.
  induction pages as [|first rest IH]; intros fuel k page items; simpl; [done|].
  destruct fuel as [|fuel]; [lia|]. simpl.
  destruct rest as [|second rest].
  - intros -> _. simpl. by rewrite app_nil_r.
  - intros (NextPage & Hnext & -> & Hrest) Hlen.
    destruct (Z.eqb_spec NextPage 0) as [|_]; [done|].
    rewrite (IH fuel (S k) NextPage (items ++ first) Hrest); [|simpl in *; lia].
    by rewrite <- app_assoc.
Qed.

(** A listing that returns an error returns what [onError] makes of the
    items listed so far and of the error of a request. *)
Lemma paginate_failure {A : Type} (fetch : nat -> Z -> PageAnswer A)
    (onError : list A -> error -> list A * option error) :
  ∀ (fuel k : nat) (page : Z) (items result : list A) (e : error),
    paginate fuel fetch onError k page items = Some (result, Some e) →
    ∃ k' page' listed cause,
      fetch k' page' = PageError cause ∧ onError listed cause = (result, Some e).
Proof.
  induction fuel as [|fuel IH]; intros k page items result e; simpl; [done|].
  destruct (fetch k page) as [cause|list NextPage] eqn:Hfetch.
  - intros [= Herr]. by exists k, page, items, cause.
  - destruct (NextPage =? 0); [done|]. apply IH.
Qed.

Lemma validation_error_is_plain (enterprise org repo : string) (e : error) :
  (getEnterpriseOrganizationAndRepo enterprise org repo).2 = Some e →
  ∃ msg, e = ErrorString msg.
Proof.
  unfold getEnterpriseOrganizationAndRepo, splitOwnerAndRepo.
  destruct (nonempty repo).
  - destruct (Split "/" repo) as [|owner [|repository [|third rest]]]; simpl;
      intros [= <-]; eauto.
  - destruct (nonempty org); [done|]. destruct (nonempty enterprise); [done|].
    simpl. intros [= <-]; eauto.
Qed.

(** X9.  When the API serves the runners on pages, each but the last
    announcing a next page, [ListRunners] returns the runners of all pages
    in the order of the pages, provided the arguments are valid. *)
Theorem ListRunners_all_pages (fuel : nat) (api : RunnersApi)
    (enterprise org repo enterprise' owner repo' : string)
    (pages : list (list Runner)) :
  getEnterpriseOrganizationAndRepo enterprise org repo = (enterprise', owner, repo', None) →
  served (listRunners api enterprise' owner repo') 0 0 pages →
  (length pages ≤ fuel)%nat →
  ListRunners fuel api enterprise org repo = Some (concat pages, None).
Proof.
  intros Hvalid Hserved Hfuel. unfold ListRunners. rewrite Hvalid.
  by rewrite (paginate_served _ _ pages fuel 0 0 [] Hserved Hfuel).
Qed.

(** X10.  When [ListRunners] fails, [IsRunnerBusy] returns false and the
    error of [ListRunners].  That error is the validation error, a plain
    one, or it wraps the error of the failed request, and then [errors.As]
    finds in it what it finds in the error of the request, for each target
    type.  The requests of this client fail with the rate-limit error of
    go-github v39: it is found with the v39 target and not with the v33
    target of the reconciler, whose probe then returns the error with an
    empty result, not asking for the rate-limit delay. *)
Theorem ListRunners_failure (fuel : nat) (api : RunnersApi)
    (enterprise org repo : string) (runners : list Runner) (e : error) (name : string) :
  ListRunners fuel api enterprise org repo = Some (runners, Some e) →
  IsRunnerBusy (runners, Some e) name = (false, Some e)
  ∧ (((getEnterpriseOrganizationAndRepo enterprise org repo).2 = Some e
      ∧ runners = []
      ∧ As_RateLimitError e = false ∧ As_RateLimitError_v39 e = false
      ∧ As_RunnerNotFound e = false ∧ As_RunnerOffline e = false)
     ∨ (∃ enterprise' owner repo' k page cause,
          getEnterpriseOrganizationAndRepo enterprise org repo
          = (enterprise', owner, repo', None)
          ∧ listRunners api enterprise' owner repo' k page = PageError cause
          ∧ e = WrapError "failed to list runners: " cause
          ∧ As_RateLimitError_v39 e = As_RateLimitError_v39 cause
          ∧ As_RateLimitError e = As_RateLimitError cause
          ∧ As_RunnerNotFound e = As_RunnerNotFound cause
          ∧ As_RunnerOffline e = As_RunnerOffline cause))
  ∧ (e = WrapError "failed to list runners: " RateLimitError_v39 →
     As_RateLimitError_v39 e = true
     ∧ As_RateLimitError e = false
     ∧ ∀ (delay : GoTime.Duration) (env : Controllers.Env) (i : nat)
         (runner : Controllers.Runner) (notBusy : list Controllers.Runner),
         Controllers.ListRunners env i (Controllers.Enterprise runner)
           (Controllers.Organization runner) (Controllers.Repository runner)
         = (runners, Some e) →
         Controllers.probeRunner delay env i runner notBusy
         = Controllers.Return Controllers.emptyResult (Some e)).
Proof.
  intros Hlist. split; [done|]. split.
  - unfold ListRunners in Hlist.
    pose proof (validation_error_is_plain enterprise org repo) as Hplain.
    destruct (getEnterpriseOrganizationAndRepo enterprise org repo)
      as [[[enterprise' owner] repo'] [err|]]; simpl in *.
    + injection Hlist as <- <-. left. destruct (Hplain err eq_refl) as [msg ->]. done.
    + right.
      apply paginate_failure in Hlist as (k & page & listed & cause & Hfetch & [= <- <-]).
      by exists enterprise', owner, repo', k, page, cause.
  - intros ->. split; [done|]. split; [done|].
    intros delay env i runner notBusy Hprobe.
    unfold Controllers.probeRunner, Controllers.probe. by rewrite Hprobe.
Qed.

(** X11.  [ListRepositoryWorkflowRuns] returns the queued runs followed by
    the runs in progress.  When it fails it returns no run, and its error
    does not contain the error of the failed request: [errors.As] finds no
    rate-limit error in it, of go-github v33 or of v39. *)
Theorem ListRepositoryWorkflowRuns_result (fuel : nat)
    (fetch : string -> string -> string -> nat -> Z -> PageAnswer Z)
    (user repoName : string) :
  (∀ queued inProgress,
     served (fetch user repoName "queued"%string) 0 0 queued →
     served (fetch user repoName "in_progress"%string) 0 0 inProgress →
     (length queued ≤ fuel)%nat → (length inProgress ≤ fuel)%nat →
     ListRepositoryWorkflowRuns fuel fetch user repoName
     = Some (concat queued ++ concat inProgress, None))
  ∧ (∀ runs e,
       ListRepositoryWorkflowRuns fuel fetch user repoName = Some (runs, Some e) →
       runs = [] ∧ As_RateLimitError e = false ∧ As_RateLimitError_v39 e = false).
Proof.
  split.
  - intros queued inProgress Hq Hp Hlq Hlp.
    unfold ListRepositoryWorkflowRuns, listRepositoryWorkflowRuns.
    rewrite (paginate_served _ _ queued fuel 0 0 [] Hq Hlq).
    by rewrite (paginate_served _ _ inProgress fuel 0 0 [] Hp Hlp).
  - intros runs e. unfold ListRepositoryWorkflowRuns, listRepositoryWorkflowRuns.
    destruct (paginate fuel (fetch user repoName "queued") _ 0 0 [])
      as [[queued [qerr|]]|] eqn:Hq; [| |done].
    + apply paginate_failure in Hq as (_ & _ & _ & _ & _ & [= _ <-]).
      by intros [= <- <-].
    + destruct (paginate fuel (fetch user repoName "in_progress") _ 0 0 [])
        as [[inProgress [perr|]]|] eqn:Hp; [|done..].
      apply paginate_failure in Hp as (_ & _ & _ & _ & _ & [= _ <-]).
      by intros [= <- <-].
Qed.

End ListingFacts.

Lemma ListRunners_all_pages_witness :
  GithubLists.ListRunners 5 Cases.runners_api "" "acme" ""
  = Some ([Scenario.gh_alpha; Scenario.gh_beta], None).
Proof.
  apply (ListRunners_all_pages 5 Cases.runners_api "" "acme" "" "" "acme" ""
           [[Scenario.gh_alpha]; [Scenario.gh_beta]]).
  - reflexivity.
  - exists 2. by repeat split.
  - simpl. lia.
Defined.

Lemma ListRunners_failure_witness :
  GithubLists.ListRunners 5 Cases.limited_api "" "acme" ""
  = Some ([Scenario.gh_alpha], Some Cases.limitedListing)
  ∧ Github.IsRunnerBusy ([Scenario.gh_alpha], Some Cases.limitedListing) "alpha"
    = (false, Some Cases.limitedListing)
  ∧ As_RateLimitError Cases.limitedListing = false
  ∧ Controllers.probeRunner Scenario.retryDelay Cases.env_limited_listing 0
      (Scenario.pod "busy-1" 0) []
    = Controllers.Return Controllers.emptyResult (Some Cases.limitedListing)
  ∧ Controllers.Reconcile Scenario.retryDelay Cases.env_limited_listing
    = ([], Controllers.Returned Controllers.emptyResult (Some Cases.limitedListing)).
Proof.
  split; [reflexivity|].
  destruct (ListRunners_failure 5 Cases.limited_api "" "acme" "" [Scenario.gh_alpha]
              Cases.limitedListing "alpha" eq_refl) as (Hbusy & _ & Hv39).
  destruct (Hv39 eq_refl) as (_ & Hv33 & Hprobe).
  split; [exact Hbusy|]. split; [exact Hv33|].
  split; [by apply Hprobe | reflexivity].
Defined.

Lemma ListRepositoryWorkflowRuns_result_witness :
  GithubLists.ListRepositoryWorkflowRuns 5 Cases.workflowRuns "acme" "widgets"
  = Some ([11; 12; 21], None)
  ∧ ∃ e, GithubLists.ListRepositoryWorkflowRuns 5 Cases.limitedWorkflowRuns "acme" "widgets"
         = Some ([], Some e)
         ∧ As_RateLimitError e = false.
Proof.
  destruct (ListRepositoryWorkflowRuns_result 5 Cases.workflowRuns "acme" "widgets")
    as [Hall _].
  split.
  - apply (Hall [[11]; [12]] [[21]]); [by exists 3 | done | simpl; lia | simpl; lia].
  - destruct (ListRepositoryWorkflowRuns_result 5 Cases.limitedWorkflowRuns "acme" "widgets")
      as [_ Hfail].
    eexists. split; [reflexivity|]. by eapply Hfail.
Defined.

(** ** The reconciler, continued *)

Section PassFacts.

Import Controllers Pass.

Variable delay : GoTime.Duration.
Variable env : Env.

Lemma ownedRunners_counts (rs : RunnerReplicaSet) (items : list Runner) :
  ∀ (myRunners : list Runner) (available ready : Z),
    ownedRunners rs items (myRunners, available, ready)
    = (myRunners ++ List.filter (λ r, IsControlledBy r rs) items,
       available + Z.of_nat (length (List.filter (λ r, IsControlledBy r rs) items)),
       ready + Z.of_nat (length (List.filter (λ r, String.eqb (Phase r) PodRunning)
                                   (List.filter (λ r, IsControlledBy r rs) items)))).
Proof.
  induction items as [|r rest IH]; intros myRunners available ready; simpl.
  - by rewrite app_nil_r, !Z.add_0_r.
  - destruct (IsControlledBy r rs); [|apply IH].
    rewrite IH, <- app_assoc. simpl.
    destruct (String.eqb (Phase r) PodRunning); simpl length;
      rewrite !Nat2Z.inj_succ, <- !Z.add_1_l, !Z.add_assoc;
      by rewrite ?(Z.add_comm available 1), ?(Z.add_comm ready 1).
Qed.

(** The two shapes of a pass: it returns before looking at the runners,
    having written nothing, or it is a scaling branch followed by the
    status update, for the counts found when the pass began. *)
Lemma Reconcile_shape :
  ((Reconcile delay env).1 = []
   ∧ (∃ res err, (Reconcile delay env).2 = Returned res err)
   ∧ ¬ ∃ rs, reachesScaling env rs)
  ∨ (∃ rs, reachesScaling env rs
           ∧ let myRunners := myRunnersOf env rs in
             let available := Z.of_nat (length myRunners) in
             let ready := Z.of_nat (length (readyRunnersOf env rs)) in
             let desired := desiredReplicas rs in
             Reconcile delay env
             = let '(effects, out) :=
                 if desired <? available then
                   scaleDown delay env rs myRunners available desired
                 else if available <? desired then scaleUp env rs available desired
                 else ([], None) in
               match out with
               | Some out => (effects, out)
               | None =>
                   let '(effects', out) := updateStatus env rs available ready in
                   (effects ++ effects', out)
               end).
Proof.
  unfold Reconcile, reachesScaling, readyRunnersOf, myRunnersOf.
  destruct (Get env) as [rs|err] eqn:Hget.
  2:{ left. split; [done|]. split; [eauto|]. by intros (rs & [=] & _). }
  destruct (IsZero (rs_DeletionTimestamp rs)) eqn:Hzero; simpl.
  2:{ left. split; [done|]. split; [eauto|].
      intros (rs' & [= <-] & Hz & _). congruence. }
  destruct (List env) as [items listErr]. simpl.
  rewrite ownedRunners_counts. simpl.
  destruct listErr as [err|].
  - destruct (IsNotFound err) eqn:Hnf.
    + right. exists rs. by repeat split.
    + left. split; [done|]. split; [eauto|].
      intros (rs' & [= <-] & _ & Hl). congruence.
  - right. exists rs. by repeat split.
Qed.

Lemma reachesScaling_unique (rs rs' : RunnerReplicaSet) :
  reachesScaling env rs → reachesScaling env rs' → rs = rs'.
Proof. intros [H _] [H' _]. congruence. Qed.

Lemma deleteLoop_in_range (rs : RunnerReplicaSet) (myRunners notBusy : list Runner) :
  (length notBusy ≤ length myRunners)%nat →
  ∀ (todo i : nat),
    (i + todo ≤ length notBusy)%nat →
    (deleteLoop env todo i rs myRunners notBusy).2 ≠ Some Panicked
    ∧ recordedMessages (deleteLoop env todo i rs myRunners notBusy).1
      = (λ r, "Deleted runner '" ++ Name r ++ "'")%string
        <$> take (length (deletedRunners (deleteLoop env todo i rs myRunners notBusy).1))
                 (drop i myRunners).
Proof.
  intros Hlen. induction todo as [|todo IH]; intros i Hi; simpl; [done|].
  destruct (lookup_lt_is_Some_2 notBusy i) as [victim Hvictim]; [lia|].
  destruct (lookup_lt_is_Some_2 myRunners i) as [named Hnamed]; [lia|].
  rewrite Hvictim.
  destruct (IgnoreNotFound (Delete env i victim)); [done|].
  rewrite Hnamed. specialize (IH (S i)).
  destruct (deleteLoop env todo (S i) rs myRunners notBusy) as [effects out].
  cbn [fst snd] in *. destruct IH as [Hpanic Hmsg]; [lia|]. split; [done|].
  rewrite deletedRunners_deletion, (drop_S _ _ _ Hnamed).
  assert (∀ err, recordedMessages
                   (deletion err victim
                    :: RecordedEvent "RunnerDeleted"
                         ("Deleted runner '" ++ Name named ++ "'")
                    :: effects)
                 = ("Deleted runner '" ++ Name named ++ "'")%string
                   :: recordedMessages effects) as -> by (by intros [?|]).
  by rewrite Hmsg.
Qed.

Lemma createLoop_no_panic (rs : RunnerReplicaSet) :
  ∀ (todo i : nat), (createLoop env todo i rs).2 ≠ Some Panicked.
Proof.
  induction todo as [|todo IH]; intros i; simpl; [done|].
  destruct (newRunner env rs) as [runner [err|]]; [done|].
  destruct (Create env i runner); [done|].
  specialize (IH (S i)). by destruct (createLoop env todo (S i) rs).
Qed.

(** In the scale-down branch the indices stay in range, and the events
    name the first runners of [myRunners], one for each runner deleted. *)
Lemma scaleDown_in_range (rs : RunnerReplicaSet) (myRunners : list Runner)
    (available desired : Z) :
  (scaleDown delay env rs myRunners available desired).2 ≠ Some Panicked
  ∧ recordedMessages (scaleDown delay env rs myRunners available desired).1
    = (λ r, "Deleted runner '" ++ Name r ++ "'")%string
      <$> take (length (deletedRunners
                          (scaleDown delay env rs myRunners available desired).1))
               myRunners.
Proof.
  unfold scaleDown.
  destruct (probeLoop delay env 0 myRunners []) as [notBusy|res err] eqn:Hprobe;
    [|done].
  apply probeLoop_Continue in Hprobe. simpl in Hprobe. subst notBusy.
  pose proof (candidates_length env myRunners 0) as Hlen.
  rewrite <- (drop_0 myRunners) at 4.
  apply deleteLoop_in_range; [done|].
  destruct (Z.ltb_spec (Z.of_nat (length (candidates env 0 myRunners)))
              (excess available desired)); lia.
Qed.

(** X12.  [Reconcile] never indexes [notBusy] or [myRunners] out of range:
    whatever the API server and GitHub answer, it returns. *)
Theorem Reconcile_never_panics : (Reconcile delay env).2 ≠ Panicked.
Proof.
  destruct Reconcile_shape as [(_ & (res & err & ->) & _)|(rs & Hreach & ->)]; [done|].
  simpl.
  set (myRunners := myRunnersOf env rs).
  set (available := Z.of_nat (length myRunners)).
  set (ready := Z.of_nat (length (readyRunnersOf env rs))).
  assert (∀ effects (out : option Outcome),
            out ≠ Some Panicked →
            (match out with
             | Some out => (effects, out)
             | None => let '(effects', out) := updateStatus env rs available ready in
                       (effects ++ effects', out)
             end).2 ≠ Panicked) as Htail.
  { intros effects [out|] Hout; simpl; [congruence|].
    unfold updateStatus. destruct (_ || _); [|done].
    by destruct (StatusUpdate env available ready). }
  destruct (desiredReplicas rs <? available).
  - pose proof (scaleDown_in_range rs myRunners available (desiredReplicas rs)) as [Hsd _].
    destruct (scaleDown delay env rs myRunners available (desiredReplicas rs))
      as [effects out].
    by apply (Htail effects out).
  - destruct (available <? desiredReplicas rs); [|by apply (Htail [] None)].
    unfold scaleUp.
    pose proof (createLoop_no_panic rs
                  (Z.to_nat (wrap64 (desiredReplicas rs - available))) 0) as Hup.
    destruct (createLoop env _ 0 rs) as [effects out]. by apply (Htail effects out).
Qed.

(** X13.  A pass never both deletes and creates runners. *)
Theorem Reconcile_deletes_or_creates :
  deletedRunners (Reconcile delay env).1 = []
  ∨ createdRunners (Reconcile delay env).1 = [].
Proof.
  destruct Reconcile_shape as [(-> & _)|(rs & Hreach & ->)]; [by left|].
  simpl.
  set (myRunners := myRunnersOf env rs).
  set (available := Z.of_nat (length myRunners)).
  set (ready := Z.of_nat (length (readyRunnersOf env rs))).
  pose proof (updateStatus_quiet env rs available ready) as [Hd Hc].
  destruct (updateStatus env rs available ready) as [effects' out'].
  simpl in Hd, Hc.
  destruct (desiredReplicas rs <? available).
  - right.
    destruct (scaleDown delay env rs myRunners available (desiredReplicas rs))
      as [effects out] eqn:Hsd.
    destruct (scaleDown_deleted _ _ _ _ _ _ _ _ Hsd) as (Hcr & _).
    destruct out; simpl; [done|].
    unfold createdRunners in *. by rewrite omap_app, Hcr, Hc.
  - left. destruct (available <? desiredReplicas rs).
    + unfold scaleUp.
      destruct (createLoop env _ 0 rs) as [effects out] eqn:Hup.
      destruct (createLoop_created _ _ _ _ _ _ Hup) as (Hdel & _).
      destruct out; simpl; [done|].
      unfold deletedRunners in *. by rewrite omap_app, Hdel, Hd.
    + done.
Qed.

End PassFacts.

Section PassFacts2.

Import Controllers Pass.

Variable delay : GoTime.Duration.
Variable env : Env.

Lemma deleteLoop_statusWritten (rs : RunnerReplicaSet) (myRunners notBusy : list Runner) :
  ∀ (todo i : nat), statusWritten (deleteLoop env todo i rs myRunners notBusy).1 = [].
Proof.
  induction todo as [|todo IH]; intros i; simpl; [done|].
  destruct (notBusy !! i) as [victim|]; [|done].
  destruct (IgnoreNotFound (Delete env i victim)); [done|].
  destruct (myRunners !! i); [|by destruct (Delete env i victim)].
  specialize (IH (S i)).
  destruct (deleteLoop env todo (S i) rs myRunners notBusy) as [effects out].
  simpl in *. by destruct (Delete env i victim).
Qed.

Lemma createLoop_quiet (rs : RunnerReplicaSet) :
  ∀ (todo i : nat),
    statusWritten (createLoop env todo i rs).1 = []
    ∧ recordedMessages (createLoop env todo i rs).1 = [].
Proof.
  induction todo as [|todo IH]; intros i; simpl; [done|].
  destruct (newRunner env rs) as [runner [err|]]; [done|].
  destruct (Create env i runner); [done|].
  specialize (IH (S i)). by destruct (createLoop env todo (S i) rs).
Qed.

Lemma scaleDown_statusWritten (rs : RunnerReplicaSet) (myRunners : list Runner)
    (available desired : Z) :
  statusWritten (scaleDown delay env rs myRunners available desired).1 = [].
Proof.
  unfold scaleDown. destruct (probeLoop delay env 0 myRunners []); [|done].
  apply deleteLoop_statusWritten.
Qed.

(** When every call succeeds, the create loop creates that many copies of
    the runner [newRunner] makes. *)
Lemma createLoop_all (rs : RunnerReplicaSet) :
  writesSucceed env →
  ∀ (todo i : nat),
    createLoop env todo i rs
    = (Created <$> replicate todo (newRunner env rs).1, None).
Proof.
  intros (_ & Hset & Hcreate). induction todo as [|todo IH]; intros i; simpl; [done|].
  unfold newRunner in *. rewrite Hset in *. simpl in *.
  by rewrite Hcreate, IH.
Qed.

(** X14.  A pass writes to the API server only when it gets as far as
    scaling and finds something to change: the desired count differs from
    the number of runners, or the status differs from the counts. *)
Theorem Reconcile_writes_only_when_needed :
  (Reconcile delay env).1 ≠ [] →
  ∃ rs, reachesScaling env rs
        ∧ (desiredReplicas rs ≠ Z.of_nat (length (myRunnersOf env rs))
           ∨ rs_AvailableReplicas rs ≠ Z.of_nat (length (myRunnersOf env rs))
           ∨ rs_ReadyReplicas rs ≠ Z.of_nat (length (readyRunnersOf env rs))).
Proof.
  destruct (Reconcile_shape delay env) as [(-> & _)|(rs & Hreach & ->)]; [done|].
  simpl. intros Hwrites. exists rs. split; [done|].
  destruct (Z.eq_dec (desiredReplicas rs) (Z.of_nat (length (myRunnersOf env rs))))
    as [Hsame|]; [|by left].
  destruct (Z.eq_dec (rs_AvailableReplicas rs) (Z.of_nat (length (myRunnersOf env rs))))
    as [Ha|]; [|by right; left].
  destruct (Z.eq_dec (rs_ReadyReplicas rs) (Z.of_nat (length (readyRunnersOf env rs))))
    as [Hr|]; [|by right; right].
  exfalso. apply Hwrites.
  rewrite Hsame, Z.ltb_irrefl. simpl. unfold updateStatus.
  by rewrite Ha, Hr, !Z.eqb_refl.
Qed.

(** X15.  The status a pass writes is the number of runners the replica set
    controlled and the number of those in phase Running when the pass
    began, whatever the pass deleted or created since; it is written at
    most once, only when it differs from the status read, and always then
    when the pass ends without error. *)
Theorem Reconcile_status (rs : RunnerReplicaSet) :
  reachesScaling env rs →
  let available := Z.of_nat (length (myRunnersOf env rs)) in
  let ready := Z.of_nat (length (readyRunnersOf env rs)) in
  let changed := rs_AvailableReplicas rs ≠ available ∨ rs_ReadyReplicas rs ≠ ready in
  0 ≤ ready ≤ available
  ∧ (statusWritten (Reconcile delay env).1 = []
     ∨ statusWritten (Reconcile delay env).1 = [(available, ready)] ∧ changed)
  ∧ (¬ failed (Reconcile delay env).2 → changed →
     statusWritten (Reconcile delay env).1 = [(available, ready)]).
Proof.
  intros Hreach available ready changed.
  split.
  { unfold ready, available, readyRunnersOf.
    pose proof (filter_length_le (λ r, String.eqb (Phase r) PodRunning)
                  (myRunnersOf env rs)). lia. }
  destruct (Reconcile_shape delay env) as [(_ & _ & Hnot)|(rs' & Hreach' & ->)];
    [destruct Hnot; eauto|].
  rewrite <- (reachesScaling_unique env rs rs' Hreach Hreach'). simpl.
  fold available ready.
  assert (∃ effects out,
            (if desiredReplicas rs <? available
             then scaleDown delay env rs (myRunnersOf env rs) available (desiredReplicas rs)
             else if available <? desiredReplicas rs
                  then scaleUp env rs available (desiredReplicas rs)
                  else ([], None)) = (effects, out)
            ∧ statusWritten effects = []
            ∧ ∀ o, out = Some o → failed o) as (effects & out & -> & Hquiet & Hfail).
  { destruct (desiredReplicas rs <? available).
    - pose proof (scaleDown_statusWritten rs (myRunnersOf env rs) available
                    (desiredReplicas rs)) as Hq.
      destruct (scaleDown delay env rs (myRunnersOf env rs) available (desiredReplicas rs))
        as [effects out] eqn:Hsd.
      exists effects, out. split; [done|]. split; [done|].
      by destruct (scaleDown_deleted _ _ _ _ _ _ _ _ Hsd) as (_ & _ & _ & ?).
    - destruct (available <? desiredReplicas rs).
      + unfold scaleUp.
        pose proof (createLoop_quiet rs
                      (Z.to_nat (wrap64 (desiredReplicas rs - available))) 0) as [Hq _].
        destruct (createLoop env _ 0 rs) as [effects out] eqn:Hup.
        exists effects, out. split; [done|]. split; [done|].
        by destruct (createLoop_created _ _ _ _ _ _ Hup) as (_ & _ & _ & ?).
      + exists [], None. by repeat split. }
  destruct out as [o|]; simpl.
  { split; [by left|]. intros Hok. destruct Hok. by apply Hfail. }
  unfold updateStatus, statusWritten in *.
  destruct (Z.eqb_spec (rs_AvailableReplicas rs) available) as [Ha|Ha];
    destruct (Z.eqb_spec (rs_ReadyReplicas rs) ready) as [Hr|Hr]; simpl;
    try (destruct (StatusUpdate env available ready) as [err|]; simpl;
         rewrite omap_app, Hquiet; simpl;
         (split; [first [by left | right; split; [done|]; unfold changed; tauto]|]);
         first [by intros [] | done]).
  rewrite omap_app, Hquiet. simpl. split; [by left|].
  intros _ [?|?]; done.
Qed.

End PassFacts2.

Section PassFacts3.

Import Controllers Pass.

Variable delay : GoTime.Duration.
Variable env : Env.

Lemma candidates_sublist (myRunners : list Runner) :
  ∀ i, candidates env i myRunners `sublist_of` myRunners.
Proof.
  induction myRunners as [|r rest IH]; intros i; simpl; [constructor|].
  destruct (candidate env i r); [apply sublist_skip | apply sublist_cons]; apply IH.
Qed.

(** X16.  A pass that scales up and whose calls all succeed creates exactly
    desired minus available runners and deletes none.  Each runner created
    is the template of the replica set with the name prefix [Name-], in the
    namespace of the replica set and controlled by it, so that the next
    pass counts it. *)
Theorem scale_up_creates_owned_runners (rs : RunnerReplicaSet) :
  reachesScaling env rs →
  let available := Z.of_nat (length (myRunnersOf env rs)) in
  available < desiredReplicas rs →
  desiredReplicas rs < 2 ^ 63 →
  writesSucceed env →
  let created := createdRunners (Reconcile delay env).1 in
  Z.of_nat (length created) = desiredReplicas rs - available
  ∧ deletedRunners (Reconcile delay env).1 = []
  ∧ (∀ r, r ∈ created →
          IsControlledBy r rs = true
          ∧ Namespace r = rs_Namespace rs
          ∧ GenerateName r = (rs_Name rs ++ "-")%string
          ∧ (Enterprise r, Organization r, Repository r)
            = (Enterprise (rs_Template rs), Organization (rs_Template rs),
               Repository (rs_Template rs))).
Proof.
  intros Hreach available Hlt Hmax Hok created. unfold created.
  destruct (Reconcile_shape delay env) as [(_ & _ & Hnot)|(rs' & Hreach' & ->)];
    [destruct Hnot; eauto|].
  rewrite <- (reachesScaling_unique env rs rs' Hreach Hreach'). simpl.
  fold available.
  destruct (Z.ltb_spec (desiredReplicas rs) available); [lia|].
  destruct (Z.ltb_spec available (desiredReplicas rs)); [|lia].
  unfold scaleUp. rewrite (createLoop_all env rs Hok).
  assert (wrap64 (desiredReplicas rs - available) = desiredReplicas rs - available) as ->.
  { apply wrap64_small. unfold available in *. lia. }
  pose proof (updateStatus_quiet env rs available
                (Z.of_nat (length (readyRunnersOf env rs)))) as [Hd Hc].
  destruct (updateStatus env rs available _) as [effects' out']. simpl in Hd, Hc.
  simpl.
  assert (∀ l : list Runner, createdRunners (Created <$> l) = l
                             ∧ deletedRunners (Created <$> l) = []) as Hmap.
  { induction l as [|x l [IH1 IH2]]; [done|].
    split; [|exact IH2].
    change (x :: createdRunners (Created <$> l) = x :: l). by rewrite IH1. }
  unfold createdRunners, deletedRunners in *. rewrite !omap_app, Hd, Hc, !app_nil_r.
  destruct (Hmap (replicate (Z.to_nat (desiredReplicas rs - available))
                             (newRunner env rs).1)) as [-> ->].
  split; [rewrite length_replicate; lia|]. split; [done|].
  intros r ->%elem_of_replicate_inv.
  destruct Hok as (_ & Hset & _). unfold newRunner. rewrite Hset. simpl.
  unfold IsControlledBy. simpl. by rewrite String.eqb_refl.
Qed.

(** X17.  In a pass that scales down, the runners deleted are the first
    candidates in the order of the list of runners: they are a prefix of
    the candidates, which keep the order of [myRunners]. *)
Theorem scale_down_deletes_in_list_order (rs : RunnerReplicaSet) :
  reachesScaling env rs →
  let myRunners := myRunnersOf env rs in
  desiredReplicas rs < Z.of_nat (length myRunners) →
  deletedRunners (Reconcile delay env).1 `prefix_of` candidates env 0 myRunners
  ∧ candidates env 0 myRunners `sublist_of` myRunners.
Proof.
  intros Hreach myRunners Hlt. split; [|apply candidates_sublist].
  destruct (Reconcile_scaleDown delay env rs (Reconcile delay env).1 (Reconcile delay env).2
              Hreach Hlt) as (effects_sd & out_sd & Hsd & -> & _);
    [by destruct (Reconcile delay env)|].
  destruct (scaleDown_deleted _ _ _ _ _ _ _ _ Hsd) as (_ & (k & _ & ->) & _).
  apply prefix_take.
Qed.

(** X18.  In a pass that scales down, one event is recorded for each runner
    deleted, and the [i]-th event carries the name of the [i]-th runner of
    [myRunners], which need not be the [i]-th runner deleted. *)
Theorem scale_down_events_name_first_runners (rs : RunnerReplicaSet) :
  reachesScaling env rs →
  let myRunners := myRunnersOf env rs in
  desiredReplicas rs < Z.of_nat (length myRunners) →
  recordedMessages (Reconcile delay env).1
  = (λ r, "Deleted runner '" ++ Name r ++ "'")%string
    <$> take (length (deletedRunners (Reconcile delay env).1)) myRunners.
Proof.
  intros Hreach myRunners Hlt.
  destruct (Reconcile_shape delay env) as [(_ & _ & Hnot)|(rs' & Hreach' & ->)];
    [destruct Hnot; eauto|].
  rewrite <- (reachesScaling_unique env rs rs' Hreach Hreach'). simpl.
  fold myRunners.
  destruct (Z.ltb_spec (desiredReplicas rs) (Z.of_nat (length myRunners))); [|lia].
  pose proof (scaleDown_in_range delay env rs myRunners (Z.of_nat (length myRunners))
                (desiredReplicas rs)) as [_ Hmsg].
  destruct (scaleDown delay env rs myRunners (Z.of_nat (length myRunners))
              (desiredReplicas rs)) as [effects out].
  simpl in Hmsg. destruct out as [o|]; simpl; [done|].
  pose proof (updateStatus_quiet env rs (Z.of_nat (length myRunners))
                (Z.of_nat (length (readyRunnersOf env rs)))) as [Hd _].
  unfold updateStatus in *.
  destruct (_ || _); simpl in *.
  - destruct (StatusUpdate env _ _); simpl in *;
      unfold recordedMessages, deletedRunners in *;
      rewrite !omap_app; simpl; by rewrite !app_nil_r.
  - by rewrite !app_nil_r.
Qed.

End PassFacts3.

Lemma Reconcile_writes_only_when_needed_witness :
  ∃ rs, Controllers.reachesScaling (Scenario.env_fleet (Some 3)) rs
        ∧ Controllers.desiredReplicas rs = 3
        ∧ length (Controllers.myRunnersOf (Scenario.env_fleet (Some 3)) rs) = 5%nat.
Proof.
  destruct (Reconcile_writes_only_when_needed Scenario.retryDelay
              (Scenario.env_fleet (Some 3))) as (rs & Hreach & _); [discriminate|].
  exists rs. split; [done|].
  destruct Hreach as ([= <-] & _). by split.
Defined.

Lemma Reconcile_status_witness :
  Pass.statusWritten
    (Controllers.Reconcile Scenario.retryDelay (Scenario.env_fleet (Some 7))).1
  = [(5, 5)].
Proof.
  destruct (Reconcile_status Scenario.retryDelay (Scenario.env_fleet (Some 7))
              (Scenario.pool (Some 7))) as (_ & _ & Hwritten); [reaches_scaling|].
  apply Hwritten; [by intros [] | left; discriminate].
Defined.

Lemma scale_up_creates_owned_runners_witness :
  length (Controllers.createdRunners
            (Controllers.Reconcile Scenario.retryDelay (Scenario.env_fleet (Some 7))).1)
  = 2%nat.
Proof.
  destruct (scale_up_creates_owned_runners Scenario.retryDelay
              (Scenario.env_fleet (Some 7)) (Scenario.pool (Some 7)))
    as (Hcount & _); [reaches_scaling | reflexivity | reflexivity | by repeat split |].
  apply Nat2Z.inj. exact Hcount.
Defined.

Lemma scale_down_deletes_in_list_order_witness :
  Controllers.deletedRunners
    (Controllers.Reconcile Scenario.retryDelay (Scenario.env_fleet (Some 3))).1
  `prefix_of` [Scenario.pod "idle-1" 0; Scenario.pod "offline-1" 0; Scenario.pod "idle-2" 0].
Proof.
  apply (scale_down_deletes_in_list_order Scenario.retryDelay
           (Scenario.env_fleet (Some 3)) (Scenario.pool (Some 3)));
    [reaches_scaling | reflexivity].
Defined.

Lemma scale_down_events_name_first_runners_witness :
  Pass.recordedMessages
    (Controllers.Reconcile Scenario.retryDelay (Scenario.env_fleet (Some 3))).1
  = ["Deleted runner 'busy-1'"%string; "Deleted runner 'idle-1'"%string]
  ∧ Controllers.Name
      <$> Controllers.deletedRunners
            (Controllers.Reconcile Scenario.retryDelay (Scenario.env_fleet (Some 3))).1
    = ["idle-1"%string; "offline-1"%string].
Proof.
  split; [|reflexivity].
  rewrite (scale_down_events_name_first_runners Scenario.retryDelay
             (Scenario.env_fleet (Some 3)) (Scenario.pool (Some 3)));
    [reflexivity | reaches_scaling | reflexivity].
Defined.

(** ** The listener: validation, set-up and tear-down *)

Section SetupFacts.

Import ListenerSetup.

Lemma anyEmpty_loop_spec (values : list string) :
  anyEmpty_loop values = true ↔ ""%string ∈ values.
Proof.
  induction values as [|v values IH]; simpl.
  - split; [done|by intros ?%elem_of_nil].
  - rewrite elem_of_cons, <- IH. destruct v; simpl; [|split; [by right|]].
    + split; [by left|done].
    + by intros [?|?].
Qed.

Lemma anyEmpty_spec (first : string) (others : list string) :
  anyEmpty first others = true ↔ first = ""%string ∨ ""%string ∈ others.
Proof.
  unfold anyEmpty. rewrite anyEmpty_loop_spec, elem_of_app, list_elem_of_singleton.
  split; intros [?|?]; auto.
Qed.

(** X19.  [Validate] accepts a configuration exactly when the repository,
    the organization, the token and the scale-set name are all non-empty.
    So a token is always required: a configuration with GitHub App
    credentials or basic-auth credentials and no token is rejected as "not
    provided", and the error about missing credentials is never returned. *)
Theorem Validate_requires_token (c : Config) :
  (Validate c = None
   ↔ RunnerRepository c ≠ ""%string ∧ RunnerOrg c ≠ ""%string
     ∧ Token c ≠ ""%string ∧ RunnerScaleSetName c ≠ ""%string)
  ∧ (Token c = ""%string → Validate c = Some notProvided)
  ∧ Validate c ≠ Some cannotInitialize.
Proof.
  unfold Validate.
  destruct (anyEmpty (RunnerRepository c) [RunnerOrg c; Token c; RunnerScaleSetName c])
    eqn:Hany.
  - apply anyEmpty_spec in Hany. split; [|by split].
    split; [done|]. intros (Hrepo & Horg & Htoken & Hname).
    destruct Hany as [?|Hin]; [done|].
    repeat (apply elem_of_cons in Hin as [?|Hin]; [congruence|]).
    by apply elem_of_nil in Hin.
  - assert (¬ (RunnerRepository c = ""%string
               ∨ ""%string ∈ [RunnerOrg c; Token c; RunnerScaleSetName c])) as Hnone.
    { rewrite <- anyEmpty_spec. congruence. }
    assert (Token c ≠ ""%string) as Htoken.
    { intros Heq. apply Hnone. right. rewrite Heq. by right; left. }
    assert ((0 <? String.length (Token c))%nat = true) as ->.
    { destruct (Token c); [done|]. by simpl. }
    simpl. split; [|by split].
    split; [intros _|done]. repeat split; try done.
    + intros Heq. apply Hnone. by left.
    + intros Heq. apply Hnone. right. rewrite Heq. by left.
    + intros Heq. apply Hnone. right. rewrite Heq. by do 2 right; left.
Qed.

Lemma Validate_requires_token_witness :
  Validate (mkConfig "" "acme" "acme/widgets" "pool" "" 7 9 "private-key" "" "")
  = Some notProvided
  ∧ Validate Cases.config = None.
Proof.
  split.
  - by apply Validate_requires_token.
  - by apply Validate_requires_token.
Defined.

Context {World : Type} (svc : Service World).

(** X20.  [createRunnerScaleSet] reads the scale set by name and then makes
    at most one write: it replaces the scale set it found, addressed by the
    id found, or creates one when none was found, and makes no write when
    the read failed.  What it writes is always [newRunnerScaleSet name]:
    ephemeral, updates disabled, runner group 1, one label. *)
Theorem createRunnerScaleSet_one_write (c : Listener.ActionsClient) (name : string)
    (w : World) :
  let '(found, failure, w1) := GetRunnerScaleSet svc c name w in
  let '(result, err, calls, w') := createRunnerScaleSet svc c name w in
  newRunnerScaleSet name = mkSettings name 1 [(name, "User"%string)] true true
  ∧ (failure ≠ None → calls = [GotRunnerScaleSet name] ∧ result = None ∧ err ≠ None)
  ∧ (failure = None →
     ∀ scaleSet, found = Some scaleSet →
       calls = [GotRunnerScaleSet name;
                ReplacedRunnerScaleSet (Listener.Id scaleSet) (newRunnerScaleSet name)]
       ∧ (err = None →
          ∃ w2, ReplaceRunnerScaleSet svc c (Listener.Id scaleSet)
                  (newRunnerScaleSet name) w1 = (result, None, w2)))
  ∧ (failure = None → found = None →
     calls = [GotRunnerScaleSet name; CreatedRunnerScaleSet (newRunnerScaleSet name)]
     ∧ (err = None →
        ∃ w2, CreateRunnerScaleSet svc c (newRunnerScaleSet name) w1 = (result, None, w2)))
  ∧ (length (List.filter Trace.isWrite calls) ≤ 1)%nat.
Proof.
  unfold createRunnerScaleSet.
  destruct (GetRunnerScaleSet svc c name w) as [[found [failure|]] w1].
  { split; [done|]. split; [done|]. repeat split; try done. simpl. lia. }
  destruct found as [scaleSet|].
  - destruct (ReplaceRunnerScaleSet svc c (Listener.Id scaleSet) (newRunnerScaleSet name) w1)
      as [[result [err|]] w2] eqn:Hreplace;
      (split; [done|]); (split; [done|]); split.
    + intros _ ? [= <-]. by split.
    + split; [done|]. simpl. lia.
    + intros _ ? [= <-]. split; [done|]. intros _. by exists w2.
    + split; [done|]. simpl. lia.
  - destruct (CreateRunnerScaleSet svc c (newRunnerScaleSet name) w1)
      as [[result [err|]] w2] eqn:Hcreate;
      (split; [done|]); (split; [done|]); (split; [done|]).
    + split; [by intros _ _; split|]. simpl. lia.
    + split; [|simpl; lia]. intros _ _. split; [done|]. intros _. by exists w2.
Qed.



(** The three ways [createRunnerScaleSetSession] can go. *)
Lemma createRunnerScaleSetSession_cases (c : Listener.ActionsClient) (scaleSetId : Z)
    (name : string) (w : World) :
  let attempt := Listener.CreatedSession scaleSetId name in
  let pause (e : error) :=
    [Listener.LoggedError e "Unable to create message session. Will try again in 30 seconds";
     Listener.Slept (30 * GoTime.Second)] in
  (∃ s w1,
     Listener.CreateMessageSession (base svc) c scaleSetId name w = (s, None, w1)
     ∧ Listener.createRunnerScaleSetSession (base svc) c scaleSetId name w
       = Some (s, None, [attempt], w1))
  ∨ (∃ s1 e1 w1 s w2,
       Listener.CreateMessageSession (base svc) c scaleSetId name w = (s1, Some e1, w1)
       ∧ Listener.CreateMessageSession (base svc) c scaleSetId name w1 = (s, None, w2)
       ∧ Listener.createRunnerScaleSetSession (base svc) c scaleSetId name w
         = Some (s, None, attempt :: pause e1 ++ [attempt], w2))
  ∨ (∃ s1 e1 w1 s2 e2 w2,
       Listener.CreateMessageSession (base svc) c scaleSetId name w = (s1, Some e1, w1)
       ∧ Listener.CreateMessageSession (base svc) c scaleSetId name w1 = (s2, Some e2, w2)
       ∧ Listener.createRunnerScaleSetSession (base svc) c scaleSetId name w
         = Some (None, Some (ErrorfInt "Unable to create session in %d attempts" 1),
                 attempt :: pause e1 ++ attempt :: pause e2, w2)).
Proof.
  unfold Listener.createRunnerScaleSetSession. simpl.
  destruct (Listener.CreateMessageSession (base svc) c scaleSetId name w)
    as [[s1 [e1|]] w1]; simpl.
  2:{ left. by eexists _, _. }
  destruct (Listener.CreateMessageSession (base svc) c scaleSetId name w1)
    as [[s2 [e2|]] w2] eqn:Hsecond; simpl.
  2:{ right; left. by exists s1, e1, w1, s2, w2. }
  right; right. by exists s1, e1, w1, s2, e2, w2.
Qed.


(** X21.  When the admin handshake fails, [Run] returns the error of
    [createAdminConn], which does not wrap the error of the handshake, and
    has made no call after the handshake: it reads no scale set, writes
    none, asks for no host name, creates no session and deletes none. *)
Theorem Run_stops_at_failed_handshake (fuel : nat) (c : Config) (w w1 w2 : World)
    (conn : option Listener.ActionsServiceAdminConnection) (failure : error) :
  NewClient svc w = (None, w1) →
  Listener.GetActionsServiceAdminConnection (base svc)
    (RunnerEnterprise c) (RunnerOrg c) (RunnerRepository c) w1 = (conn, Some failure, w2) →
  Run svc fuel c w
  = ([CalledNewClient;
      InLoop (Listener.Handshake (RunnerEnterprise c) (RunnerOrg c) (RunnerRepository c))],
     Returned (Some (ErrorString "Could not create an Actions Service admin connection")))
  ∧ List.filter afterHandshake (Run svc fuel c w).1 = [].
Proof.
  intros Hclient Hhandshake. unfold Run. rewrite Hclient.
  unfold build, createAdminConn. rewrite Hhandshake. by simpl.
Qed.



(** X23.  [createSession] creates the session under whatever name
    [os.Hostname] returned and does not report the error of [os.Hostname]:
    the builder's error afterwards is that of the session creation alone. *)
Theorem createSession_ignores_hostname_error (b : builder) (w w1 : World)
    (client : Listener.ActionsClient) (scaleSet : Listener.RunnerScaleSet)
    (hostName : string) (hostErr : option error) :
  err b = None →
  actionsServiceClient b = Some client →
  runnerScaleSet b = Some scaleSet →
  Hostname svc w = (hostName, hostErr, w1) →
  ∃ created failure events w2,
    Listener.createRunnerScaleSetSession (base svc) client (Listener.Id scaleSet)
      hostName w1 = Some (created, failure, events, w2)
    ∧ createSession svc b w
      = Built_ok (mkBuilder (actionsAdminConnection b) (Some client) (Some scaleSet)
                            created failure)
                 (GotHostname :: (InLoop <$> events)) w2
    ∧ (failure = None
       ∨ failure = Some (ErrorfInt "Unable to create session in %d attempts" 1)).
Proof.
  intros Herr Hclient Hset Hhost. unfold createSession.
  rewrite Herr, Hhost, Hclient, Hset.
  destruct (createRunnerScaleSetSession_cases client (Listener.Id scaleSet) hostName w1)
    as [(? & ? & _ & ->)|[(? & ? & ? & ? & ? & _ & _ & ->)
                         |(? & ? & ? & ? & ? & ? & _ & _ & ->)]];
    eexists _, _, _, _; (split; [done|]); (split; [done|]); auto.
Qed.

End SetupFacts.

Lemma createRunnerScaleSet_one_write_witness :
  ListenerSetup.createRunnerScaleSet Cases.setup
    (Listener.newActionsClient Scenario.conn1) "pool" 0%nat
  = (Some Cases.pool7, None,
     [ListenerSetup.GotRunnerScaleSet "pool";
      ListenerSetup.ReplacedRunnerScaleSet 7
        (ListenerSetup.mkSettings "pool" 1 [("pool"%string, "User"%string)] true true)],
     0%nat).
Proof.
  pose proof (createRunnerScaleSet_one_write Cases.setup
                (Listener.newActionsClient Scenario.conn1) "pool" 0%nat) as Hwrite.
  simpl in Hwrite. destruct Hwrite as (_ & _ & Hreplace & _).
  destruct (Hreplace eq_refl Cases.pool7 eq_refl) as [_ _]. reflexivity.
Defined.

Lemma Run_stops_at_failed_handshake_witness :
  (ListenerSetup.Run Cases.setup_unauthorized 5 Cases.config 0%nat).2
  = ListenerSetup.Returned
      (Some (ErrorString "Could not create an Actions Service admin connection")).
Proof.
  by rewrite (proj1 (Run_stops_at_failed_handshake Cases.setup_unauthorized 5 Cases.config
                       0%nat 0%nat 0%nat None (ErrorString "unauthorized")
                       eq_refl eq_refl)).
Defined.


Lemma createSession_ignores_hostname_error_witness :
  ∃ created events w2,
    ListenerSetup.createSession Cases.setup_nameless
      (ListenerSetup.mkBuilder (Some Scenario.conn1)
         (Some (Listener.newActionsClient Scenario.conn1)) (Some Cases.pool7) None None)
      2%nat
    = ListenerSetup.Built_ok
        (ListenerSetup.mkBuilder (Some Scenario.conn1)
           (Some (Listener.newActionsClient Scenario.conn1)) (Some Cases.pool7)
           created None)
        (ListenerSetup.GotHostname :: (ListenerSetup.InLoop <$> events)) w2.
Proof.
  destruct (createSession_ignores_hostname_error Cases.setup_nameless
              (ListenerSetup.mkBuilder (Some Scenario.conn1)
                 (Some (Listener.newActionsClient Scenario.conn1))
                 (Some Cases.pool7) None None)
              2%nat 2%nat (Listener.newActionsClient Scenario.conn1) Cases.pool7
              "" (Some (ErrorString "hostname unavailable"))
              eq_refl eq_refl eq_refl eq_refl)
    as (created & failure & events & w2 & Hcreated & Hbuilt & _).
  vm_compute in Hcreated. injection Hcreated as <- <- <- <-.
  eexists _, _, _. exact Hbuilt.
Defined.

(** ** The message loop *)

Section LoopMore.

Import Listener.

Context {World : Type} (svc : Service World).

Lemma deleteCalls_app (events events' : list Event) :
  Trace.deleteCalls (events ++ events')
  = Trace.deleteCalls events ++ Trace.deleteCalls events'.
Proof. apply omap_app. Qed.

Lemma deleteCallsFirst_app (events events' : list Event) :
  Trace.deleteCallsFirst events →
  Trace.deleteCalls events = dispatchedIds events →
  Trace.deleteCallsFirst events' →
  Trace.deleteCallsFirst (events ++ events').
Proof.
  intros Hfirst Hsame Hrest n. rewrite take_app.
  destruct (decide (n ≤ length events)%nat) as [Hle|Hgt].
  - replace (n - length events)%nat with 0%nat by lia.
    rewrite take_0, app_nil_r. apply Hfirst.
  - rewrite take_ge by lia. rewrite dispatchedIds_app, deleteCalls_app, Hsame.
    apply prefix_app, Hrest.
Qed.

(** The events of one iteration that touch the queue. *)
Lemma iteration_queue (st : Loop) (w : World) :
  Trace.deleteCalls (iteration svc st w).1 = dispatchedIds (iteration svc st w).1
  ∧ Trace.deleteCallsFirst (iteration svc st w).1.
Proof.
  unfold iteration. destruct (Done svc w); [by split; [|intros [|?]]|].
  destruct (session st) as [current|]; [|by split; [|intros [|?]]].
  unfold getMessage.
  destruct (GetMessage svc _ _ _ _ w) as [[message [e|]] w1]; simpl.
  - destruct (As_MessageQueueTokenExpiredError e); simpl.
    + unfold refresh.
      destruct (GetActionsServiceAdminConnection svc _ _ _ w1) as [[conn [e1|]] w2]; simpl.
      { split; [done|]. by intros [|[|[|[|?]]]]. }
      destruct (connections (set_b_actionsAdminConnection st conn) !! _) as [local|]; simpl.
      2:{ split; [done|]. by intros [|[|[|?]]]. }
      destruct (RefreshMessageSession svc _ _ _ w2) as [[refreshed [e2|]] w3]; simpl.
      * split; [done|]. by intros [|[|[|[|[|[|?]]]]]].
      * split; [done|]. by intros [|[|[|[|[|?]]]]].
    + split; [done|]. by intros [|[|[|?]]].
  - destruct message as [message|]; simpl.
    2:{ split; [done|]. by intros [|[|?]]. }
    unfold deleteMessage.
    destruct (DeleteMessage svc _ _ _ _ w1) as [[e|] w2]; simpl.
    + split; [done|]. intros [|[|[|[|[|?]]]]]; simpl; try done; apply prefix_nil.
    + split; [done|]. intros [|[|[|[|?]]]]; simpl; try done; apply prefix_nil.
Qed.

(** X24.  In any run of the message loop [DeleteMessage] is called exactly
    once for each message handed to a handler, with the id of that message,
    in the same order and before the handler runs: at every moment the ids
    dispatched so far are a prefix of the ids whose deletion was asked for.
    What the call answers is not looked at: when it fails the error is
    logged and the message is handed to its handler all the same. *)
Theorem run_calls_delete_before_dispatching (fuel : nat) (st : Loop) (w : World) :
  Trace.deleteCalls (run svc fuel st w).1 = dispatchedIds (run svc fuel st w).1
  ∧ Trace.deleteCallsFirst (run svc fuel st w).1
  ∧ (∀ current message w1 failure w2,
       Done svc w = false →
       session st = Some current →
       GetMessage svc (actionsServiceClient st) (MessageQueueUrl current)
         (MessageQueueAccessToken current) (lastMessageId st) w
       = (Some message, None, w1) →
       DeleteMessage svc (actionsServiceClient st) (MessageQueueUrl current)
         (MessageQueueAccessToken current) (MessageId message) w1
       = (Some failure, w2) →
       iteration svc st w
       = ([Polled (MessageQueueUrl current) (MessageQueueAccessToken current)
                  (lastMessageId st);
           DeletedMessage (MessageId message);
           LoggedError failure "Error: Delete message failed.";
           Dispatched (handlerOf (MessageType message)) (MessageId message) message],
          Next (set_lastMessageId st (MessageId message))
               (Handle svc (handlerOf (MessageType message)) (actionsServiceClient st)
                       (b_session st) message w2))).
Proof.
  split; [|split].
  - revert st w. induction fuel as [|fuel IH]; intros st w; simpl; [done|].
    pose proof (iteration_queue st w) as [Hsame _].
    destruct (iteration svc st w) as [events [st1 w1|st1 w1|]]; simpl in *; [|done..].
    specialize (IH st1 w1). destruct (run svc fuel st1 w1) as [events' it]; simpl in *.
    by rewrite deleteCalls_app, dispatchedIds_app, Hsame, IH.
  - revert st w. induction fuel as [|fuel IH]; intros st w; simpl; [by intros [|?]|].
    pose proof (iteration_queue st w) as [Hsame Hfirst].
    destruct (iteration svc st w) as [events [st1 w1|st1 w1|]]; simpl in *; [|done..].
    specialize (IH st1 w1). destruct (run svc fuel st1 w1) as [events' it]; simpl in *.
    by apply deleteCallsFirst_app.
  - intros current message w1 failure w2 Hdone Hsession Hpoll Hdelete.
    unfold iteration. rewrite Hdone, Hsession. unfold getMessage. rewrite Hpoll.
    unfold deleteMessage. by rewrite Hdelete.
Qed.

Lemma cursorsFollow_app (cursor : Z) (events events' : list Event) :
  Trace.cursorsFollow cursor events →
  Trace.cursorsFollow (default cursor (last (dispatchedIds events))) events' →
  Trace.cursorsFollow cursor (events ++ events').
Proof.
  revert cursor. induction events as [|e events IH]; intros cursor; [done|].
  assert (∀ id, default cursor (last (id :: dispatchedIds events))
                = default id (last (dispatchedIds events))) as Hlast.
  { intros id. by destruct (dispatchedIds events) as [|? ids]; [|rewrite !last_cons;
      destruct (last ids)]. }
  destruct e; simpl; try (by apply IH).
  - intros [-> Hrest] Hnext. split; [done|]. by apply IH.
  - intros Hrest Hnext. apply IH; [done|].
    change (dispatchedIds (Dispatched h lastMessageId0 message :: events))
      with (MessageId message :: dispatchedIds events) in Hnext.
    by rewrite Hlast in Hnext.
Qed.

Lemma cursorsFollow_poll (cursor : Z) (before after : list Event)
    (url token : string) (asked : Z) :
  Trace.cursorsFollow cursor (before ++ Polled url token asked :: after) →
  asked = default cursor (last (dispatchedIds before)).
Proof.
  revert cursor. induction before as [|e before IH]; intros cursor; simpl.
  { by intros [-> _]. }
  assert (∀ id, default cursor (last (id :: dispatchedIds before))
                = default id (last (dispatchedIds before))) as Hlast.
  { intros id. by destruct (dispatchedIds before) as [|? ids]; [|rewrite !last_cons;
      destruct (last ids)]. }
  destruct e; try (by apply IH).
  - intros [_ Hrest]. by apply IH.
  - intros Hrest.
    change (dispatchedIds (Dispatched h lastMessageId0 message :: before))
      with (MessageId message :: dispatchedIds before).
    rewrite Hlast. by apply IH.
Qed.

(** What one iteration leaves of the variables of the loop. *)
Lemma iteration_variables (st : Loop) (w : World) :
  Trace.cursorsFollow (lastMessageId st) (iteration svc st w).1
  ∧ ∀ st' w',
      (iteration svc st w).2 = Next st' w' ∨ (iteration svc st w).2 = ReturnNil st' w' →
      lastMessageId st'
      = default (lastMessageId st) (last (dispatchedIds (iteration svc st w).1))
      ∧ b_session st' = b_session st
      ∧ actionsAdminConnection st' = actionsAdminConnection st
      ∧ runnerEnterprise st' = runnerEnterprise st
      ∧ runnerOrg st' = runnerOrg st
      ∧ runnerRepository st' = runnerRepository st.
Proof.
  unfold iteration. destruct (Done svc w).
  { split; [done|]. by intros ?? [[= <- <-]|[= <- <-]]. }
  destruct (session st) as [current|]; [|by split; [|intros ?? [[=]|[=]]]].
  unfold getMessage.
  destruct (GetMessage svc _ _ _ _ w) as [[message [e|]] w1]; simpl.
  - destruct (As_MessageQueueTokenExpiredError e); simpl.
    + unfold refresh.
      destruct (GetActionsServiceAdminConnection svc _ _ _ w1) as [[conn [e1|]] w2]; simpl.
      { split; [done|]. intros ?? [[= <- <-]|[=]]. by destruct conn. }
      destruct (connections (set_b_actionsAdminConnection st conn) !! _) as [local|]; simpl.
      2:{ split; [done|]. by intros ?? [[=]|[=]]. }
      destruct (RefreshMessageSession svc _ _ _ w2) as [[refreshed [e2|]] w3]; simpl.
      * split; [done|]. intros ?? [[= <- <-]|[=]]. by destruct conn.
      * split; [done|]. intros ?? [[= <- <-]|[=]]. by destruct conn.
    + split; [done|]. by intros ?? [[= <- <-]|[=]].
  - destruct message as [message|]; simpl.
    2:{ split; [done|]. by intros ?? [[= <- <-]|[=]]. }
    unfold deleteMessage.
    destruct (DeleteMessage svc _ _ _ _ w1) as [[e|] w2]; simpl.
    + split; [done|]. by intros ?? [[= <- <-]|[=]].
    + split; [done|]. by intros ?? [[= <- <-]|[=]].
Qed.

Lemma run_variables (fuel : nat) (st : Loop) (w : World) :
  Trace.cursorsFollow (lastMessageId st) (run svc fuel st w).1
  ∧ ∀ st' w',
      (run svc fuel st w).2 = Next st' w' ∨ (run svc fuel st w).2 = ReturnNil st' w' →
      lastMessageId st'
      = default (lastMessageId st) (last (dispatchedIds (run svc fuel st w).1))
      ∧ b_session st' = b_session st
      ∧ actionsAdminConnection st' = actionsAdminConnection st
      ∧ runnerEnterprise st' = runnerEnterprise st
      ∧ runnerOrg st' = runnerOrg st
      ∧ runnerRepository st' = runnerRepository st.
Proof.
  revert st w. induction fuel as [|fuel IH]; intros st w; simpl.
  { split; [done|]. by intros ?? [[= <- <-]|[=]]. }
  pose proof (iteration_variables st w) as [Hpolls Hvars].
  destruct (iteration svc st w) as [events [st1 w1|st1 w1|]]; simpl in *.
  - destruct (Hvars st1 w1) as (Hcursor & Hsession & Hconn & Hent & Horg & Hrepo);
      [by left|].
    specialize (IH st1 w1). destruct (run svc fuel st1 w1) as [events' it]; simpl in *.
    destruct IH as [Hpolls' Hvars']. rewrite Hcursor in Hpolls'. split.
    + by apply cursorsFollow_app.
    + intros st' w' Hend.
      destruct (Hvars' st' w' Hend) as (-> & -> & -> & -> & -> & ->).
      repeat split; try done.
      rewrite Hcursor, dispatchedIds_app, last_app.
      by destruct (last (dispatchedIds events')).
  - split; [done|]. intros st' w' Hend. exact (Hvars st' w' Hend).
  - split; [done|]. by intros ?? [[=]|[=]].
Qed.

(** X25.  In any run of the message loop, every poll asks for the messages
    after the one dispatched last before it (after [lastMessageId] of the
    start when none was), and when the run stops without a panic
    [lastMessageId] is the id of the last message dispatched.  Neither a
    failed poll nor a refresh moves the cursor. *)
Theorem run_polls_after_the_last_dispatched (fuel : nat) (st : Loop) (w : World) :
  (∀ before after url token asked,
     (run svc fuel st w).1 = before ++ Polled url token asked :: after →
     asked = default (lastMessageId st) (last (dispatchedIds before)))
  ∧ (∀ st' w',
       (run svc fuel st w).2 = Next st' w' ∨ (run svc fuel st w).2 = ReturnNil st' w' →
       lastMessageId st'
       = default (lastMessageId st) (last (dispatchedIds (run svc fuel st w).1))).
Proof.
  destruct (run_variables fuel st w) as [Hpolls Hvars]. split.
  - intros before after url token asked Hsplit. rewrite Hsplit in Hpolls.
    by apply cursorsFollow_poll in Hpolls.
  - intros st' w' Hend. by destruct (Hvars st' w' Hend) as [-> _].
Qed.

(** X26.  The message loop keeps the session the builder created for the
    handlers and the admin connection it started with: whatever was polled,
    refreshed or dispatched, [ml.b.session] and the local
    [actionsAdminConnection] are those of the start, and so are the
    enterprise, organization and repository of the handshakes. *)
Theorem run_keeps_builder_session (fuel : nat) (st st' : Loop) (w w' : World) :
  (run svc fuel st w).2 = Next st' w' ∨ (run svc fuel st w).2 = ReturnNil st' w' →
  b_session st' = b_session st
  ∧ actionsAdminConnection st' = actionsAdminConnection st
  ∧ (runnerEnterprise st', runnerOrg st', runnerRepository st')
    = (runnerEnterprise st, runnerOrg st, runnerRepository st).
Proof.
  intros Hend. destruct (run_variables fuel st w) as [_ Hvars].
  destruct (Hvars st' w' Hend) as (_ & -> & -> & -> & -> & ->). done.
Qed.

Lemma iteration_returns (st st' : Loop) (w w' : World) (events : list Event) :
  iteration svc st w = (events, ReturnNil st' w') →
  Done svc w = true ∧ events = [] ∧ st' = st ∧ w' = w.
Proof.
  unfold iteration. destruct (Done svc w); [by intros [= <- <- <-]|].
  destruct (session st) as [current|]; [|done].
  unfold getMessage.
  destruct (GetMessage svc _ _ _ _ w) as [[message [e|]] w1]; simpl.
  - destruct (As_MessageQueueTokenExpiredError e); simpl; [|done].
    unfold refresh.
    destruct (GetActionsServiceAdminConnection svc _ _ _ w1) as [[conn [e1|]] w2];
      simpl; [done|].
    destruct (connections (set_b_actionsAdminConnection st conn) !! _) as [local|];
      simpl; [|done].
    by destruct (RefreshMessageSession svc _ _ _ w2) as [[refreshed [e2|]] w3].
  - destruct message as [message|]; simpl; [|done]. unfold deleteMessage.
    by destruct (DeleteMessage svc _ _ _ _ w1) as [[e|] w2].
Qed.

(** X27.  The message loop returns only on cancellation: when it returns,
    the context is done in the state of the world it stopped in, and
    whatever the polls, the handshakes and the refreshes answered did not
    end it.  Once the context is done the loop returns nil without making
    any call. *)
Theorem run_returns_only_when_cancelled (fuel : nat) (st : Loop) (w : World) :
  (Done svc w = true → run svc (S fuel) st w = ([], ReturnNil st w))
  ∧ (∀ events st' w',
       run svc fuel st w = (events, ReturnNil st' w') → Done svc w' = true).
Proof.
  split.
  - intros Hdone. simpl. unfold iteration. by rewrite Hdone.
  - revert st w. induction fuel as [|fuel IH]; intros st w events st' w'; simpl; [done|].
    destruct (iteration svc st w) as [events1 [st1 w1|st1 w1|]] eqn:Hiter.
    + destruct (run svc fuel st1 w1) as [events2 it] eqn:Hrun.
      intros [= <- ->]. by eapply IH.
    + intros [= <- <- <-]. by apply iteration_returns in Hiter as (? & _ & _ & ->).
    + done.
Qed.

(** X28.  When the queue token has expired and the refresh of the session
    fails returning no session, the local [session] is nil from then on: if
    the context is not done, the next iteration dereferences it and the
    loop panics, after the handshake, the refresh and the logged error. *)
Theorem failed_refresh_panics (fuel : nat) (st : Loop) (w w1 w2 w3 : World)
    (current : RunnerScaleSetSession) (message : option RunnerScaleSetMessage)
    (e e' : error) (conn : option ActionsServiceAdminConnection)
    (local : ActionsServiceAdminConnection) :
  Done svc w = false →
  session st = Some current →
  GetMessage svc (actionsServiceClient st) (MessageQueueUrl current)
    (MessageQueueAccessToken current) (lastMessageId st) w = (message, Some e, w1) →
  As_MessageQueueTokenExpiredError e = true →
  GetActionsServiceAdminConnection svc (runnerEnterprise st) (runnerOrg st)
    (runnerRepository st) w1 = (conn, None, w2) →
  connections st !! actionsAdminConnection st = Some local →
  RefreshMessageSession svc
    (mkActionsClient (ActionsServiceURL (actionsServiceClient st)) (AdminToken local)
                     (UserAgent (actionsServiceClient st)))
    (Id (SessionScaleSet current)) (SessionId current) w2 = (None, Some e', w3) →
  Done svc w3 = false →
  run svc (S (S fuel)) st w
  = ([Polled (MessageQueueUrl current) (MessageQueueAccessToken current) (lastMessageId st);
      Handshake (runnerEnterprise st) (runnerOrg st) (runnerRepository st);
      SetAdminToken (AdminToken local);
      RefreshedSession (Id (SessionScaleSet current)) (SessionId current);
      LoggedError e' "Error: Refresh message session failed."],
     Panic).
Proof.
  intros Hdone Hsession Hpoll Hexpired Hhandshake Hlocal Hrefresh Hdone'.
  assert (connections (set_b_actionsAdminConnection st conn) !! actionsAdminConnection st
          = Some local) as Hstill.
  { destruct conn; simpl; [|done]. by apply lookup_app_l_Some. }
  cbn [run]. unfold iteration at 1. rewrite Hdone, Hsession.
  unfold getMessage. rewrite Hpoll. simpl. rewrite Hexpired. simpl.
  unfold refresh. rewrite Hhandshake.
  replace (actionsAdminConnection (set_b_actionsAdminConnection st conn))
    with (actionsAdminConnection st) by (by destruct conn).
  rewrite Hstill.
  replace (actionsServiceClient
             (set_adminToken (set_b_actionsAdminConnection st conn) (AdminToken local)))
    with (mkActionsClient (ActionsServiceURL (actionsServiceClient st)) (AdminToken local)
                          (UserAgent (actionsServiceClient st))) by (by destruct conn).
  rewrite Hrefresh. simpl.
  unfold iteration. simpl. rewrite Hdone'.
  by destruct conn.
Qed.

(** X29.  [createRunnerScaleSetSession] sleeps 30 seconds after every failed
    attempt, also after the last one, before it reports the failure: it
    returns at once when the first attempt succeeds, after 30 seconds when
    the second does, and after 60 seconds with the error otherwise. *)
Theorem createRunnerScaleSetSession_sleeps (c : ActionsClient) (scaleSetId : Z)
    (name : string) (w : World) :
  ∃ s e events w',
    createRunnerScaleSetSession svc c scaleSetId name w = Some (s, e, events, w')
    ∧ Trace.sleeps events
      = replicate (attempts events - match e with Some _ => 0 | None => 1 end)
                  (30 * GoTime.Second)
    ∧ (∀ s0 w0, CreateMessageSession svc c scaleSetId name w = (s0, None, w0) →
                events = [CreatedSession scaleSetId name] ∧ s = s0 ∧ w' = w0)
    ∧ (is_Some e → Trace.sleeps events = [30 * GoTime.Second; 30 * GoTime.Second]).
Proof.
  unfold createRunnerScaleSetSession. simpl.
  destruct (CreateMessageSession svc c scaleSetId name w) as [[s1 [e1|]] w1] eqn:Hfirst;
    simpl.
  2:{ eexists _, _, _, _. split; [done|]. split; [done|].
      split; [by intros ?? [= <- <-]|]. by intros [? [=]]. }
  destruct (CreateMessageSession svc c scaleSetId name w1) as [[s2 [e2|]] w2] eqn:Hsecond;
    simpl.
  2:{ eexists _, _, _, _. split; [done|]. split; [done|]. split; [done|].
      by intros [? [=]]. }
  eexists _, _, _, _. split; [done|]. by split.
Qed.

End LoopMore.

Lemma run_calls_delete_before_dispatching_witness :
  Listener.iteration Cases.svc_undeletable Scenario.loop1 0%nat
  = ([Listener.Polled "https://queue.example" "queue-token-1" 0;
      Listener.DeletedMessage 1;
      Listener.LoggedError (ErrorString "message is locked")
        "Error: Delete message failed.";
      Listener.Dispatched Listener.MaybeAcquireJob 1 (Scenario.job 1)],
     Listener.Next (Listener.set_lastMessageId Scenario.loop1 1) 1%nat).
Proof.
  apply (proj2 (proj2 (run_calls_delete_before_dispatching Cases.svc_undeletable 0
                         Scenario.loop1 0%nat))
           Scenario.session1 (Scenario.job 1) 1%nat (ErrorString "message is locked")
           1%nat); reflexivity.
Defined.

Lemma run_polls_after_the_last_dispatched_witness :
  ∃ st' w',
    (Listener.run Scenario.svc 10 Scenario.loop1 0%nat).2 = Listener.ReturnNil st' w'
    ∧ Listener.lastMessageId st' = 3.
Proof.
  eexists _, _. split; [reflexivity|].
  by rewrite (proj2 (run_polls_after_the_last_dispatched Scenario.svc 10 Scenario.loop1
                       0%nat) _ 6%nat (or_intror eq_refl)).
Defined.

Lemma run_keeps_builder_session_witness :
  ∃ st' w',
    (Listener.run Scenario.svc 10 Scenario.loop1 0%nat).2 = Listener.ReturnNil st' w'
    ∧ Listener.b_session st' = Scenario.session1
    ∧ Listener.session st' = Some Scenario.session2.
Proof.
  eexists _, _. split; [reflexivity|]. split; [|reflexivity].
  by apply (run_keeps_builder_session Scenario.svc 10 Scenario.loop1 _ 0%nat 6%nat);
    right.
Defined.

Lemma run_returns_only_when_cancelled_witness :
  Listener.run Scenario.svc 1 Scenario.loop1 6%nat
  = ([], Listener.ReturnNil Scenario.loop1 6%nat).
Proof.
  by apply (run_returns_only_when_cancelled Scenario.svc 0 Scenario.loop1 6%nat).
Defined.

Lemma failed_refresh_panics_witness :
  (Listener.run Cases.svc_stuck 2 Scenario.loop1 0%nat).2 = Listener.Panic.
Proof.
  by rewrite (failed_refresh_panics Cases.svc_stuck 0 Scenario.loop1 0%nat 1%nat 1%nat
                1%nat Scenario.session1 None MessageQueueTokenExpiredError
                (ErrorString "session not found") (Some Scenario.conn2) Scenario.conn1
                eq_refl eq_refl eq_refl eq_refl eq_refl eq_refl eq_refl eq_refl).
Defined.

(** ** The repeatable flags of [main] *)

Section FlagFacts.

Import Github GithubLists Main.

Lemma appendNonEmpty_filter (values s : list string) :
  appendNonEmpty values s = s ++ List.filter nonempty values.
Proof.
  revert s. induction values as [|v values IH]; intros s; simpl.
  { by rewrite app_nil_r. }
  unfold nonempty at 1. destruct (String.eqb v ""); simpl; [apply IH|].
  by rewrite IH, <- app_assoc.
Qed.

Lemma Split_append (sep : ascii) (a b : string) :
  Split sep (a ++ String sep b) = Split sep a ++ Split sep b.
Proof.
  induction a as [|c a IH]; simpl.
  { by rewrite Ascii.eqb_refl. }
  destruct (Ascii.eqb c sep); [by rewrite IH|]. rewrite IH.
  pose proof (Split_not_nil sep a). by destruct (Split sep a).
Qed.

Lemma Split_whole (sep : ascii) (s : string) :
  occurrences sep s = 0%nat → Split sep s = [s].
Proof.
  induction s as [|c s IH]; simpl; [done|].
  destruct (Ascii.eqb c sep); [done|]. by intros ->%IH.
Qed.

Lemma Split_concat (sep : ascii) (labels : list string) :
  labels ≠ [] →
  Forall (λ label, occurrences sep label = 0%nat) labels →
  Split sep (String.concat (String sep "") labels) = labels.
Proof.
  induction labels as [|label labels IH]; [done|]. intros _ Hfree.
  inversion_clear Hfree as [|?? Hlabel Hlabels].
  destruct labels as [|next labels].
  - simpl. by apply Split_whole.
  - change (String.concat (String sep "") (label :: next :: labels))
      with (label ++ String sep (String.concat (String sep "") (next :: labels)))%string.
    rewrite Split_append, IH, Split_whole; done.
Qed.

(** X30.  [commaSeparatedStringSlice.Set] appends to the slice the non-empty
    pieces between the commas of the value, in order, and never fails: the
    values already there stay, nothing appended is empty or holds a comma,
    giving the flag twice is giving it once with the two values joined by a
    comma, and the join by commas of non-empty labels without comma is
    appended as those labels. *)
Theorem commaSeparatedStringSlice_Set_appends (s : list string) (value : string) :
  let s1 := (commaSeparatedStringSlice_Set s value).1 in
  (commaSeparatedStringSlice_Set s value).2 = None
  ∧ s1 = s ++ List.filter nonempty (Split "," value)
  ∧ (∀ v, v ∈ drop (length s) s1 → v ≠ ""%string ∧ occurrences "," v = 0%nat)
  ∧ (∀ value',
       (commaSeparatedStringSlice_Set s1 value').1
       = (commaSeparatedStringSlice_Set s (value ++ "," ++ value')).1)
  ∧ (∀ labels,
       Forall (λ label, label ≠ ""%string ∧ occurrences "," label = 0%nat) labels →
       value = String.concat "," labels → s1 = s ++ labels).
Proof.
  unfold commaSeparatedStringSlice_Set. cbn [fst snd].
  rewrite appendNonEmpty_filter. split; [done|]. split; [done|]. split; [|split].
  - intros v. rewrite drop_app_length.
    intros [Hin Hne]%list_elem_of_In%filter_In. apply list_elem_of_In in Hin. split.
    + by intros ->.
    + pose proof (Split_chunks "," value) as Hchunks.
      rewrite Forall_forall in Hchunks. by apply Hchunks.
  - intros value'. rewrite !appendNonEmpty_filter.
    change (value ++ "," ++ value')%string with (value ++ String "," value')%string.
    by rewrite Split_append, List.filter_app, app_assoc.
  - intros labels Hlabels ->. f_equal.
    destruct labels as [|label labels]; [done|].
    rewrite Split_concat; [|done|].
    + apply forallb_filter_id, forallb_forall. intros v Hin%list_elem_of_In.
      rewrite Forall_forall in Hlabels. destruct (Hlabels v Hin) as [Hne _].
      unfold nonempty. by destruct v.
    + eapply Forall_impl; [exact Hlabels|]. by intros ? [_ ?].
Qed.

End FlagFacts.

Lemma commaSeparatedStringSlice_Set_appends_witness :
  (Main.commaSeparatedStringSlice_Set ["default"%string] "self-hosted,linux").1
  = ["default"; "self-hosted"; "linux"]%string.
Proof.
  apply (proj2 (proj2 (proj2 (proj2
           (commaSeparatedStringSlice_Set_appends ["default"%string]
              "self-hosted,linux"))))
           ["self-hosted"; "linux"]%string).
  - by repeat constructor.
  - reflexivity.
Defined.
